(** * Media extractors of cvat/apps/engine/media_extractors.py

    A shallow embedding of the readers (ImageListReader, VideoReader), the
    chunk writers (ZipChunkWriter, ZipCompressedChunkWriter, Mpeg4ChunkWriter,
    Mpeg4CompressedChunkWriter) and of ValidateDimension, followed by the
    properties proved about them.

    Python values are modelled as follows: an [int] is a [Z]; a [str] is the
    list of its code points ([pystr]); [bytes] is a list of byte values; a
    [dict] is an insertion-ordered association list; an exception is a
    constructor of [exn] carried by [result]; a generator is the list of the
    items it yields together with the exception that ended it, if any. *)

From Stdlib Require Import ZArith NArith List Lia String Ascii Bool Sorted.
From Stdlib Require Import Strings.Byte DecimalString.
From Stdlib Require DecimalPos.
From Stdlib Require Import Floats.SpecFloat.
From Equations Require Import Equations.
Import ListNotations.

Local Open Scope Z_scope.

(* ===================================================================== *)
(** * Part I: the embedding *)
(* ===================================================================== *)

(** ** Python preliminaries *)

Abbreviation pystr := (list N).

Definition str_of (s : string) : pystr :=
  map N_of_ascii (list_ascii_of_string s).

Abbreviation bytes := (list Byte.byte).

Definition bytes_of (s : string) : bytes := list_byte_of_string s.

Inductive exn : Type :=
| AssertionError
| AttributeError
| BadZipFile
| Exception (msg : string)
| FileExistsError
| FileNotFoundError
| IndexError
| KeyError
| OverflowError
| StructError
| TypeError
| UnicodeDecodeError
| ValueError
| ZeroDivisionError.

Inductive result (A : Type) : Type :=
| Ok (a : A)
| Raise (e : exn).

Arguments Ok {A} a.
Arguments Raise {A} e.

Definition bind {A B} (m : result A) (k : A -> result B) : result B :=
  match m with
  | Ok a => k a
  | Raise e => Raise e
  end.

Notation "x <- m ;; k" := (bind m (fun x => k))
  (at level 61, m at next level, right associativity).
Notation "' p <- m ;; k" := (bind m (fun x => let p := x in k))
  (at level 61, p pattern, m at next level, right associativity).

(** A generator run to its end: what it yielded, and the exception that
    interrupted it ([None] when it was exhausted normally). *)
Definition gen (A : Type) : Type := (list A * option exn)%type.

Definition gen_cons {A} (x : A) (g : gen A) : gen A := (x :: fst g, snd g).

(** [for x in l: yield f(x)], where [f] may raise. *)
Fixpoint gen_for {A B} (f : A -> result B) (l : list A) : gen B :=
  match l with
  | [] => ([], None)
  | x :: t =>
      match f x with
      | Raise e => ([], Some e)
      | Ok y => gen_cons y (gen_for f t)
      end
  end.

Definition len {A} (l : list A) : Z := Z.of_nat (List.length l).

(** [l[i]] with Python's negative indices. *)
Definition getitem {A} (l : list A) (i : Z) : result A :=
  let j := if i <? 0 then i + len l else i in
  if j <? 0 then Raise IndexError
  else match nth_error l (Z.to_nat j) with
       | Some x => Ok x
       | None => Raise IndexError
       end.

(** [len(range(start, stop, step))] as CPython computes it. *)
Definition range_len (start stop step : Z) : Z :=
  if 0 <? step then
    if start <? stop then (stop - start - 1) / step + 1 else 0
  else
    if stop <? start then (start - stop - 1) / (- step) + 1 else 0.

(** [range(start, stop, step)]; a zero step is a [ValueError]. *)
Definition py_range (start stop step : Z) : result (list Z) :=
  if step =? 0 then Raise ValueError
  else Ok (map (fun k => start + Z.of_nat k * step)
               (seq 0 (Z.to_nat (range_len start stop step)))).

(** Comparison of two [str] values: lexicographic on code points. *)
Fixpoint str_leb (a b : pystr) : bool :=
  match a, b with
  | [], _ => true
  | _ :: _, [] => false
  | x :: a', y :: b' =>
      if (x <? y)%N then true
      else if (x =? y)%N then str_leb a' b' else false
  end.

Fixpoint insert_sorted (x : pystr) (l : list pystr) : list pystr :=
  match l with
  | [] => [x]
  | y :: t => if str_leb x y then x :: l else y :: insert_sorted x t
  end.

(** [sorted(l)] for a list of [str]. *)
Definition sorted (l : list pystr) : list pystr :=
  fold_right insert_sorted [] l.

(** ** Readers *)

(** The fields [IMediaReader.__init__] stores. [_stop] is [None] when a
    VideoReader is built without a stop. *)
Record IMediaReader : Type := {
  _source_path : list pystr;
  _step : Z;
  _start : Z;
  _stop : option Z
}.

Definition IMediaReader_init (source_path : list pystr) (step start : Z)
    (stop : option Z) : IMediaReader :=
  {| _source_path := sorted source_path;
     _step := step;
     _start := start;
     _stop := stop |}.

(** The [frame_range] property: [range(self._start, self._stop, self._step)];
    a [None] stop is a [TypeError]. *)
Definition frame_range (r : IMediaReader) : result (list Z) :=
  match _stop r with
  | None => Raise TypeError
  | Some stop => py_range (_start r) stop (_step r)
  end.

(** [__len__] *)
Definition IMediaReader_len (r : IMediaReader) : result Z :=
  fr <- frame_range r ;; Ok (len fr).

Definition ImageListReader_init (source_path : list pystr) (step start : Z)
    (stop : option Z) : result IMediaReader :=
  match source_path with
  | [] => Raise (Exception "No image found")
  | _ :: _ =>
      let stop :=
        match stop with
        | None => len source_path
        | Some stop => Z.min (len source_path) (stop + 1)
        end in
      let step := Z.max step 1 in
      if start <? stop
      then Ok (IMediaReader_init source_path step start (Some stop))
      else Raise AssertionError
  end.

Definition get_path (r : IMediaReader) (i : Z) : result pystr :=
  getitem (_source_path r) i.

Definition get_image (r : IMediaReader) (i : Z) : result pystr :=
  getitem (_source_path r) i.

(** [ImageListReader.__iter__]: the triples [(image, path, index)]. *)
Definition ImageListReader_iter (r : IMediaReader) : gen (pystr * pystr * Z) :=
  match frame_range r with
  | Raise e => ([], Some e)
  | Ok idx =>
      gen_for (fun i => img <- get_image r i ;;
                        p <- get_path r i ;;
                        Ok (img, p, i)) idx
  end.

(** The index component of what a reader yields. *)
Definition yielded_indices (g : gen (pystr * pystr * Z)) : list Z :=
  map snd (fst g).

(** ** Dictionaries

    A Python [dict] keyed by [str]: insertion-ordered; assigning to a key
    that is present keeps its position. *)

Fixpoint str_eqb (a b : pystr) : bool :=
  match a, b with
  | [], [] => true
  | x :: a', y :: b' => (x =? y)%N && str_eqb a' b'
  | _, _ => false
  end.

Definition dict (V : Type) : Type := list (pystr * V).

Fixpoint dict_get {V} (d : dict V) (k : pystr) : option V :=
  match d with
  | [] => None
  | (k', v) :: t => if str_eqb k' k then Some v else dict_get t k
  end.

Fixpoint dict_set {V} (d : dict V) (k : pystr) (v : V) : dict V :=
  match d with
  | [] => [(k, v)]
  | (k', v') :: t =>
      if str_eqb k' k then (k', v) :: t else (k', v') :: dict_set t k v
  end.

Definition dict_keys {V} (d : dict V) : list pystr := map fst d.
Definition dict_values {V} (d : dict V) : list V := map snd d.

(** [d[k]] *)
Definition dict_item {V} (d : dict V) (k : pystr) : result V :=
  match dict_get d k with
  | Some v => Ok v
  | None => Raise KeyError
  end.

(** ** What the code takes from outside the repository

    [rotate_image] is cvat.apps.engine.utils.rotate_image and [ndarray] the
    pixel arrays it works on; [py_int] is Python's [int(str)]. The Pillow
    calls of [_compress_image] are [to_image] (VideoFrame.to_image),
    [Image_open] (on a BytesIO or on a path), [image_mode], [convert_rgb],
    [image_size] and [save_jpeg]; [autoscale] is the numpy rescaling of a
    32-bit image. [reformat] is what PyAV's encoder does to a frame before
    it codes it: the array brought to the width and height of the stream.
    [path_exists] and [read_file] look at the file system the writers run
    on, and [splitext] is os.path.splitext. *)
Class Env : Type := {
  ndarray : Type;
  nd_width : ndarray -> Z;
  nd_height : ndarray -> Z;
  rotate_image : ndarray -> Z -> ndarray;
  reformat : ndarray -> Z -> Z -> ndarray;
  py_int : pystr -> result Z;
  pil_image : Type;
  to_image : ndarray -> pil_image;
  Image_open : bytes + pystr -> result pil_image;
  image_mode : pil_image -> pystr;
  autoscale : pil_image -> result pil_image;
  convert_rgb : pil_image -> pil_image;
  image_size : pil_image -> Z * Z;
  save_jpeg : pil_image -> Z -> result bytes;
  path_exists : pystr -> bool;
  read_file : pystr -> result bytes;
  splitext : pystr -> pystr * pystr
}.

Section Video.
Context `{Env}.

(** An av.VideoFrame, held as its bgr24 array. *)
Record VideoFrame : Type := {
  to_ndarray : ndarray;
  pts : option Z;
  time_base : option (Z * Z)
}.

Definition width (f : VideoFrame) : Z := nd_width (to_ndarray f).
Definition height (f : VideoFrame) : Z := nd_height (to_ndarray f).

(** [av.VideoFrame().from_ndarray(a, format='bgr24')] *)
Definition from_ndarray (a : ndarray) : VideoFrame :=
  {| to_ndarray := a; pts := None; time_base := None |}.

Definition set_pts (f : VideoFrame) (p : option Z) : VideoFrame :=
  {| to_ndarray := to_ndarray f; pts := p; time_base := time_base f |}.

Record Stream : Type := {
  stream_type : pystr;
  metadata : dict pystr
}.

(** A demuxed packet with the frames [packet.decode()] gives. *)
Record Packet : Type := {
  stream : Stream;
  decode : list VideoFrame
}.

(** An opened container: [container.streams.video] and the packets of
    [container.demux()]. *)
Record Container : Type := {
  streams_video : list Stream;
  demux : list Packet
}.

Definition VideoReader_init (source_path : list pystr) (step start : Z)
    (stop : option Z) : IMediaReader :=
  IMediaReader_init source_path step start
    (match stop with
     | Some stop => Some (stop + 1)
     | None => None
     end).

Definition _has_frame (r : IMediaReader) (i : Z) : result bool :=
  if _start r <=? i then
    if _step r =? 0 then Raise ZeroDivisionError
    else if (i - _start r) mod _step r =? 0 then
      match _stop r with
      | None => Ok true
      | Some stop => Ok (i <? stop)
      end
    else Ok false
  else Ok false.

(** Truth value of [metadata.get('rotate')]. *)
Definition declares_rotate (s : Stream) : bool :=
  match dict_get (metadata s) (str_of "rotate") with
  | Some (_ :: _) => true
  | _ => false
  end.

(** [int(container.streams.video[0].metadata.get('rotate'))] *)
Definition container_rotate (c : Container) : result Z :=
  v0 <- getitem (streams_video c) 0 ;;
  match dict_get (metadata v0) (str_of "rotate") with
  | None => Raise TypeError
  | Some s => py_int s
  end.

(** The body of [_decode] under [if self._has_frame(frame_num - 1)], up to
    the [yield]: the image that is yielded. *)
Definition upright (c : Container) (pkt : Packet) (image : VideoFrame)
    : result VideoFrame :=
  if declares_rotate (stream pkt) then
    let old_image := image in
    degrees <- container_rotate c ;;
    let image := from_ndarray (rotate_image (to_ndarray image) (360 - degrees)) in
    Ok (set_pts image (pts old_image))
  else Ok image.

Definition yielded : Type := (VideoFrame * pystr * option Z)%type.

(** What is yielded for a frame that passed [_has_frame]:
    [(image, self._source_path[0], image.pts)]. *)
Definition yield_frame (r : IMediaReader) (c : Container) (pkt : Packet)
    (image : VideoFrame) : result yielded :=
  image <- upright c pkt image ;;
  p <- getitem (_source_path r) 0 ;;
  Ok (image, p, pts image).

(** [for image in packet.decode(): ...] with the running [frame_num]. *)
Fixpoint decode_images (r : IMediaReader) (c : Container) (pkt : Packet)
    (images : list VideoFrame) (frame_num : Z) : Z * gen yielded :=
  match images with
  | [] => (frame_num, ([], None))
  | image :: rest =>
      let frame_num := frame_num + 1 in
      match _has_frame r (frame_num - 1) with
      | Raise e => (frame_num, ([], Some e))
      | Ok false => decode_images r c pkt rest frame_num
      | Ok true =>
          match yield_frame r c pkt image with
          | Raise e => (frame_num, ([], Some e))
          | Ok y =>
              let '(n, g) := decode_images r c pkt rest frame_num in
              (n, gen_cons y g)
          end
      end
  end.

(** [for packet in container.demux(): ...] *)
Fixpoint decode_packets (r : IMediaReader) (c : Container)
    (packets : list Packet) (frame_num : Z) : gen yielded :=
  match packets with
  | [] => ([], None)
  | packet :: rest =>
      if str_eqb (stream_type (stream packet)) (str_of "video") then
        let '(frame_num, (ys, e)) :=
          decode_images r c packet (decode packet) frame_num in
        match e with
        | Some _ => (ys, e)
        | None =>
            let '(zs, e') := decode_packets r c rest frame_num in
            (ys ++ zs, e')
        end
      else decode_packets r c rest frame_num
  end.

Definition _decode (r : IMediaReader) (c : Container) : gen yielded :=
  decode_packets r c (demux c) 0.

(** [__iter__] on the container [_get_av_container] opened. *)
Definition VideoReader_iter (r : IMediaReader) (c : Container) : gen yielded :=
  match getitem (streams_video c) 0 with
  | Raise e => ([], Some e)
  | Ok _ => _decode r c
  end.

(** The decoded video frames in decode order, each with its packet. *)
Definition video_frames (c : Container) : list (Packet * VideoFrame) :=
  flat_map (fun packet =>
              if str_eqb (stream_type (stream packet)) (str_of "video")
              then map (fun image => (packet, image)) (decode packet)
              else [])
           (demux c).

(** [enumerate(l, n)] *)
Fixpoint enumerate {A} (n : Z) (l : list A) : list (Z * A) :=
  match l with
  | [] => []
  | x :: t => (n, x) :: enumerate (n + 1) t
  end.

End Video.

(** ** Strings and bytes *)

Fixpoint startswith (s prefix : pystr) : bool :=
  match prefix, s with
  | [], _ => true
  | p :: prefix', c :: s' => (c =? p)%N && startswith s' prefix'
  | _ :: _, [] => false
  end.

Definition endswith (s suffix : pystr) : bool :=
  startswith (rev s) (rev suffix).

(** [sub in s] *)
Fixpoint contains (s sub : pystr) : bool :=
  startswith s sub ||
  match s with
  | [] => false
  | _ :: s' => contains s' sub
  end.

(** [s.split(sep)] for a non-empty [sep]: [skip] counts the characters of a
    separator still to be dropped, [cur] is the piece being read, reversed. *)
Fixpoint split_from (sep s : pystr) (skip : nat) (cur : pystr) : list pystr :=
  match s with
  | [] => [rev cur]
  | c :: s' =>
      match skip with
      | S n => split_from sep s' n cur
      | O =>
          if startswith s sep
          then rev cur :: split_from sep s' (List.length sep - 1) []
          else split_from sep s' O (c :: cur)
      end
  end.

Definition str_split (s sep : pystr) : list pystr := split_from sep s O [].

(** [s.split(sep, maxsplit=1)] for a one-character [sep]. *)
Fixpoint split_once (s : pystr) (sep : N) : list pystr :=
  match s with
  | [] => [[]]
  | c :: s' =>
      if (c =? sep)%N then [[]; s']
      else match split_once s' sep with
           | a :: rest => (c :: a) :: rest
           | [] => [[c]]
           end
  end.

(** [s.rsplit(sep, maxsplit=1)] for a one-character [sep]. *)
Definition rsplit_once (s : pystr) (sep : N) : list pystr :=
  match split_once (rev s) sep with
  | [a; b] => [rev b; rev a]
  | _ => [s]
  end.

(** The code points [str.isspace] accepts, which [str.strip()] removes. *)
Definition isspace (c : N) : bool :=
  ((9 <=? c) && (c <=? 13) || (28 <=? c) && (c <=? 32)
   || (c =? 133) || (c =? 160) || (c =? 5760)
   || (8192 <=? c) && (c <=? 8202)
   || (c =? 8232) || (c =? 8233) || (c =? 8239) || (c =? 8287)
   || (c =? 12288))%N.

Fixpoint lstrip (s : pystr) : pystr :=
  match s with
  | c :: s' => if isspace c then lstrip s' else s
  | [] => []
  end.

Definition strip (s : pystr) : pystr := rev (lstrip (rev (lstrip s))).

(** [s.replace(old, new)] for a non-empty [old], with the same bookkeeping
    as [split_from]. *)
Fixpoint replace_from (old new s : pystr) (skip : nat) : pystr :=
  match s with
  | [] => []
  | c :: s' =>
      match skip with
      | S n => replace_from old new s' n
      | O =>
          if startswith s old
          then new ++ replace_from old new s' (List.length old - 1)
          else c :: replace_from old new s' O
      end
  end.

Definition str_replace (s old new : pystr) : pystr := replace_from old new s O.

(** A continuation byte of UTF-8 between [lo] and [hi], as its six bits. *)
Definition cont (lo hi : N) (b : Byte.byte) : option N :=
  let n := Byte.to_N b in
  if ((lo <=? n) && (n <=? hi))%N then Some (n - 128)%N else None.

(** [b.decode("utf-8")]: strict, so overlong forms, surrogates and code
    points above U+10FFFF are refused. *)
Fixpoint utf8_decode (b : bytes) : option pystr :=
  match b with
  | [] => Some []
  | b0 :: t =>
      let n := Byte.to_N b0 in
      if (n <? 128)%N then option_map (cons n) (utf8_decode t)
      else if ((194 <=? n) && (n <=? 223))%N then
        match t with
        | b1 :: t' =>
            match cont 128 191 b1 with
            | Some c1 =>
                option_map (cons ((n - 192) * 64 + c1)%N) (utf8_decode t')
            | None => None
            end
        | _ => None
        end
      else if ((224 <=? n) && (n <=? 239))%N then
        match t with
        | b1 :: b2 :: t' =>
            let lo := if (n =? 224)%N then 160%N else 128%N in
            let hi := if (n =? 237)%N then 159%N else 191%N in
            match cont lo hi b1, cont 128 191 b2 with
            | Some c1, Some c2 =>
                option_map (cons ((n - 224) * 4096 + c1 * 64 + c2)%N)
                           (utf8_decode t')
            | _, _ => None
            end
        | _ => None
        end
      else if ((240 <=? n) && (n <=? 244))%N then
        match t with
        | b1 :: b2 :: b3 :: t' =>
            let lo := if (n =? 240)%N then 144%N else 128%N in
            let hi := if (n =? 244)%N then 143%N else 191%N in
            match cont lo hi b1, cont 128 191 b2, cont 128 191 b3 with
            | Some c1, Some c2, Some c3 =>
                option_map
                  (cons ((n - 240) * 262144 + c1 * 4096 + c2 * 64 + c3)%N)
                  (utf8_decode t')
            | _, _, _ => None
            end
        | _ => None
        end
      else None
  end.

(** The lines a binary stream gives when iterated: each ends after its
    newline; [cur] is the line being read, reversed. *)
Fixpoint readlines_from (b : bytes) (cur : bytes) : list bytes :=
  match b with
  | [] => match cur with [] => [] | _ => [rev cur] end
  | c :: t =>
      if Byte.eqb c "010"%byte
      then rev (c :: cur) :: readlines_from t []
      else readlines_from t (c :: cur)
  end.

Definition readlines (b : bytes) : list bytes := readlines_from b [].

(** ** Point-cloud headers: ValidateDimension.get_pcd_properties *)

(** A line handed over by the stream: [bytes] from a binary stream, [str]
    from one opened in text mode. *)
Inductive pyline : Type :=
| BytesLine (b : bytes)
| StrLine (s : pystr).

(** [line.decode("utf-8")]: a [str] has no [decode]. *)
Definition line_decode (line : pyline) : result pystr :=
  match line with
  | StrLine _ => Raise AttributeError
  | BytesLine b =>
      match utf8_decode b with
      | Some s => Ok s
      | None => Raise UnicodeDecodeError
      end
  end.

(** The [for line in fp] loop of [get_pcd_properties], from the dictionary
    [kv] built so far. *)
Fixpoint read_header (fp : list pyline) (kv : dict pystr) : result (dict pystr) :=
  match fp with
  | [] => Ok kv
  | line :: rest =>
      line <- line_decode line ;;
      if startswith line (str_of "#") then read_header rest kv
      else
        match split_once line 32 with
        | [k; v] =>
            let kv := dict_set kv k (strip v) in
            if contains line (str_of "DATA") then Ok kv
            else read_header rest kv
        | _ => Raise ValueError
        end
  end.

Definition pcd_version : list pystr :=
  map str_of ["0.7"; "0.6"; "0.5"; "0.4"; "0.3"; "0.2"; "0.1";
              ".7"; ".6"; ".5"; ".4"; ".3"; ".2"; ".1"]%string.

(** What [get_pcd_properties] returns: the dictionary, [True] or [None]. *)
Inductive pcd_properties : Type :=
| Properties (kv : dict pystr)
| PcdTrue
| PcdNone.

Definition get_pcd_properties (fp : list pyline) (verify_version : bool)
    : result pcd_properties :=
  match read_header fp [] with
  | Ok kv =>
      if verify_version then
        match dict_get kv (str_of "VERSION") with
        | Some v =>
            if existsb (str_eqb v) pcd_version then Ok PcdTrue else Ok PcdNone
        | None => Ok PcdNone
        end
      else Ok (Properties kv)
  | Raise AttributeError => Ok PcdNone
  | Raise e => Raise e
  end.

(** ** Numbers: [str(int)], true division and [round] *)

(** [str(n)] *)
Definition str_of_int (n : Z) : pystr :=
  str_of (NilZero.string_of_int (Z.to_int n)).

(** ['{:06d}'.format(n)] for [n >= 0]. *)
Definition format_06d (n : Z) : pystr :=
  let digits := str_of_int n in
  repeat 48%N (6 - List.length digits) ++ digits.

(** An [int] as a binary64 [float]; exact below 2^53. *)
Definition float_of_int (n : Z) : spec_float :=
  binary_normalize 53 1024 n 0 false.

(** [a / b] on two [int]s: the binary64 quotient, correctly rounded. *)
Definition truediv (a b : Z) : result spec_float :=
  if b =? 0 then Raise ZeroDivisionError
  else Ok (SFdiv 53 1024 (float_of_int a) (float_of_int b)).

(** The integer nearest to [n / d] for [d > 0], ties to the even one. *)
Definition round_half_even (n d : Z) : Z :=
  let q := n / d in
  let r := n mod d in
  if 2 * r <? d then q
  else if d <? 2 * r then q + 1
  else if Z.even q then q else q + 1.

(** [round(x)] on a [float]. *)
Definition py_round (x : spec_float) : result Z :=
  match x with
  | S754_zero _ => Ok 0
  | S754_infinity _ => Raise OverflowError
  | S754_nan => Raise ValueError
  | S754_finite s m e =>
      let v := if 0 <=? e then Z.pos m * 2 ^ e
               else round_half_even (Z.pos m) (2 ^ (- e)) in
      Ok (if s then - v else v)
  end.

(** ** Chunk writers *)

Inductive DimensionType : Type := DIM_2D | DIM_3D.

Definition DimensionType_eqb (a b : DimensionType) : bool :=
  match a, b with
  | DIM_2D, DIM_2D | DIM_3D, DIM_3D => true
  | _, _ => false
  end.

(** The attributes a writer object holds; an attribute its [__init__] never
    assigns is [None] here and an AttributeError when read. *)
Record ChunkWriter : Type := {
  _image_quality : Z;
  _dimension : option DimensionType;
  _output_fps : option Z
}.

(** [IChunkWriter.__init__(quality, dimension=DimensionType.DIM_2D)] *)
Definition IChunkWriter_init (quality : Z) (dimension : DimensionType)
    : ChunkWriter :=
  {| _image_quality := quality;
     _dimension := Some dimension;
     _output_fps := None |}.

Definition attr {A} (a : option A) : result A :=
  match a with
  | Some x => Ok x
  | None => Raise AttributeError
  end.

(** [Mpeg4ChunkWriter.__init__(self, _)] *)
Definition Mpeg4ChunkWriter_init {A} (_ : A) : ChunkWriter :=
  {| _image_quality := _image_quality (IChunkWriter_init 17 DIM_2D);
     _dimension := _dimension (IChunkWriter_init 17 DIM_2D);
     _output_fps := Some 25 |}.

(** [Mpeg4CompressedChunkWriter.__init__(self, quality)]; the parent's
    [__init__] is not called. *)
Definition Mpeg4CompressedChunkWriter_init (quality : Z) : result ChunkWriter :=
  x <- truediv (51 * (100 - quality)) 99 ;;
  q <- py_round x ;;
  Ok {| _image_quality := q; _dimension := None; _output_fps := Some 25 |}.

(** [for x in l: ...] collecting what each round produces. *)
Fixpoint for_each {A B} (f : A -> result B) (l : list A) : result (list B) :=
  match l with
  | [] => Ok []
  | x :: t => y <- f x ;; ys <- for_each f t ;; Ok (y :: ys)
  end.

(** [while input_h / downscale_factor >= 1080: downscale_factor *= 2],
    entered with [downscale_factor = factor]; the value the loop ends with.
    The quotient of a frame height by a power of two is exact in binary64,
    so the test is the one on rationals. *)
Equations? downscale_factor (input_h : Z) (factor : positive) : positive
  by wf (Z.to_nat (input_h - 1080 * Z.pos factor + 1)) lt :=
  downscale_factor input_h factor
    with Z_le_dec (1080 * Z.pos factor) input_h := {
    | left _ => downscale_factor input_h (2 * factor)
    | right _ => factor }.
Proof. lia. Qed.

Section Writers.
Context `{Env}.

(** The first component of an item handed to a writer. *)
Inductive Image : Type :=
| FrameImage (f : VideoFrame)
| BytesIO (b : bytes)
| PathImage (p : pystr).

(** A zip archive: its members, name and contents, in the order written. *)
Definition archive : Type := list (pystr * bytes).

(** [zipfile.ZipFile(chunk_path, 'x')]: exclusive creation. *)
Definition ZipFile_x (chunk_path : pystr) : result archive :=
  if path_exists chunk_path then Raise FileExistsError else Ok [].

Definition ZipChunkWriter_save_as_chunk {T} (self : ChunkWriter)
    (images : list (Image * pystr * T)) (chunk_path : pystr)
    : result (archive * list (Z * Z)) :=
  _ <- ZipFile_x chunk_path ;;
  zip_chunk <-
    for_each (fun '(idx, (image, path, _)) =>
                let arcname := format_06d idx ++ snd (splitext path) in
                match image with
                | BytesIO b => Ok (arcname, b)
                | PathImage p => b <- read_file p ;; Ok (arcname, b)
                | FrameImage _ => Raise TypeError
                end)
             (enumerate 0 images) ;;
  Ok (zip_chunk, []).

(** [IChunkWriter._compress_image]: width, height and the JPEG buffer. *)
Definition _compress_image (image_path : Image) (quality : Z)
    : result (Z * Z * bytes) :=
  image <- match image_path with
           | FrameImage f => Ok (to_image (to_ndarray f))
           | BytesIO b => Image_open (inl b)
           | PathImage p => Image_open (inr p)
           end ;;
  image <- (if str_eqb (image_mode image) (str_of "I")
            then autoscale image else Ok image) ;;
  let converted_image := convert_rgb image in
  buf <- save_jpeg converted_image quality ;;
  let '(width, height) := image_size converted_image in
  Ok (width, height, buf).

(** The 3D branch of [ZipCompressedChunkWriter.save_as_chunk]: the size
    read from the point-cloud header and the bytes passed through. *)
Definition pcd_passthrough (image : Image) : result (Z * Z * bytes) :=
  image_buf <- match image with
               | PathImage p => read_file p
               | BytesIO b => Ok b
               | FrameImage _ => Raise TypeError
               end ;;
  properties <- get_pcd_properties (map BytesLine (readlines image_buf)) false ;;
  match properties with
  | Properties kv =>
      w <- (v <- dict_item kv (str_of "WIDTH") ;; py_int v) ;;
      h <- (v <- dict_item kv (str_of "HEIGHT") ;; py_int v) ;;
      Ok (w, h, image_buf)
  | _ => Raise TypeError
  end.

(** One round of the loop of [ZipCompressedChunkWriter.save_as_chunk]:
    width, height, buffer and extension for [image]. *)
Definition compress_frame (self : ChunkWriter) (image : Image)
    : result (Z * Z * bytes * pystr) :=
  dimension <- attr (_dimension self) ;;
  if DimensionType_eqb dimension DIM_2D
  then '(w, h, image_buf) <- _compress_image image (_image_quality self) ;;
       Ok (w, h, image_buf, str_of "jpeg")
  else '(w, h, image_buf) <- pcd_passthrough image ;;
       Ok (w, h, image_buf, str_of "pcd").

Definition ZipCompressedChunkWriter_save_as_chunk {T} (self : ChunkWriter)
    (images : list (Image * pystr * T)) (chunk_path : pystr)
    : result (archive * list (Z * Z)) :=
  _ <- ZipFile_x chunk_path ;;
  written <-
    for_each (fun '(idx, (image, _, _)) =>
                '(w, h, image_buf, extension) <- compress_frame self image ;;
                let arcname := format_06d idx ++ str_of "." ++ extension in
                Ok ((w, h), (arcname, image_buf)))
             (enumerate 0 images) ;;
  Ok (map snd written, map fst written).

(** The video stream [_create_av_container] configures, and the container
    with the pictures encoded and muxed into it so far: each as the encoder
    coded it, reformatted to the size of the stream. *)
Record OutputStream : Type := {
  codec_name : pystr;
  rate : Z;
  pix_fmt : pystr;
  stream_width : Z;
  stream_height : Z;
  options : dict pystr
}.

Record OutputContainer : Type := {
  container_path : pystr;
  container_format : pystr;
  video_stream : OutputStream;
  muxed : list VideoFrame
}.

Definition _create_av_container (path : pystr) (w h rate : Z)
    (options : dict pystr) (f : pystr) : OutputContainer :=
  let h := if h mod 2 =? 0 then h else h + 1 in
  let w := if w mod 2 =? 0 then w else w + 1 in
  {| container_path := path;
     container_format := f;
     video_stream := {| codec_name := str_of "libopenh264";
                        rate := rate;
                        pix_fmt := str_of "yuv420p";
                        stream_width := w;
                        stream_height := h;
                        options := options |};
     muxed := [] |}.

(** [_encode_images]: every frame loses its pts and time base, then goes
    through the encoder of the stream, which reformats it to the stream's
    width and height, into the container. *)
Definition _encode_images {T} (images : list (Image * pystr * T))
    (container : OutputContainer) : result OutputContainer :=
  frames <-
    for_each (fun '(frame, _, _) =>
                match frame with
                | FrameImage f =>
                    let stream := video_stream container in
                    Ok {| to_ndarray :=
                            reformat (to_ndarray f) (stream_width stream)
                                     (stream_height stream);
                          pts := None;
                          time_base := None |}
                | BytesIO _ => Raise TypeError
                | PathImage _ => Raise AttributeError
                end)
             images ;;
  Ok {| container_path := container_path container;
        container_format := container_format container;
        video_stream := video_stream container;
        muxed := muxed container ++ frames |}.

(** [images[0][0].width] and [images[0][0].height] *)
Definition frame_size (image : Image) : result (Z * Z) :=
  match image with
  | FrameImage f => Ok (width f, height f)
  | _ => Raise AttributeError
  end.

Definition encoder_options (self : ChunkWriter) : dict pystr :=
  [ (str_of "profile", str_of "constrained_baseline");
    (str_of "qmin", str_of_int (_image_quality self));
    (str_of "qmax", str_of_int (_image_quality self));
    (str_of "rc_mode", str_of "buffer") ].

Definition Mpeg4ChunkWriter_save_as_chunk {T} (self : ChunkWriter)
    (images : list (Image * pystr * T)) (chunk_path : pystr)
    : result (OutputContainer * list (Z * Z)) :=
  match images with
  | [] => Raise (Exception "no images to save")
  | (first, _, _) :: _ =>
      '(input_w, input_h) <- frame_size first ;;
      rate <- attr (_output_fps self) ;;
      let output_container :=
        _create_av_container chunk_path input_w input_h rate
          (encoder_options self) (str_of "mp4") in
      output_container <- _encode_images images output_container ;;
      Ok (output_container, [(input_w, input_h)])
  end.

Definition Mpeg4CompressedChunkWriter_save_as_chunk {T} (self : ChunkWriter)
    (images : list (Image * pystr * T)) (chunk_path : pystr)
    : result (OutputContainer * list (Z * Z)) :=
  match images with
  | [] => Raise (Exception "no images to save")
  | (first, _, _) :: _ =>
      '(input_w, input_h) <- frame_size first ;;
      let downscale_factor := Z.pos (downscale_factor input_h 1) in
      let output_h := input_h / downscale_factor in
      let output_w := input_w / downscale_factor in
      rate <- attr (_output_fps self) ;;
      let output_container :=
        _create_av_container chunk_path output_w output_h rate
          (encoder_options self) (str_of "mp4") in
      output_container <- _encode_images images output_container ;;
      Ok (output_container, [(input_w, input_h)])
  end.

End Writers.

(** ** ValidateDimension *)

(** A point of a velodyne .bin file: the bytes of its x, y and z floats. *)
Definition point : Type := (bytes * bytes * bytes)%type.

(** The file system [validate] runs on. [World] is its state; [walk_roots]
    gives the directories os.walk visits, in its order, and [walk_files] the
    file names it lists in one of them when it gets there. [search_image]
    is [re.search(r'image_\d.*', path, re.IGNORECASE)] with the text matched.
    [write_point_cloud] is o3d.io.write_point_cloud; the other fields are the
    functions of [os] and [os.path] of the same names. *)
Class OS : Type := {
  World : Type;
  abspath : pystr -> pystr;
  join : pystr -> pystr -> pystr;
  path_split : pystr -> pystr * pystr;
  isdir : World -> pystr -> bool;
  isfile : World -> pystr -> bool;
  listdir : World -> pystr -> result (list pystr);
  walk_roots : World -> pystr -> list pystr;
  walk_files : World -> pystr -> list pystr;
  open_rb : World -> pystr -> result bytes;
  remove : World -> pystr -> result World;
  write_point_cloud : World -> pystr -> list point -> World;
  search_image : pystr -> option pystr
}.

(** [struct.unpack("ffff", byte)] on each 16 bytes read, keeping x, y, z. *)
Fixpoint unpack_points (b : bytes) : result (list point) :=
  match b with
  | [] => Ok []
  | x0 :: x1 :: x2 :: x3 :: y0 :: y1 :: y2 :: y3
    :: z0 :: z1 :: z2 :: z3 :: _ :: _ :: _ :: _ :: rest =>
      list_pcd <- unpack_points rest ;;
      Ok (([x0; x1; x2; x3], [y0; y1; y2; y3], [z0; z1; z2; z3]) :: list_pcd)
  | _ => Raise StructError
  end.

Section Validate.
Context `{OS}.

Record ValidateDimension : Type := {
  dimension : DimensionType;
  path : option pystr;
  related_files : dict (list pystr);
  image_files : dict pystr;
  converted_files : list pystr
}.

(** [__init__(self, path=None)] *)
Definition ValidateDimension_init (path : option pystr) : ValidateDimension :=
  {| dimension := DIM_2D;
     path := path;
     related_files := [];
     image_files := [];
     converted_files := [] |}.

Definition set_path (self : ValidateDimension) (p : pystr) : ValidateDimension :=
  {| dimension := dimension self;
     path := Some p;
     related_files := related_files self;
     image_files := image_files self;
     converted_files := converted_files self |}.

(** A method of ValidateDimension: it reads and changes the file system and
    the object, and may raise. *)
Definition M (A : Type) : Type :=
  World * ValidateDimension -> result (A * (World * ValidateDimension)).

Definition ret {A} (a : A) : M A := fun s => Ok (a, s).

Definition mbind {A B} (m : M A) (k : A -> M B) : M B :=
  fun s => match m s with
           | Ok (a, s') => k a s'
           | Raise e => Raise e
           end.

Notation "x <~ m ;; k" := (mbind m (fun x => k))
  (at level 61, m at next level, right associativity).

Definition lift {A} (r : result A) : M A :=
  fun s => match r with
           | Ok a => Ok (a, s)
           | Raise e => Raise e
           end.

(** A look at the file system. *)
Definition ask {A} (f : World -> A) : M A := fun s => Ok (f (fst s), s).

(** A change of the file system. *)
Definition change (f : World -> result World) : M unit :=
  fun s => match f (fst s) with
           | Ok w => Ok (tt, (w, snd s))
           | Raise e => Raise e
           end.

Definition self_get {A} (f : ValidateDimension -> A) : M A :=
  fun s => Ok (f (snd s), s).

Definition self_set (f : ValidateDimension -> ValidateDimension) : M unit :=
  fun s => Ok (tt, (fst s, f (snd s))).

(** [for x in l: body(x)] *)
Fixpoint for_ {A} (l : list A) (body : A -> M unit) : M unit :=
  match l with
  | [] => ret tt
  | x :: t => _ <~ body x ;; for_ t body
  end.

(** [self.related_files[key] = value] *)
Definition set_related_files (key : pystr) (value : list pystr) : M unit :=
  self_set (fun self =>
    {| dimension := dimension self;
       path := path self;
       related_files := dict_set (related_files self) key value;
       image_files := image_files self;
       converted_files := converted_files self |}).

(** [self.related_files[key].append(x)] *)
Definition related_files_append (key x : pystr) : M unit :=
  l <~ (d <~ self_get related_files ;; lift (dict_item d key)) ;;
  set_related_files key (l ++ [x]).

(** [self.image_files[key] = value] *)
Definition set_image_files (key value : pystr) : M unit :=
  self_set (fun self =>
    {| dimension := dimension self;
       path := path self;
       related_files := related_files self;
       image_files := dict_set (image_files self) key value;
       converted_files := converted_files self |}).

(** [self.converted_files.append(x)] *)
Definition converted_files_append (x : pystr) : M unit :=
  self_set (fun self =>
    {| dimension := dimension self;
       path := path self;
       related_files := related_files self;
       image_files := image_files self;
       converted_files := converted_files self ++ [x] |}).

Definition convert_bin_to_pcd (path : pystr) (delete_source : bool) : M pystr :=
  content <~ (r <~ ask (fun w => open_rb w path) ;; lift r) ;;
  list_pcd <~ lift (unpack_points content) ;;
  let pcd_filename := str_replace path (str_of ".bin") (str_of ".pcd") in
  _ <~ change (fun w => Ok (write_point_cloud w pcd_filename list_pcd)) ;;
  _ <~ (if delete_source then change (fun w => remove w path) else ret tt) ;;
  ret pcd_filename.

(** [p.split(actual_path)[-1][1:]] *)
Definition relative_to (p actual_path : pystr) : pystr :=
  tl (last (str_split p actual_path) []).

Definition bin_operation (file_path actual_path : pystr) : M pystr :=
  pcd_path <~ convert_bin_to_pcd file_path true ;;
  _ <~ converted_files_append pcd_path ;;
  ret (relative_to pcd_path actual_path).

Definition pcd_operation (file_path actual_path : pystr) : M pystr :=
  content <~ (r <~ ask (fun w => open_rb w file_path) ;; lift r) ;;
  is_pcd <~ lift (get_pcd_properties (map BytesLine (readlines content)) true) ;;
  match is_pcd with
  | PcdTrue | Properties (_ :: _) => ret (relative_to file_path actual_path)
  | PcdNone | Properties [] => ret file_path
  end.

(** The body of the loop of [process_files], from the [pcd_files] built so
    far. *)
Definition process_file (root actual_path : pystr) (pcd_files : dict pystr)
    (file : pystr) : M (dict pystr) :=
  match rsplit_once file 46 with
  | [file_name; file_extension] =>
      let file_path := abspath (join root file) in
      if str_eqb file_extension (str_of "bin") then
        path <~ bin_operation file_path actual_path ;;
        _ <~ set_related_files path [] ;;
        ret (dict_set pcd_files file_name path)
      else if str_eqb file_extension (str_of "pcd") then
        path <~ pcd_operation file_path actual_path ;;
        if str_eqb path file_path then
          _ <~ set_image_files file_name file_path ;;
          ret pcd_files
        else
          _ <~ set_related_files path [] ;;
          ret (dict_set pcd_files file_name path)
      else
        _ <~ set_image_files file_name file_path ;;
        ret pcd_files
  | _ => lift (Raise ValueError)
  end.

Fixpoint process_files_from (root actual_path : pystr) (files : list pystr)
    (pcd_files : dict pystr) : M (dict pystr) :=
  match files with
  | [] => ret pcd_files
  | file :: rest =>
      pcd_files <~ process_file root actual_path pcd_files file ;;
      process_files_from root actual_path rest pcd_files
  end.

Definition process_files (root actual_path : pystr) (files : list pystr)
    : M (dict pystr) :=
  process_files_from root actual_path files [].

(** [d.get(k, None)] when it is truthy: a non-empty [str]. *)
Definition get_truthy (d : dict pystr) (k : pystr) : option pystr :=
  match dict_get d k with
  | Some (c :: v) => Some (c :: v)
  | _ => None
  end.

(** [[x for x in os.listdir(d) if keep(x)]] *)
Definition listdir_if (d : pystr) (keep : World -> pystr -> bool)
    : M (list pystr) :=
  names <~ (r <~ ask (fun w => listdir w d) ;; lift r) ;;
  ask (fun w => filter (keep w) names).

Definition validate_velodyne_points (root actual_path : pystr)
    (files : list pystr) : M unit :=
  velodyne_files <~ process_files root actual_path files ;;
  let related_path := fst (path_split (fst (path_split root))) in
  dirs <~ listdir_if related_path
            (fun w path => isdir w (join related_path path)) ;;
  let path_list := map search_image dirs in
  for_ path_list (fun path_ =>
    match path_ with
    | None => ret tt
    | Some group =>
        let path := join group (str_of "data") in
        let path := abspath (join related_path path) in
        files <~ listdir_if path
                   (fun w file => isfile w (abspath (join path file))) ;;
        for_ files (fun file =>
          let f_name := hd [] (str_split file (str_of ".")) in
          match get_truthy velodyne_files f_name with
          | Some key => related_files_append key (abspath (join path file))
          | None => ret tt
          end)
    end).

Definition validate_pointcloud (root actual_path : pystr)
    (files : list pystr) : M unit :=
  pointcloud_files <~ process_files root actual_path files ;;
  let related_path := hd [] (str_split root (str_of "pointcloud")) in
  let related_images_path := join related_path (str_of "related_images") in
  is_dir <~ ask (fun w => isdir w related_images_path) ;;
  if is_dir : bool then
    paths <~ listdir_if related_images_path
               (fun w path => isdir w (abspath (join related_images_path path))) ;;
    for_ pointcloud_files (fun '(k, key) =>
      for_ paths (fun path =>
        if str_eqb k (hd [] (str_split path (str_of "_"))) then
          let file_path := abspath (join related_images_path path) in
          files <~ listdir_if file_path
                     (fun w file => isfile w (join file_path file)) ;;
          for_ files (fun related_image =>
            related_files_append key (join file_path related_image))
        else ret tt))
  else ret tt.

Definition validate_default (root actual_path : pystr)
    (files : list pystr) : M unit :=
  pcd_files <~ process_files root actual_path files ;;
  match pcd_files with
  | [] => ret tt
  | _ :: _ =>
      images <~ self_get image_files ;;
      _ <~ for_ images (fun '(image, image_path) =>
             match get_truthy pcd_files image with
             | Some key => related_files_append key image_path
             | None => ret tt
             end) ;;
      let current_directory_name := path_split root in
      match pcd_files with
      | [(only, _)] =>
          let pcd_name := hd [] (str_split only (str_of ".")) in
          if str_eqb (snd current_directory_name) pcd_name then
            images <~ self_get image_files ;;
            for_ (dict_values images) (fun related_image =>
              if str_eqb root (fst (path_split related_image)) then
                key <~ lift (dict_item pcd_files pcd_name) ;;
                related_files_append key related_image
              else ret tt)
          else ret tt
      | _ => ret tt
      end
  end.

(** The body of the loop of [validate] for one directory of the walk. *)
Definition validate_root (actual_path root : pystr) : M unit :=
  files <~ ask (fun w => walk_files w root) ;;
  if endswith root (str_of "data") then
    if str_eqb (snd (path_split (fst (path_split root))))
               (str_of "velodyne_points")
    then validate_velodyne_points root actual_path files
    else ret tt
  else if str_eqb (snd (path_split root)) (str_of "pointcloud") then
    validate_pointcloud root actual_path files
  else validate_default root actual_path files.

Definition validate : M unit :=
  self_path <~ self_get path ;;
  match self_path with
  | None | Some [] => ret tt
  | Some actual_path =>
      roots <~ ask (fun w => walk_roots w actual_path) ;;
      _ <~ for_ roots (validate_root actual_path) ;;
      related <~ self_get related_files ;;
      match dict_keys related with
      | [] => ret tt
      | _ :: _ =>
          self_set (fun self =>
            {| dimension := DIM_3D;
               path := path self;
               related_files := related_files self;
               image_files := image_files self;
               converted_files := converted_files self |})
      end
  end.

End Validate.

(* ===================================================================== *)
(** * Part II: properties *)
(* ===================================================================== *)

(** ** Lists, ranges and generators *)

Lemma insert_sorted_length x l :
  List.length (insert_sorted x l) = S (List.length l).
Proof.
  induction l as [|y t IH]; simpl; [reflexivity|].
  destruct (str_leb x y); simpl; [reflexivity|]. now rewrite IH.
Qed.

Lemma sorted_length l : List.length (sorted l) = List.length l.
Proof.
  induction l as [|x t IH]; simpl; [reflexivity|].
  now rewrite insert_sorted_length, IH.
Qed.

Lemma getitem_in_range {A} (l : list A) (i : Z) :
  - len l <= i < len l -> exists x, getitem l i = Ok x.
Proof.
  intros Hi. unfold getitem.
  set (j := if i <? 0 then i + len l else i).
  assert (Hj : 0 <= j < len l).
  { unfold j. destruct (Z.ltb_spec i 0); lia. }
  destruct (Z.ltb_spec j 0); [lia|].
  destruct (nth_error l (Z.to_nat j)) eqn:E; [eauto|].
  apply nth_error_None in E. unfold len in Hj. lia.
Qed.

(** The ceiling of [a / b] for a positive [b]. *)
Definition ceil_div (a b : Z) : Z := - ((- a) / b).

Lemma ceil_div_spec a b :
  0 < b -> b * (ceil_div a b - 1) < a <= b * ceil_div a b.
Proof.
  intros Hb. unfold ceil_div.
  pose proof (Z.div_mod (- a) b ltac:(lia)) as E.
  pose proof (Z.mod_pos_bound (- a) b Hb). nia.
Qed.

Lemma range_len_ceil start stop step :
  0 < step -> start < stop ->
  range_len start stop step = ceil_div (stop - start) step.
Proof.
  intros Hs Hlt. unfold range_len.
  destruct (Z.ltb_spec 0 step); [|lia].
  destruct (Z.ltb_spec start stop); [|lia].
  pose proof (ceil_div_spec (stop - start) step Hs) as C.
  pose proof (Z.div_mod (stop - start - 1) step ltac:(lia)) as E.
  pose proof (Z.mod_pos_bound (stop - start - 1) step Hs).
  nia.
Qed.

Lemma gen_for_ok {A B} (f : A -> result B) (g : A -> B) (l : list A) :
  (forall x, In x l -> f x = Ok (g x)) -> gen_for f l = (map g l, None).
Proof.
  induction l as [|x t IH]; intros Hf; simpl; [reflexivity|].
  rewrite (Hf x (or_introl eq_refl)), IH by (intros; apply Hf; now right).
  reflexivity.
Qed.

(** The arithmetic progression [start, start + step, ...] of [n] terms. *)
Definition progression (start step : Z) (n : nat) : list Z :=
  map (fun k => start + Z.of_nat k * step) (seq 0 n).

Lemma progression_in start step n i :
  In i (progression start step n) <->
  exists k : nat, (k < n)%nat /\ i = start + Z.of_nat k * step.
Proof.
  unfold progression. rewrite in_map_iff. split.
  - intros (k & <- & Hk). apply in_seq in Hk. exists k. split; [lia|reflexivity].
  - intros (k & Hk & ->). exists k. split; [reflexivity|]. apply in_seq. lia.
Qed.

Lemma progression_sorted start step n :
  0 < step -> StronglySorted Z.lt (progression start step n).
Proof.
  intros Hs. unfold progression.
  generalize 0%nat as a. induction n as [|n IH]; intros a; simpl.
  - constructor.
  - constructor; [apply IH|].
    apply Forall_forall. intros y Hy. apply in_map_iff in Hy.
    destruct Hy as (k & <- & Hk). apply in_seq in Hk. nia.
Qed.

Lemma sorted_lt_nodup l : StronglySorted Z.lt l -> NoDup l.
Proof.
  induction 1 as [|x l Hs IH Hall]; constructor; [|assumption].
  intros Hin. rewrite Forall_forall in Hall. specialize (Hall x Hin). lia.
Qed.

(** ** ImageListReader *)

(** The stop an ImageListReader works with, as the specification gives it. *)
Definition effective_stop (paths : list pystr) (stop : option Z) : Z :=
  match stop with
  | None => len paths
  | Some stop => Z.min (len paths) (stop + 1)
  end.

(** Reader [r] enumerates [start, start + step, ...] below [stop]:
    iteration ends normally, yields exactly these indices, in strictly
    increasing order and without repetition, and [len(r)] is
    [ceil((stop - start) / step)]. *)
Definition enumerates (r : IMediaReader) (start stop step : Z) : Prop :=
  let indices := yielded_indices (ImageListReader_iter r) in
  snd (ImageListReader_iter r) = None /\
  (forall i, In i indices <->
             exists k : nat, i = start + Z.of_nat k * step /\ i < stop) /\
  StronglySorted Z.lt indices /\
  NoDup indices /\
  IMediaReader_len r = Ok (ceil_div (stop - start) step).

Lemma ImageListReader_init_ok paths step start stop r :
  ImageListReader_init paths step start stop = Ok r ->
  paths <> [] /\ start < effective_stop paths stop /\
  r = IMediaReader_init paths (Z.max step 1) start
        (Some (effective_stop paths stop)).
Proof.
  unfold ImageListReader_init, effective_stop.
  destruct paths as [|p paths]; [discriminate|].
  set (e := match stop with None => _ | Some s => _ end).
  destruct (Z.ltb_spec start e); [|discriminate].
  intros [= <-]. repeat split; [discriminate|assumption].
Qed.

Lemma ImageListReader_iter_indices paths step start stop :
  0 < step -> - len paths <= start -> stop <= len paths ->
  ImageListReader_iter (IMediaReader_init paths step start (Some stop)) =
  (map (fun i =>
          let p := match getitem (sorted paths) i with Ok p => p | Raise _ => [] end in
          (p, p, i))
       (progression start step (Z.to_nat (range_len start stop step))), None).
Proof.
  intros Hstep Hstart Hstop.
  unfold ImageListReader_iter, frame_range, py_range. simpl.
  destruct (Z.eqb_spec step 0); [lia|].
  apply gen_for_ok. intros i Hi. fold (progression start step) in Hi.
  apply progression_in in Hi. destruct Hi as (k & Hk & ->).
  assert (Hr : start + Z.of_nat k * step < stop).
  { unfold range_len in Hk.
    destruct (Z.ltb_spec 0 step); [|lia].
    destruct (Z.ltb_spec start stop); [|simpl in Hk; lia].
    pose proof (Z.div_mod (stop - start - 1) step ltac:(lia)).
    pose proof (Z.mod_pos_bound (stop - start - 1) step Hstep).
    assert (Z.of_nat k <= (stop - start - 1) / step) by lia. nia. }
  unfold get_image, get_path. simpl.
  destruct (getitem_in_range (sorted paths) (start + Z.of_nat k * step)) as [x Hx].
  { unfold len. rewrite sorted_length. fold (len paths). nia. }
  now rewrite Hx.
Qed.

(** C1, as amended: an ImageListReader built from [paths] with parameters
    (step, start, stop), where [start] is an index of the list (not below
    [-len(paths)]), works with the stop [len(paths)] when [stop] is None and
    [min(len(paths), stop + 1)] otherwise and with the step [max(step, 1)];
    iteration yields exactly [start, start + step', ...] strictly below that
    stop, strictly increasing and without duplicates, and its length is
    [ceil((stop' - start) / step')]. *)
Theorem ImageListReader_enumerates_frame_range :
  forall (paths : list pystr) (step start : Z) (stop : option Z) (r : IMediaReader),
    ImageListReader_init paths step start stop = Ok r ->
    - len paths <= start ->
    _stop r = Some (effective_stop paths stop) /\
    _step r = Z.max step 1 /\
    enumerates r start (effective_stop paths stop) (Z.max step 1).
Proof.
  intros paths step start stop r Hinit Hstart.
  apply ImageListReader_init_ok in Hinit. destruct Hinit as (_ & Hlt & ->).
  set (e := effective_stop paths stop) in *.
  set (s := Z.max step 1).
  assert (Hs : 0 < s) by (unfold s; lia).
  assert (He : e <= len paths).
  { unfold e, effective_stop. destruct stop; lia. }
  split; [reflexivity|]. split; [reflexivity|].
  unfold enumerates.
  rewrite (ImageListReader_iter_indices paths s start e Hs Hstart He).
  unfold yielded_indices. cbn [fst snd]. rewrite map_map. cbn [snd].
  rewrite map_id.
  pose proof (range_len_ceil start e s Hs Hlt) as Hlen.
  pose proof (ceil_div_spec (e - start) s Hs) as Hc.
  repeat split.
  - intros Hi. apply progression_in in Hi. destruct Hi as (k & Hk & ->).
    exists k. split; [reflexivity|]. rewrite Hlen in Hk. nia.
  - intros (k & -> & Hk). apply progression_in. exists k.
    split; [|reflexivity]. rewrite Hlen. nia.
  - now apply progression_sorted.
  - apply sorted_lt_nodup. now apply progression_sorted.
  - unfold IMediaReader_len, frame_range, py_range. cbn [_stop _start _step IMediaReader_init].
    destruct (Z.eqb_spec s 0); [lia|]. cbn [bind]. f_equal.
    unfold len. rewrite length_map, length_seq. rewrite Hlen. lia.
Qed.

(** C1 holds at a concrete reader: three paths, step 2, from 0, stop 5. *)
Lemma ImageListReader_enumerates_frame_range_witness :
  exists r,
    ImageListReader_init (map str_of ["b"; "a"; "c"]%string) 2 0 (Some 5) = Ok r /\
    enumerates r 0 3 2.
Proof.
  eexists. split; [reflexivity|].
  apply (ImageListReader_enumerates_frame_range
           (map str_of ["b"; "a"; "c"]%string) 2 0 (Some 5)).
  - reflexivity.
  - vm_compute. discriminate.
Defined.

(** C1 as stated fails: with step 0 the reader steps by 1 and yields
    0, 1, 2, which are not of the form [0 + k * 0]; and with the start -5 on
    three paths iteration raises IndexError at its first index. *)
Lemma ImageListReader_raw_step_counterexample :
  (exists r,
     ImageListReader_init (map str_of ["a"; "b"; "c"]%string) 0 0 None = Ok r /\
     ~ enumerates r 0 (effective_stop (map str_of ["a"; "b"; "c"]%string) None) 0) /\
  (exists r,
     ImageListReader_init (map str_of ["a"; "b"; "c"]%string) 1 (-5) None = Ok r /\
     ImageListReader_iter r = ([], Some IndexError)).
Proof.
  split.
  - eexists. split; [reflexivity|].
    intros (_ & Hin & _).
    assert (H1 : In 1 [0; 1; 2]) by (simpl; auto).
    apply Hin in H1. destruct H1 as (k & Hk & _). lia.
  - eexists. split; reflexivity.
Qed.

(** ** VideoReader *)

Lemma gen_for_app {A B} (f : A -> result B) (l1 l2 : list A) :
  gen_for f (l1 ++ l2) =
  match gen_for f l1 with
  | (ys, Some e) => (ys, Some e)
  | (ys, None) => let '(zs, e) := gen_for f l2 in (ys ++ zs, e)
  end.
Proof.
  induction l1 as [|x t IH]; simpl.
  - now destruct (gen_for f l2).
  - destruct (f x) as [y|e]; [|reflexivity].
    rewrite IH. destruct (gen_for f t) as [ys [e|]]; simpl; [reflexivity|].
    now destruct (gen_for f l2).
Qed.

Lemma enumerate_app {A} (l1 l2 : list A) (n : Z) :
  enumerate n (l1 ++ l2) = enumerate n l1 ++ enumerate (n + len l1) l2.
Proof.
  revert n. induction l1 as [|x t IH]; intros n; simpl.
  - unfold len. simpl. now rewrite Z.add_0_r.
  - rewrite IH. do 3 f_equal. unfold len. simpl List.length. lia.
Qed.

Section VideoProperties.
Context `{Env}.


(** [_has_frame] as a test: it answered [True]. *)
Definition has_frame (r : IMediaReader) (i : Z) : bool :=
  match _has_frame r i with
  | Ok true => true
  | _ => false
  end.

(** The decoded frames at the positions [_has_frame] accepts, with their
    positions. *)
Definition selected_frames (r : IMediaReader) (c : Container)
    : list (Z * (Packet * VideoFrame)) :=
  filter (fun x => has_frame r (fst x)) (enumerate 0 (video_frames c)).

Lemma _has_frame_total r i :
  _step r <> 0 -> _has_frame r i = Ok (has_frame r i).
Proof.
  intros Hs. unfold has_frame, _has_frame.
  destruct (_start r <=? i); [|reflexivity].
  destruct (Z.eqb_spec (_step r) 0); [contradiction|].
  destruct ((i - _start r) mod _step r =? 0); [|reflexivity].
  destruct (_stop r) as [stop|]; [|reflexivity].
  now destruct (i <? stop).
Qed.


Definition yield_selected (r : IMediaReader) (c : Container)
    (x : Z * (Packet * VideoFrame)) : result yielded :=
  yield_frame r c (fst (snd x)) (snd (snd x)).

Lemma decode_images_spec r c pkt images n :
  _step r <> 0 ->
  snd (decode_images r c pkt images n) =
    gen_for (yield_selected r c)
      (filter (fun x => has_frame r (fst x))
              (enumerate n (map (fun image => (pkt, image)) images))) /\
  (snd (snd (decode_images r c pkt images n)) = None ->
   fst (decode_images r c pkt images n) = n + len images).
Proof.
  intros Hs. revert n. induction images as [|image rest IH]; intros n.
  - simpl. split; [reflexivity|]. intros _. unfold len. simpl. lia.
  - cbn [decode_images map enumerate filter fst].
    replace (n + 1 - 1) with n by lia.
    rewrite (_has_frame_total r n Hs).
    destruct (IH (n + 1)) as [IH1 IH2].
    assert (Hl : n + len (image :: rest) = n + 1 + len rest).
    { unfold len. simpl List.length. lia. }
    destruct (has_frame r n).
    + cbn [gen_for]. unfold yield_selected at 1. cbn [fst snd].
      destruct (yield_frame r c pkt image) as [y|e].
      * destruct (decode_images r c pkt rest (n + 1)) as [n' g] eqn:E.
        cbn [fst snd] in *. rewrite <- IH1. split; [reflexivity|].
        unfold gen_cons. cbn [snd]. rewrite Hl. exact IH2.
      * cbn [fst snd]. split; [reflexivity|discriminate].
    + rewrite Hl. split; [exact IH1|exact IH2].
Qed.

Lemma decode_packets_spec r c packets n :
  _step r <> 0 ->
  decode_packets r c packets n =
    gen_for (yield_selected r c)
      (filter (fun x => has_frame r (fst x))
         (enumerate n
            (flat_map (fun packet =>
                         if str_eqb (stream_type (stream packet)) (str_of "video")
                         then map (fun image => (packet, image)) (decode packet)
                         else [])
                      packets))).
Proof.
  intros Hs. revert n. induction packets as [|packet rest IH]; intros n.
  - reflexivity.
  - cbn [decode_packets flat_map].
    destruct (str_eqb (stream_type (stream packet)) (str_of "video")).
    + rewrite enumerate_app, filter_app, gen_for_app.
      destruct (decode_images_spec r c packet (decode packet) n Hs) as [S1 S2].
      destruct (decode_images r c packet (decode packet) n) as [n' [ys e]].
      cbn [fst snd] in *. rewrite <- S1.
      destruct e as [e|]; [reflexivity|].
      rewrite (S2 eq_refl), IH.
      unfold len. now rewrite length_map.
    + simpl app. apply IH.
Qed.

(** The generator [_decode] returns yields, in decode order, what
    [yield_frame] gives for the frames at the positions [_has_frame]
    accepts, and nothing else. *)
Lemma _decode_spec r c :
  _step r <> 0 ->
  _decode r c = gen_for (yield_selected r c) (selected_frames r c).
Proof. intros Hs. apply decode_packets_spec, Hs. Qed.


(** The frame [image] turned by [degrees], with its pts kept. *)
Definition rotated (image : VideoFrame) (degrees : Z) : VideoFrame :=
  {| to_ndarray := rotate_image (to_ndarray image) degrees;
     pts := pts image;
     time_base := None |}.

Lemma yield_frame_rotated r c pkt image s degrees p :
  dict_get (metadata (stream pkt)) (str_of "rotate") = Some s ->
  s <> [] ->
  container_rotate c = Ok degrees ->
  getitem (_source_path r) 0 = Ok p ->
  yield_frame r c pkt image =
    Ok (rotated image (360 - degrees), p, pts image).
Proof.
  intros Hm Hne Hc Hp. unfold yield_frame, upright, declares_rotate.
  rewrite Hm. destruct s as [|ch s]; [contradiction|].
  rewrite Hc. cbn [bind]. rewrite Hp. reflexivity.
Qed.

Lemma video_frames_in c pkt image :
  In (pkt, image) (video_frames c) ->
  In pkt (demux c) /\
  str_eqb (stream_type (stream pkt)) (str_of "video") = true.
Proof.
  unfold video_frames. rewrite in_flat_map. intros (packet & Hin & Hx).
  destruct (str_eqb (stream_type (stream packet)) (str_of "video")) eqn:E;
    [|contradiction].
  apply in_map_iff in Hx. destruct Hx as (im & [= <- <-] & _). auto.
Qed.

Lemma enumerate_in {A} (l : list A) n i x :
  In (i, x) (enumerate n l) -> In x l.
Proof.
  revert n. induction l as [|y t IH]; intros n; simpl; [auto|].
  intros [[= _ ->]|Hin]; [now left|right; eauto].
Qed.

(** X23: on a container whose video packets all belong to its first video
    stream, when that stream declares a rotation [s] that reads as
    [degrees], every frame the VideoReader yields is the decoded frame
    turned by [360 - degrees], carrying the pts of the decoded frame, which
    is also the pts yielded with it. *)
Theorem VideoReader_rotation_correction :
  forall (r : IMediaReader) (c : Container) (v0 : Stream) (s : pystr)
         (degrees : Z) (p : pystr),
    _step r <> 0 ->
    getitem (_source_path r) 0 = Ok p ->
    getitem (streams_video c) 0 = Ok v0 ->
    dict_get (metadata v0) (str_of "rotate") = Some s ->
    s <> [] ->
    py_int s = Ok degrees ->
    (forall pkt, In pkt (demux c) ->
                 str_eqb (stream_type (stream pkt)) (str_of "video") = true ->
                 stream pkt = v0) ->
    VideoReader_iter r c =
      (map (fun x => (rotated (snd (snd x)) (360 - degrees), p,
                      pts (snd (snd x))))
           (selected_frames r c),
       None).
Proof.
  intros r c v0 s degrees p Hs Hp Hv Hm Hne Hint Hpk.
  unfold VideoReader_iter. rewrite Hv, (_decode_spec r c Hs).
  apply gen_for_ok. intros [i [pkt image]] Hin.
  unfold selected_frames in Hin. apply filter_In in Hin. destruct Hin as [Hin _].
  apply enumerate_in, video_frames_in in Hin. destruct Hin as [Hd Hvid].
  unfold yield_selected. cbn [fst snd].
  apply (yield_frame_rotated r c pkt image s); try assumption.
  - now rewrite (Hpk pkt Hd Hvid).
  - unfold container_rotate. rewrite Hv. cbn [bind]. now rewrite Hm.
Qed.

End VideoProperties.

(** ** Chunk writers: quality *)

Lemma forallb_range (P : Z -> bool) (lo : Z) (n : nat) :
  forallb P (map (fun k => lo + Z.of_nat k) (seq 0 n)) = true ->
  forall q, lo <= q < lo + Z.of_nat n -> P q = true.
Proof.
  intros Hall q Hq. rewrite forallb_forall in Hall. apply Hall.
  apply in_map_iff. exists (Z.to_nat (q - lo)). split; [lia|].
  apply in_seq. lia.
Qed.

(** The encoder quality a compressed video writer built with public
    quality [q] ends with; -1 when the constructor raises. *)
Definition encoder_quality (q : Z) : Z :=
  match Mpeg4CompressedChunkWriter_init q with
  | Ok self => _image_quality self
  | Raise _ => -1
  end.

(** What C4 asks of one public quality [q], as a test. *)
Definition quality_mapped (q : Z) : bool :=
  match Mpeg4CompressedChunkWriter_init q with
  | Ok self =>
      (_image_quality self =? round_half_even (51 * (100 - q)) 99)
      && (2 * Z.abs (99 * _image_quality self - 51 * (100 - q)) <? 99)
      && forallb (fun q' => (q' <? q) || (encoder_quality q' <=? _image_quality self))
                 (map (fun k => 1 + Z.of_nat k) (seq 0 100))
  | Raise _ => false
  end.

Lemma quality_mapped_all :
  forallb quality_mapped (map (fun k => 1 + Z.of_nat k) (seq 0 100)) = true.
Proof. vm_compute. reflexivity. Qed.

(** C4: for every public quality [q] in 1..100 the compressed video writer
    is built with encoder quality [round(51 * (100 - q) / 99)], the integer
    nearest to that quotient, which it passes as both qmin and qmax; 100
    maps to 0, 1 maps to 51, and a larger [q] never gives a larger encoder
    quality. *)
Theorem Mpeg4CompressedChunkWriter_quality_mapping :
  forall q : Z,
    1 <= q <= 100 ->
    exists self,
      Mpeg4CompressedChunkWriter_init q = Ok self /\
      _image_quality self = round_half_even (51 * (100 - q)) 99 /\
      2 * Z.abs (99 * _image_quality self - 51 * (100 - q)) < 99 /\
      dict_get (encoder_options self) (str_of "qmin")
        = Some (str_of_int (_image_quality self)) /\
      dict_get (encoder_options self) (str_of "qmax")
        = Some (str_of_int (_image_quality self)) /\
      (q = 100 -> _image_quality self = 0) /\
      (q = 1 -> _image_quality self = 51) /\
      (forall q', q <= q' <= 100 -> encoder_quality q' <= _image_quality self).
Proof.
  intros q Hq.
  pose proof (forallb_range quality_mapped 1 100 quality_mapped_all q ltac:(lia)) as Hm.
  unfold quality_mapped in Hm.
  destruct (Mpeg4CompressedChunkWriter_init q) as [self|e] eqn:E; [|discriminate].
  apply andb_prop in Hm. destruct Hm as [Hm Hmono].
  apply andb_prop in Hm. destruct Hm as [Hr Hd].
  apply Z.eqb_eq in Hr. apply Z.ltb_lt in Hd.
  exists self. repeat split; try assumption.
  - intros ->. rewrite Hr. reflexivity.
  - intros ->. rewrite Hr. reflexivity.
  - intros q' Hq'.
    pose proof (forallb_range _ 1 100 Hmono q' ltac:(lia)) as Hq2.
    apply orb_prop in Hq2. destruct Hq2 as [Hlt|Hle].
    + apply Z.ltb_lt in Hlt. lia.
    + now apply Z.leb_le in Hle.
Qed.

(** C4 at the public quality 50: the encoder quality is 26. *)
Lemma Mpeg4CompressedChunkWriter_quality_mapping_witness :
  exists self,
    Mpeg4CompressedChunkWriter_init 50 = Ok self /\ _image_quality self = 26.
Proof.
  destruct (Mpeg4CompressedChunkWriter_quality_mapping 50 ltac:(lia))
    as (self & Hinit & Hq & _).
  exists self. split; [exact Hinit|]. rewrite Hq. reflexivity.
Defined.

(** C10: whatever is passed to the constructor of Mpeg4ChunkWriter, the
    writer holds quality 17, its encoder options have qmin = qmax = "17",
    these are the options of the stream [save_as_chunk] configures, and
    [save_as_chunk] does the same for any two constructor arguments. *)
Theorem Mpeg4ChunkWriter_quality_is_17 :
  forall `{Env} (A T : Type) (q q' : A) (images : list (Image * pystr * T))
         (chunk_path : pystr),
    _image_quality (Mpeg4ChunkWriter_init q) = 17 /\
    dict_get (encoder_options (Mpeg4ChunkWriter_init q)) (str_of "qmin")
      = Some (str_of "17") /\
    dict_get (encoder_options (Mpeg4ChunkWriter_init q)) (str_of "qmax")
      = Some (str_of "17") /\
    (forall container sizes,
        Mpeg4ChunkWriter_save_as_chunk (Mpeg4ChunkWriter_init q) images chunk_path
          = Ok (container, sizes) ->
        options (video_stream container)
          = encoder_options (Mpeg4ChunkWriter_init q)) /\
    Mpeg4ChunkWriter_save_as_chunk (Mpeg4ChunkWriter_init q) images chunk_path
      = Mpeg4ChunkWriter_save_as_chunk (Mpeg4ChunkWriter_init q') images chunk_path.
Proof.
  intros E A T q q' images chunk_path.
  repeat split.
  intros container sizes Hs.
  unfold Mpeg4ChunkWriter_save_as_chunk in Hs.
  destruct images as [|[[first p] t] rest]; [discriminate|].
  destruct (frame_size first) as [[w h]|e]; [|discriminate].
  cbn [bind attr Mpeg4ChunkWriter_init _output_fps] in Hs.
  unfold _encode_images in Hs.
  match type of Hs with
  | context [for_each ?f ?l] => destruct (for_each f l) as [frames|e]
  end; [|discriminate].
  cbn [bind] in Hs. injection Hs as <- _. reflexivity.
Qed.

(** ** Chunk writers: downscaling *)

(** The loop ends with [factor * 2^k] for the least [k] that brings the
    height below 1080. *)
Lemma downscale_factor_spec (input_h : Z) (factor : positive) :
  exists k : nat,
    Z.pos (downscale_factor input_h factor) = Z.pos factor * 2 ^ Z.of_nat k /\
    input_h < 1080 * (Z.pos factor * 2 ^ Z.of_nat k) /\
    (forall j : nat, (j < k)%nat ->
                     1080 * (Z.pos factor * 2 ^ Z.of_nat j) <= input_h).
Proof.
  funelim (downscale_factor input_h factor).
  - destruct H as (k & Hk & Hlt & Hmin).
    exists (S k). rewrite Nat2Z.inj_succ, Z.pow_succ_r by lia.
    rewrite Hk. repeat split.
    + rewrite Pos2Z.inj_mul. ring.
    + rewrite Pos2Z.inj_mul in Hlt. lia.
    + intros [|j] Hj.
      * simpl. lia.
      * specialize (Hmin j ltac:(lia)).
        rewrite Nat2Z.inj_succ, Z.pow_succ_r by lia.
        rewrite Pos2Z.inj_mul in Hmin. lia.
  - exists 0%nat. simpl. repeat split; try lia.
Qed.

Lemma for_each_Forall2 {A B} (f : A -> result B) (l : list A) (ys : list B) :
  for_each f l = Ok ys -> Forall2 (fun x y => f x = Ok y) l ys.
Proof.
  revert ys. induction l as [|x t IH]; intros ys; simpl.
  - intros [= <-]. constructor.
  - destruct (f x) as [y|e] eqn:E; [|discriminate]. cbn [bind].
    destruct (for_each f t) as [zs|e]; [|discriminate]. cbn [bind].
    intros [= <-]. constructor; [assumption|now apply IH].
Qed.

Lemma for_each_ok {A B} (f : A -> result B) (g : A -> B) (l : list A) :
  (forall x, In x l -> f x = Ok (g x)) -> for_each f l = Ok (map g l).
Proof.
  induction l as [|x t IH]; intros Hf; simpl; [reflexivity|].
  rewrite (Hf x (or_introl eq_refl)), IH by (intros; apply Hf; now right).
  reflexivity.
Qed.


Section WriterProperties.
Context `{Env}.
Context {T : Type}.

(** [n] rounded up to an even number, as [_create_av_container] does. *)
Definition round_up_even (n : Z) : Z := if n mod 2 =? 0 then n else n + 1.

Definition is_frame (item : Image * pystr * T) : bool :=
  match item with
  | (FrameImage _, _, _) => true
  | _ => false
  end.

Lemma _encode_images_frames (images : list (Image * pystr * T)) container :
  forallb is_frame images = true ->
  exists frames,
    _encode_images images container =
      Ok {| container_path := container_path container;
            container_format := container_format container;
            video_stream := video_stream container;
            muxed := muxed container ++ frames |} /\
    List.length frames = List.length images.
Proof.
  intros Hall. unfold _encode_images.
  match goal with
  | |- context [for_each ?f images] =>
      assert (Hf : exists frames, for_each f images = Ok frames /\
                                  List.length frames = List.length images)
  end.
  { induction images as [|[[image p] t] rest IH]; [exists []; now split|].
    simpl in Hall. apply andb_prop in Hall. destruct Hall as [Hi Hrest].
    destruct (IH Hrest) as (frames & Hfr & Hlen).
    destruct image as [f| |]; try discriminate.
    eexists. cbn [for_each bind]. rewrite Hfr. cbn [bind].
    split; [reflexivity|]. simpl. now rewrite Hlen. }
  destruct Hf as (frames & Hfr & Hlen). rewrite Hfr. cbn [bind].
  exists frames. now split.
Qed.

(** C5, as amended: for a first frame of size (W, H) the loop ends with the
    factor [2^k] for the least [k] with [H / 2^k < 1080] ([k = 0] when
    [H < 1080]); the writer asks for a stream of [W // 2^k] by [H // 2^k],
    and the stream gets each of the two rounded up to an even number. *)
Theorem Mpeg4CompressedChunkWriter_downscale :
  forall (self : ChunkWriter) (f : VideoFrame) (p : pystr) (t : T)
         (rest : list (Image * pystr * T)) (chunk_path : pystr) (fps : Z),
    _output_fps self = Some fps ->
    forallb is_frame rest = true ->
    exists (k : nat) (container : OutputContainer),
      Z.pos (downscale_factor (height f) 1) = 2 ^ Z.of_nat k /\
      height f < 1080 * 2 ^ Z.of_nat k /\
      (forall j : nat, (j < k)%nat -> 1080 * 2 ^ Z.of_nat j <= height f) /\
      (height f < 1080 -> k = 0%nat) /\
      Mpeg4CompressedChunkWriter_save_as_chunk self
          ((FrameImage f, p, t) :: rest) chunk_path
        = Ok (container, [(width f, height f)]) /\
      stream_width (video_stream container)
        = round_up_even (width f / 2 ^ Z.of_nat k) /\
      stream_height (video_stream container)
        = round_up_even (height f / 2 ^ Z.of_nat k).
Proof.
  intros self f p t rest chunk_path fps Hfps Hrest.
  destruct (downscale_factor_spec (height f) 1) as (k & Hk & Hlt & Hmin).
  assert (E : forall n, Z.pos 1 * n = n) by (intros; lia).
  rewrite E in Hk, Hlt.
  assert (Hall : forallb is_frame ((FrameImage f, p, t) :: rest) = true)
    by exact Hrest.
  destruct (_encode_images_frames ((FrameImage f, p, t) :: rest)
              (_create_av_container chunk_path
                 (width f / 2 ^ Z.of_nat k) (height f / 2 ^ Z.of_nat k) fps
                 (encoder_options self) (str_of "mp4")) Hall)
    as (frames & Henc & _).
  exists k. eexists. repeat split.
  - exact Hk.
  - exact Hlt.
  - intros j Hj. specialize (Hmin j Hj). now rewrite E in Hmin.
  - intros Hsmall. destruct k as [|k]; [reflexivity|].
    specialize (Hmin 0%nat ltac:(lia)). simpl in Hmin. lia.
  - unfold Mpeg4CompressedChunkWriter_save_as_chunk.
    cbn [frame_size bind]. rewrite Hfps. cbn [attr bind].
    rewrite Hk, Henc. cbn [bind]. reflexivity.
  - reflexivity.
  - reflexivity.
Qed.



(** C8: on an empty list of frames both video writers raise
    [Exception('no images to save')], and both archive writers, creating
    a destination that does not exist yet, return an archive without
    members and an empty size list. *)
Theorem save_as_chunk_no_frames :
  forall (self : ChunkWriter) (chunk_path : pystr),
    path_exists chunk_path = false ->
    Mpeg4ChunkWriter_save_as_chunk self (@nil (Image * pystr * T)) chunk_path
      = Raise (Exception "no images to save") /\
    Mpeg4CompressedChunkWriter_save_as_chunk self
        (@nil (Image * pystr * T)) chunk_path
      = Raise (Exception "no images to save") /\
    ZipChunkWriter_save_as_chunk self (@nil (Image * pystr * T)) chunk_path
      = Ok ([], []) /\
    ZipCompressedChunkWriter_save_as_chunk self
        (@nil (Image * pystr * T)) chunk_path
      = Ok ([], []).
Proof.
  intros self chunk_path Hnew. repeat split.
  - unfold ZipChunkWriter_save_as_chunk, ZipFile_x. now rewrite Hnew.
  - unfold ZipCompressedChunkWriter_save_as_chunk, ZipFile_x. now rewrite Hnew.
Qed.

End WriterProperties.

(** ** Point-cloud headers *)

Lemma split_once_no_sep (t : pystr) (sep : N) :
  ~ In sep t -> split_once t sep = [t].
Proof.
  induction t as [|c t IH]; intros Hn; simpl; [reflexivity|].
  destruct (N.eqb_spec c sep) as [->|Hc]; [exfalso; apply Hn; now left|].
  rewrite IH; [reflexivity|]. intros Hin. apply Hn. now right.
Qed.

Lemma split_once_first (t k v : pystr) (sep : N) :
  split_once t sep = [k; v] -> t = k ++ sep :: v /\ ~ In sep k.
Proof.
  revert k. induction t as [|c t IH]; intros k; simpl; [discriminate|].
  destruct (N.eqb_spec c sep) as [->|Hc].
  - intros [= <- <-]. split; [reflexivity|intros []].
  - destruct (split_once t sep) as [|a [|b [|x rest]]] eqn:E; try discriminate.
    intros [= <- <-]. destruct (IH a eq_refl) as [-> Hn].
    split; [reflexivity|]. intros [Hin|Hin]; [now apply Hc|now apply Hn].
Qed.

(** A line after which the loop of [get_pcd_properties] goes on: bytes that
    decode to a comment, or to a line with a space and without DATA. *)
Definition continues (line : pyline) : bool :=
  match line with
  | StrLine _ => false
  | BytesLine b =>
      match utf8_decode b with
      | None => false
      | Some t =>
          startswith t (str_of "#")
          || match split_once t 32 with
             | [_; _] => negb (contains t (str_of "DATA"))
             | _ => false
             end
      end
  end.

(** The dictionary after the lines [pre], all of which the loop goes past,
    starting from [kv]: each line that is not a comment sets the key before
    its first space to the stripped text after it. *)
Fixpoint entries (pre : list pyline) (kv : dict pystr) : dict pystr :=
  match pre with
  | [] => kv
  | BytesLine b :: rest =>
      match utf8_decode b with
      | Some t =>
          if startswith t (str_of "#") then entries rest kv
          else match split_once t 32 with
               | [k; v] => entries rest (dict_set kv k (strip v))
               | _ => entries rest kv
               end
      | None => entries rest kv
      end
  | StrLine _ :: rest => entries rest kv
  end.

Lemma read_header_continues (pre rest : list pyline) (kv : dict pystr) :
  forallb continues pre = true ->
  read_header (pre ++ rest) kv = read_header rest (entries pre kv).
Proof.
  revert kv. induction pre as [|line pre IH]; intros kv Hall; [reflexivity|].
  simpl in Hall. apply andb_prop in Hall. destruct Hall as [Hl Hpre].
  destruct line as [b|s]; [|discriminate]. simpl in *.
  destruct (utf8_decode b) as [t|]; [|discriminate]. cbn [bind].
  destruct (startswith t (str_of "#")); [now apply IH|].
  simpl in Hl.
  destruct (split_once t 32) as [|k [|v [|x l]]]; try discriminate.
  destruct (contains t (str_of "DATA")); [discriminate|]. now apply IH.
Qed.

(** What [get_pcd_properties] does at the first line that is not a comment
    or a key and a value without DATA: it gives None for a line that has no
    [decode] (a [str]); bytes that are not UTF-8 raise UnicodeDecodeError
    and a line without a space raises ValueError to the caller; a line with
    DATA ends the reading, and what follows it is not looked at. *)
Theorem get_pcd_properties_outcomes :
  forall (pre rest : list pyline) (verify_version : bool),
    forallb continues pre = true ->
    (forall s,
        get_pcd_properties (pre ++ StrLine s :: rest) verify_version
          = Ok PcdNone) /\
    (forall b,
        utf8_decode b = None ->
        get_pcd_properties (pre ++ BytesLine b :: rest) verify_version
          = Raise UnicodeDecodeError) /\
    (forall b t,
        utf8_decode b = Some t ->
        startswith t (str_of "#") = false ->
        ~ In 32%N t ->
        get_pcd_properties (pre ++ BytesLine b :: rest) verify_version
          = Raise ValueError) /\
    (forall b t k v,
        utf8_decode b = Some t ->
        startswith t (str_of "#") = false ->
        split_once t 32 = [k; v] ->
        contains t (str_of "DATA") = true ->
        t = k ++ 32%N :: v /\ ~ In 32%N k /\
        get_pcd_properties (pre ++ BytesLine b :: rest) false
          = Ok (Properties (dict_set (entries pre []) k (strip v)))) /\
    get_pcd_properties pre false = Ok (Properties (entries pre [])).
Proof.
  intros pre rest verify_version Hpre.
  unfold get_pcd_properties. split; [|split; [|split; [|split]]].
  - intros s. rewrite (read_header_continues pre _ [] Hpre). reflexivity.
  - intros b Hb. rewrite (read_header_continues pre _ [] Hpre).
    simpl. rewrite Hb. reflexivity.
  - intros b t Hb Hc Hsp. rewrite (read_header_continues pre _ [] Hpre).
    simpl. rewrite Hb. cbn [bind]. rewrite Hc.
    rewrite (split_once_no_sep t 32 Hsp). reflexivity.
  - intros b t k v Hb Hc Hsp Hd.
    destruct (split_once_first t k v 32 Hsp) as [Ht Hk].
    split; [exact Ht|]. split; [exact Hk|].
    rewrite (read_header_continues pre _ [] Hpre).
    simpl. rewrite Hb. cbn [bind]. rewrite Hc, Hsp, Hd. reflexivity.
  - rewrite <- (app_nil_r pre) at 1.
    rewrite (read_header_continues pre [] [] Hpre). reflexivity.
Qed.

(** A header of two lines followed by a [str] line. *)
Lemma get_pcd_properties_outcomes_witness :
  get_pcd_properties
    [BytesLine (bytes_of "# .PCD v0.7"); BytesLine (bytes_of "VERSION 0.7");
     StrLine (str_of "WIDTH 3")] true = Ok PcdNone.
Proof.
  apply (get_pcd_properties_outcomes
           [BytesLine (bytes_of "# .PCD v0.7"); BytesLine (bytes_of "VERSION 0.7")]
           [] true).
  reflexivity.
Defined.

(** ** ValidateDimension *)

Section ValidateProperties.
Context `{OS}.

Lemma dict_set_nonempty {V} (d : dict V) (k : pystr) (v : V) :
  dict_set d k v <> [].
Proof.
  destruct d as [|[k' v'] t]; simpl; [discriminate|].
  destruct (str_eqb k' k); discriminate.
Qed.

(** A method that leaves [self.dimension] as it found it and does not
    empty [self.related_files]. *)
Definition steady {A} (m : M A) : Prop :=
  forall s a s',
    m s = Ok (a, s') ->
    dimension (snd s') = dimension (snd s) /\
    (related_files (snd s) <> [] -> related_files (snd s') <> []).

Lemma steady_ret {A} (a : A) : steady (ret a).
Proof. intros s a' s' [= _ <-]. now split. Qed.

Lemma steady_mbind {A B} (m : M A) (k : A -> M B) :
  steady m -> (forall a, steady (k a)) -> steady (mbind m k).
Proof.
  intros Hm Hk s b s'. unfold mbind.
  destruct (m s) as [[a s1]|e] eqn:E; [|discriminate].
  intros Hb. destruct (Hk a s1 b s' Hb) as [D2 R2].
  destruct (Hm s a s1 E) as [D1 R1].
  split; [congruence|auto].
Qed.

Lemma steady_lift {A} (r : result A) : steady (lift r).
Proof.
  intros s a s'. unfold lift. destruct r; [|discriminate].
  intros [= _ <-]. now split.
Qed.

Lemma steady_ask {A} (f : World -> A) : steady (ask f).
Proof. intros s a s' [= _ <-]. now split. Qed.

Lemma steady_change (f : World -> result World) : steady (change f).
Proof.
  intros s a s'. unfold change. destruct (f (fst s)); [|discriminate].
  intros [= _ <-]. now split.
Qed.

Lemma steady_self_get {A} (f : ValidateDimension -> A) : steady (self_get f).
Proof. intros s a s' [= _ <-]. now split. Qed.

Lemma steady_self_set (f : ValidateDimension -> ValidateDimension) :
  (forall self, dimension (f self) = dimension self) ->
  (forall self, related_files self <> [] -> related_files (f self) <> []) ->
  steady (self_set f).
Proof. intros Hd Hr s a s' [= _ <-]. split; [apply Hd|apply Hr]. Qed.

Lemma steady_for_ {A} (l : list A) (body : A -> M unit) :
  (forall x, steady (body x)) -> steady (for_ l body).
Proof.
  intros Hb. induction l as [|x t IH]; simpl.
  - apply steady_ret.
  - apply steady_mbind; [apply Hb|intros _; exact IH].
Qed.

Create HintDb steady.

#[local] Hint Resolve steady_ret steady_lift steady_ask steady_change
  steady_self_get : steady.

(** Takes a method apart along its binds, loops and case distinctions. *)
Ltac steady :=
  repeat first
    [ solve [auto with steady]
    | progress cbv beta zeta
    | apply steady_mbind; [|intros ?]
    | apply steady_for_; intros ?
    | match goal with
      | |- steady (match ?x with _ => _ end) => destruct x
      | |- steady (let '(_, _) := ?x in _) => destruct x
      end ].

Lemma steady_set_related_files key value :
  steady (set_related_files key value).
Proof.
  apply steady_self_set; intros self; [reflexivity|].
  intros _. apply dict_set_nonempty.
Qed.

Lemma steady_set_image_files key value :
  steady (set_image_files key value).
Proof. apply steady_self_set; intros self; [reflexivity|exact id]. Qed.

Lemma steady_converted_files_append x :
  steady (converted_files_append x).
Proof. apply steady_self_set; intros self; [reflexivity|exact id]. Qed.

#[local] Hint Resolve steady_set_related_files steady_set_image_files
  steady_converted_files_append : steady.

Lemma steady_related_files_append key x :
  steady (related_files_append key x).
Proof. unfold related_files_append. steady. Qed.

Lemma steady_convert_bin_to_pcd p d : steady (convert_bin_to_pcd p d).
Proof. unfold convert_bin_to_pcd. steady. Qed.

#[local] Hint Resolve steady_related_files_append steady_convert_bin_to_pcd
  : steady.

Lemma steady_bin_operation file_path actual_path :
  steady (bin_operation file_path actual_path).
Proof. unfold bin_operation. steady. Qed.

Lemma steady_pcd_operation file_path actual_path :
  steady (pcd_operation file_path actual_path).
Proof. unfold pcd_operation. steady. Qed.

#[local] Hint Resolve steady_bin_operation steady_pcd_operation : steady.

Lemma steady_process_files root actual_path files :
  steady (process_files root actual_path files).
Proof.
  unfold process_files. generalize (@nil (pystr * pystr)).
  induction files as [|file rest IH]; intros pcd_files; simpl.
  - apply steady_ret.
  - apply steady_mbind; [|intros ?; apply IH].
    unfold process_file. steady.
Qed.

Lemma steady_listdir_if d keep : steady (listdir_if d keep).
Proof. unfold listdir_if. steady. Qed.

#[local] Hint Resolve steady_process_files steady_listdir_if : steady.

Lemma steady_validate_velodyne_points root actual_path files :
  steady (validate_velodyne_points root actual_path files).
Proof. unfold validate_velodyne_points. steady. Qed.

Lemma steady_validate_pointcloud root actual_path files :
  steady (validate_pointcloud root actual_path files).
Proof. unfold validate_pointcloud. steady. Qed.

Lemma steady_validate_default root actual_path files :
  steady (validate_default root actual_path files).
Proof. unfold validate_default. steady. Qed.

#[local] Hint Resolve steady_validate_velodyne_points
  steady_validate_pointcloud steady_validate_default : steady.

Lemma steady_validate_root actual_path root :
  steady (validate_root actual_path root).
Proof. unfold validate_root. steady. Qed.

(** C9: on an object whose dimension is 3D exactly when [related_files] is
    not empty, as it is after [__init__] (2D, nothing associated) and after
    every completed [validate], a [validate] that completes leaves the
    dimension 3D exactly when [related_files] is not empty, and 2D
    otherwise. *)
Theorem validate_dimension_3D_iff_related_files :
  forall (w w' : World) (self self' : ValidateDimension),
    (dimension self = DIM_3D <-> related_files self <> []) ->
    validate (w, self) = Ok (tt, (w', self')) ->
    (dimension self' = DIM_3D <-> related_files self' <> []) /\
    (related_files self' = [] -> dimension self' = DIM_2D).
Proof.
  intros w w' self self' Hinv Hv.
  assert (Hiff : dimension self' = DIM_3D <-> related_files self' <> []).
  { revert Hv. unfold validate, mbind at 1, self_get at 1. cbn [fst snd].
    destruct (path self) as [[|c actual_path]|].
    - now intros [= <- <-].
    - unfold mbind, ask. cbn [fst snd].
      destruct (for_ _ _ (w, self)) as [[[] [w1 self1]]|e] eqn:E; [|discriminate].
      apply (steady_for_ _ _ (steady_validate_root (c :: actual_path))) in E.
      cbn [fst snd] in E. destruct E as [Hd Hr]. unfold self_get. cbn [fst snd].
      destruct (related_files self1) as [|[key value] related] eqn:R;
        cbn [dict_keys map].
      + intros [= <- <-]. rewrite R, Hd. split; [|congruence].
        intros H3. apply Hinv in H3. now apply Hr in H3.
      + unfold self_set. intros [= <- <-]. cbn [dimension related_files fst snd].
        rewrite R. split; [discriminate|reflexivity].
    - now intros [= <- <-]. }
  split; [exact Hiff|].
  intros Hempty. destruct (dimension self') eqn:D; [reflexivity|].
  exfalso. now apply (proj1 Hiff).
Qed.

(** The object [__init__] builds has the property C9 starts from. *)
Lemma ValidateDimension_init_2D (p : option pystr) :
  dimension (ValidateDimension_init p) = DIM_3D <->
  related_files (ValidateDimension_init p) <> [].
Proof. simpl. split; [discriminate|congruence]. Qed.

End ValidateProperties.

(* ===================================================================== *)
(** * Part II, continued: the rest of the module *)
(* ===================================================================== *)

(** ** Strings and sorting *)

Lemma str_eqb_eq (a b : pystr) : str_eqb a b = true <-> a = b.
Proof.
  revert b. induction a as [|x a IH]; intros [|y b]; simpl;
    try (split; [discriminate|discriminate]); [tauto|].
  rewrite andb_true_iff, N.eqb_eq, IH. split.
  - now intros [-> ->].
  - now intros [= -> ->].
Qed.

Lemma str_eqb_refl (a : pystr) : str_eqb a a = true.
Proof. now apply str_eqb_eq. Qed.

Lemma str_eqb_neq (a b : pystr) : str_eqb a b = false <-> a <> b.
Proof.
  rewrite <- str_eqb_eq. destruct (str_eqb a b); split; congruence.
Qed.

(** [a <= b] on [str]. *)
Definition str_le (a b : pystr) : Prop := str_leb a b = true.

Lemma str_leb_total (a b : pystr) : str_leb a b = false -> str_leb b a = true.
Proof.
  revert b. induction a as [|x a IH]; intros [|y b]; simpl; try discriminate;
    try reflexivity.
  destruct (N.ltb_spec x y); [discriminate|].
  destruct (N.eqb_spec x y) as [->|Hne].
  - rewrite N.ltb_irrefl, N.eqb_refl. apply IH.
  - intros _. destruct (N.ltb_spec y x); [reflexivity|lia].
Qed.

Lemma str_leb_trans (a b c : pystr) :
  str_le a b -> str_le b c -> str_le a c.
Proof.
  unfold str_le. revert b c.
  induction a as [|x a IH]; intros [|y b] [|z c]; simpl; try discriminate;
    try reflexivity.
  destruct (N.ltb_spec x y) as [Hxy|Hxy].
  - intros _. destruct (N.ltb_spec y z) as [Hyz|Hyz].
    + intros _. destruct (N.ltb_spec x z); [reflexivity|lia].
    + destruct (N.eqb_spec y z) as [->|]; [|discriminate].
      intros _. destruct (N.ltb_spec x z); [reflexivity|lia].
  - destruct (N.eqb_spec x y) as [->|]; [|discriminate].
    intros Hab. destruct (N.ltb_spec y z); [reflexivity|].
    destruct (N.eqb_spec y z) as [->|]; [|discriminate].
    now apply IH.
Qed.

Lemma insert_sorted_in (x y : pystr) (l : list pystr) :
  In y (insert_sorted x l) <-> y = x \/ In y l.
Proof.
  induction l as [|z t IH]; simpl; [intuition|].
  destruct (str_leb x z); simpl; [intuition|].
  rewrite IH. intuition.
Qed.

Lemma insert_sorted_sorted (x : pystr) (l : list pystr) :
  StronglySorted str_le l -> StronglySorted str_le (insert_sorted x l).
Proof.
  induction 1 as [|z t Hs IH Hall]; simpl.
  - repeat constructor.
  - destruct (str_leb x z) eqn:E.
    + constructor; [now constructor|].
      constructor; [exact E|].
      rewrite Forall_forall in *. intros y Hy.
      apply (str_leb_trans x z y E), Hall, Hy.
    + constructor; [exact IH|].
      rewrite Forall_forall in *. intros y Hy.
      apply insert_sorted_in in Hy. destruct Hy as [->|Hy].
      * now apply str_leb_total.
      * now apply Hall.
Qed.

Lemma sorted_sorted (l : list pystr) : StronglySorted str_le (sorted l).
Proof.
  induction l as [|x t IH]; simpl; [constructor|].
  now apply insert_sorted_sorted.
Qed.

Lemma sorted_in (x : pystr) (l : list pystr) : In x (sorted l) <-> In x l.
Proof.
  induction l as [|y t IH]; simpl; [tauto|].
  rewrite insert_sorted_in, IH. intuition.
Qed.

Lemma StronglySorted_nth_error {A} (R : A -> A -> Prop) (l : list A) :
  StronglySorted R l ->
  forall i j x y, (i < j)%nat ->
    nth_error l i = Some x -> nth_error l j = Some y -> R x y.
Proof.
  induction 1 as [|a t Hs IH Hall]; intros i j x y Hij Hi Hj.
  - now destruct i.
  - destruct j as [|j]; [lia|]. simpl in Hj.
    destruct i as [|i]; simpl in Hi.
    + injection Hi as <-. rewrite Forall_forall in Hall.
      apply Hall. eapply nth_error_In, Hj.
    + apply (IH i j); [lia|assumption|assumption].
Qed.

Lemma getitem_nonneg {A} (l : list A) (i : Z) (x : A) :
  0 <= i -> getitem l i = Ok x -> nth_error l (Z.to_nat i) = Some x.
Proof.
  intros Hi. unfold getitem.
  destruct (Z.ltb_spec i 0); [lia|].
  destruct (Z.ltb_spec i 0); [lia|].
  destruct (nth_error l (Z.to_nat i)); [|discriminate]. now intros [= ->].
Qed.

Lemma getitem_In {A} (l : list A) (i : Z) (x : A) :
  getitem l i = Ok x -> In x l.
Proof.
  unfold getitem.
  destruct (_ <? 0); [discriminate|].
  destruct (nth_error l _) eqn:E; [|discriminate].
  intros [= <-]. eapply nth_error_In, E.
Qed.

Lemma gen_for_yields {A B} (f : A -> result B) (l : list A) (y : B) :
  In y (fst (gen_for f l)) -> exists x, In x l /\ f x = Ok y.
Proof.
  induction l as [|x t IH]; simpl; [intros []|].
  destruct (f x) as [y'|e] eqn:E; [|intros []].
  simpl. intros [<-|Hin].
  - exists x. auto.
  - destruct (IH Hin) as (x' & Hx & Hf). exists x'. auto.
Qed.

(** ** ImageListReader: the order of iteration *)

(** The paths among what a reader yields. *)
Definition yielded_paths (g : gen (pystr * pystr * Z)) : list pystr :=
  map (fun y => snd (fst y)) (fst g).

(** X1: an ImageListReader built with a start that is not negative yields
    the paths in lexicographic order, each of them a path it was given and
    the one at its index in the sorted list, with the image equal to the
    path. *)
Theorem ImageListReader_yields_sorted_paths :
  forall (paths : list pystr) (step start : Z) (stop : option Z)
         (r : IMediaReader),
    ImageListReader_init paths step start stop = Ok r ->
    0 <= start ->
    StronglySorted str_le (yielded_paths (ImageListReader_iter r)) /\
    (forall image p i,
        In (image, p, i) (fst (ImageListReader_iter r)) ->
        image = p /\ In p paths /\
        0 <= i < len paths /\
        nth_error (sorted paths) (Z.to_nat i) = Some p).
Proof.
  intros paths step start stop r Hinit Hstart.
  apply ImageListReader_init_ok in Hinit. destruct Hinit as (_ & Hlt & ->).
  set (e := effective_stop paths stop) in *.
  set (s := Z.max step 1).
  assert (Hs : 0 < s) by (unfold s; lia).
  assert (He : e <= len paths).
  { unfold e, effective_stop. destruct stop; lia. }
  assert (Hneg : - len paths <= start) by (unfold len; lia).
  rewrite (ImageListReader_iter_indices paths s start e Hs Hneg He).
  set (n := Z.to_nat (range_len start e s)).
  pose proof (range_len_ceil start e s Hs Hlt) as Hlen.
  pose proof (ceil_div_spec (e - start) s Hs) as Hc.
  assert (Hvalid : forall k : nat, (k < n)%nat ->
             0 <= start + Z.of_nat k * s < len paths /\
             exists x,
               getitem (sorted paths) (start + Z.of_nat k * s) = Ok x /\
               nth_error (sorted paths) (Z.to_nat (start + Z.of_nat k * s))
                 = Some x).
  { intros k Hk. unfold n in Hk. rewrite Hlen in Hk.
    assert (Hr : 0 <= start + Z.of_nat k * s < len paths) by nia.
    split; [exact Hr|].
    destruct (getitem_in_range (sorted paths) (start + Z.of_nat k * s)) as [x Hx].
    { unfold len. rewrite sorted_length. fold (len paths). lia. }
    exists x. split; [exact Hx|]. apply getitem_nonneg; [lia|exact Hx]. }
  split.
  - unfold yielded_paths. cbn [fst]. rewrite map_map. cbn [fst snd].
    unfold progression. rewrite map_map.
    assert (Hmono : forall m a, (a + m <= n)%nat ->
               StronglySorted str_le
                 (map (fun k => match getitem (sorted paths)
                                        (start + Z.of_nat k * s) with
                                | Ok q => q
                                | Raise _ => []
                                end) (seq a m))).
    { induction m as [|m IH]; intros a Ham; simpl.
      - constructor.
      - constructor; [apply IH; lia|].
        apply Forall_forall. intros y Hy. apply in_map_iff in Hy.
        destruct Hy as (k & <- & Hk). apply in_seq in Hk.
        destruct (Hvalid a ltac:(lia)) as (Ha & x & Hx & Hnx).
        destruct (Hvalid k ltac:(lia)) as (Hkr & z & Hz & Hnz).
        rewrite Hx, Hz.
        apply (StronglySorted_nth_error str_le (sorted paths) (sorted_sorted paths)
                 (Z.to_nat (start + Z.of_nat a * s))
                 (Z.to_nat (start + Z.of_nat k * s))); [nia|assumption|assumption]. }
    apply Hmono. lia.
  - intros image q i Hin. cbn [fst] in Hin. apply in_map_iff in Hin.
    destruct Hin as (j & Hj & Hprog).
    apply progression_in in Hprog. destruct Hprog as (k & Hk & ->).
    destruct (Hvalid k Hk) as (Hr & x & Hx & Hnx).
    rewrite Hx in Hj. cbn zeta in Hj. injection Hj as <- <- <-.
    repeat split; try lia; try assumption.
    apply sorted_in. eapply getitem_In, Hx.
Qed.

(** ** VideoReader: length, a zero step, frames without rotation *)



Section VideoEdges.
Context `{Env}.

Lemma decode_images_zero_step r c pkt images n :
  _step r = 0 ->
  let raised := (0 <? len images) && (_start r <? n + len images) in
  snd (decode_images r c pkt images n)
    = ([], if raised then Some ZeroDivisionError else None) /\
  (raised = false -> fst (decode_images r c pkt images n) = n + len images).
Proof.
  intros Hs. revert n. induction images as [|image rest IH]; intros n.
  - simpl. split; [reflexivity|]. intros _. unfold len. simpl. lia.
  - cbn zeta. cbn [decode_images].
    replace (n + 1 - 1) with n by lia.
    assert (Hl : len (image :: rest) = 1 + len rest).
    { unfold len. simpl List.length. lia. }
    assert (Hpos : 0 <= len rest) by (unfold len; lia).
    rewrite Hl. unfold _has_frame. rewrite Hs.
    destruct (Z.leb_spec (_start r) n) as [Hle|Hgt].
    + cbn [Z.eqb fst snd].
      destruct (Z.ltb_spec 0 (1 + len rest)); [|lia].
      destruct (Z.ltb_spec (_start r) (n + (1 + len rest))); [|lia].
      split; [reflexivity|discriminate].
    + destruct (IH (n + 1)) as [IH1 IH2]. cbn zeta in IH1, IH2.
      rewrite IH1.
      destruct (Z.ltb_spec 0 (1 + len rest)); [|lia].
      replace (n + (1 + len rest)) with (n + 1 + len rest) by lia.
      destruct (Z.ltb_spec 0 (len rest)) as [Hr|Hr]; cbn [andb].
      * split; [reflexivity|exact IH2].
      * assert (len rest = 0) by lia.
        destruct (Z.ltb_spec (_start r) (n + 1 + len rest)); [lia|].
        split; [reflexivity|]. intros _. now apply IH2.
Qed.

Lemma raised_later (k m n s : Z) :
  0 <= k -> 0 <= m ->
  (0 <? k) && (s <? n + k) = false ->
  (0 <? k + m) && (s <? n + (k + m)) = (0 <? m) && (s <? n + k + m).
Proof.
  intros Hk Hm R. apply andb_false_iff in R.
  replace (n + (k + m)) with (n + k + m) by lia.
  destruct (Z.ltb_spec 0 m); destruct (Z.ltb_spec 0 (k + m)); try lia;
    cbn [andb]; try reflexivity.
Qed.

Lemma raised_first (k m n s : Z) :
  0 <= m ->
  (0 <? k) && (s <? n + k) = true ->
  (0 <? k + m) && (s <? n + (k + m)) = true.
Proof.
  intros Hm R. apply andb_prop in R. destruct R as [R1 R2].
  apply Z.ltb_lt in R1, R2. apply andb_true_intro. split; apply Z.ltb_lt; lia.
Qed.

Lemma decode_packets_zero_step r c packets n :
  _step r = 0 ->
  let frames :=
    flat_map (fun packet =>
                if str_eqb (stream_type (stream packet)) (str_of "video")
                then map (fun image => (packet, image)) (decode packet)
                else [])
             packets in
  decode_packets r c packets n
    = ([], if (0 <? len frames) && (_start r <? n + len frames)
           then Some ZeroDivisionError else None).
Proof.
  intros Hs. revert n. induction packets as [|packet rest IH]; intros n.
  - reflexivity.
  - cbn zeta in *. cbn [decode_packets flat_map].
    destruct (str_eqb (stream_type (stream packet)) (str_of "video")).
    + destruct (decode_images_zero_step r c packet (decode packet) n Hs)
        as [D1 D2]. cbn zeta in D1, D2.
      destruct (decode_images r c packet (decode packet) n) as [n' [ys e]].
      cbn [fst snd] in D1, D2.
      match goal with
      | |- context [len (?a ++ ?b)] =>
          assert (Hl : len (a ++ b) = len (decode packet) + len b)
            by (unfold len; rewrite length_app, length_map; apply Nat2Z.inj_add);
          assert (Hb : 0 <= len b) by apply Nat2Z.is_nonneg
      end.
      assert (Hk : 0 <= len (decode packet)) by apply Nat2Z.is_nonneg.
      rewrite Hl.
      destruct ((0 <? len (decode packet)) && (_start r <? n + len (decode packet)))
        eqn:R.
      * injection D1 as -> ->.
        now rewrite (raised_first _ _ n (_start r) Hb R).
      * injection D1 as -> ->. rewrite (D2 eq_refl), IH.
        cbn [app]. now rewrite (raised_later _ _ n (_start r) Hk Hb R).
    + apply IH.
Qed.

(** X3: a VideoReader leaves the step as given; with step 0 its frame
    test divides by zero, so [_decode] yields nothing at all, and ends with
    ZeroDivisionError as soon as the video has a frame at position [start]
    or later. *)
Theorem VideoReader_zero_step_raises :
  forall (source_path : list pystr) (start : Z) (stop : option Z)
         (c : Container),
    fst (_decode (VideoReader_init source_path 0 start stop) c) = [] /\
    (Z.max 0 start < len (video_frames c) ->
     _decode (VideoReader_init source_path 0 start stop) c
       = ([], Some ZeroDivisionError)) /\
    (len (video_frames c) <= Z.max 0 start ->
     _decode (VideoReader_init source_path 0 start stop) c = ([], None)).
Proof.
  intros source_path start stop c. unfold _decode.
  rewrite (decode_packets_zero_step
             (VideoReader_init source_path 0 start stop) c (demux c) 0 eq_refl).
  cbn zeta.
  fold (video_frames c). cbn [VideoReader_init IMediaReader_init _start fst].
  assert (0 <= len (video_frames c)) by (unfold len; lia).
  split; [reflexivity|]. split; intros Hlen.
  - destruct (Z.ltb_spec 0 (len (video_frames c))); [|lia].
    destruct (Z.ltb_spec start (0 + len (video_frames c))); [|lia].
    reflexivity.
  - destruct (Z.ltb_spec 0 (len (video_frames c))); [|reflexivity].
    destruct (Z.ltb_spec start (0 + len (video_frames c))); [lia|].
    reflexivity.
Qed.

Lemma yield_frame_plain r c pkt image p :
  declares_rotate (stream pkt) = false ->
  getitem (_source_path r) 0 = Ok p ->
  yield_frame r c pkt image = Ok (image, p, pts image).
Proof.
  intros Hd Hp. unfold yield_frame, upright. rewrite Hd. cbn [bind].
  now rewrite Hp.
Qed.

(** X4: when no video packet comes from a stream that declares a
    rotation, the frames a VideoReader yields are the decoded frames at the
    accepted positions themselves, unchanged, each with its own pts. *)
Theorem VideoReader_plain_frames_unchanged :
  forall (r : IMediaReader) (c : Container) (p : pystr),
    _step r <> 0 ->
    getitem (_source_path r) 0 = Ok p ->
    (forall pkt, In pkt (demux c) ->
                 str_eqb (stream_type (stream pkt)) (str_of "video") = true ->
                 declares_rotate (stream pkt) = false) ->
    _decode r c =
      (map (fun x => (snd (snd x), p, pts (snd (snd x))))
           (selected_frames r c),
       None).
Proof.
  intros r c p Hs Hp Hplain. rewrite (_decode_spec r c Hs).
  apply gen_for_ok. intros [i [pkt image]] Hin.
  unfold selected_frames in Hin. apply filter_In in Hin. destruct Hin as [Hin _].
  apply enumerate_in, video_frames_in in Hin. destruct Hin as [Hd Hv].
  unfold yield_selected. cbn [fst snd].
  apply yield_frame_plain; [now apply Hplain|exact Hp].
Qed.

End VideoEdges.

(** ** Chunk writers: streams, frames and archives *)

Section WriterEdges.
Context `{Env}.
Context {T : Type}.

Lemma round_up_even_spec (n : Z) :
  round_up_even n mod 2 = 0 /\ n <= round_up_even n <= n + 1 /\
  (n mod 2 = 0 -> round_up_even n = n).
Proof.
  unfold round_up_even. destruct (Z.eqb_spec (n mod 2) 0) as [E|E].
  - repeat split; (assumption || lia).
  - repeat split; try lia.
    revert E. Z.div_mod_to_equations. lia.
Qed.

(** X5: the stream [_create_av_container] configures for x264 has an even
    width and an even height, each the requested one or one more, and the
    requested one when that is even already. *)
Theorem create_av_container_even_sides :
  forall (path : pystr) (w h fps : Z) (opts : dict pystr) (f : pystr),
    let s := video_stream (_create_av_container path w h fps opts f) in
    stream_width s mod 2 = 0 /\
    stream_height s mod 2 = 0 /\
    w <= stream_width s <= w + 1 /\
    h <= stream_height s <= h + 1 /\
    (w mod 2 = 0 -> stream_width s = w) /\
    (h mod 2 = 0 -> stream_height s = h).
Proof.
  intros path w h fps opts f. cbn.
  fold (round_up_even w). fold (round_up_even h).
  destruct (round_up_even_spec w) as (W1 & W2 & W3).
  destruct (round_up_even_spec h) as (H1 & H2 & H3).
  repeat split; (assumption || lia).
Qed.

Lemma _encode_images_result (images : list (Image * pystr * T))
    (container container' : OutputContainer) :
  _encode_images images container = Ok container' ->
  container_path container' = container_path container /\
  container_format container' = container_format container /\
  video_stream container' = video_stream container /\
  exists frames,
    muxed container' = muxed container ++ frames /\
    Forall2 (fun item frame =>
               exists f, fst (fst item) = FrameImage f /\
                         frame =
                           {| to_ndarray :=
                                reformat (to_ndarray f)
                                  (stream_width (video_stream container))
                                  (stream_height (video_stream container));
                              pts := None;
                              time_base := None |})
            images frames.
Proof.
  unfold _encode_images.
  match goal with
  | |- context [for_each ?f images] => destruct (for_each f images) as [frames|e] eqn:E
  end; [|discriminate].
  cbn [bind]. intros [= <-]. cbn. repeat split.
  exists frames. split; [reflexivity|].
  apply for_each_Forall2 in E. eapply Forall2_impl; [|exact E].
  intros [[image p] t] frame Hf. cbn beta iota in Hf. cbn [fst].
  destruct image as [f|b|q]; try discriminate.
  injection Hf as <-. now exists f.
Qed.

(** X6: the stream of a compressed video chunk is never higher than 1080;
    its height is even, at least 540 when the first frame is 1080 high or
    more, and the frame's own height rounded up to even when that is below
    1080. *)
Theorem Mpeg4CompressedChunkWriter_stream_height :
  forall (self : ChunkWriter) (f : VideoFrame) (p : pystr) (t : T)
         (rest : list (Image * pystr * T)) (chunk_path : pystr)
         (container : OutputContainer) (sizes : list (Z * Z)),
    0 <= height f ->
    Mpeg4CompressedChunkWriter_save_as_chunk self
        ((FrameImage f, p, t) :: rest) chunk_path
      = Ok (container, sizes) ->
    stream_height (video_stream container) <= 1080 /\
    stream_height (video_stream container) mod 2 = 0 /\
    (1080 <= height f -> 540 <= stream_height (video_stream container)) /\
    (height f < 1080 ->
     stream_height (video_stream container) = round_up_even (height f)).
Proof.
  intros self f p t rest chunk_path container sizes Hh.
  unfold Mpeg4CompressedChunkWriter_save_as_chunk. cbn [frame_size bind].
  destruct (attr (_output_fps self)) as [fps|e]; [|discriminate]. cbn [bind].
  match goal with
  | |- context [_encode_images ?l ?c] =>
      destruct (_encode_images l c) as [c'|e] eqn:E
  end; [|discriminate].
  cbn [bind]. intros [= <- _].
  apply _encode_images_result in E. destruct E as (_ & _ & -> & _).
  cbn [video_stream _create_av_container stream_height].
  destruct (downscale_factor_spec (height f) 1) as (k & Hk & Hlt & Hmin).
  rewrite Hk.
  assert (E1 : forall n, Z.pos 1 * n = n) by (intros; lia).
  rewrite E1 in *.
  set (F := 2 ^ Z.of_nat k) in *.
  assert (HF : 0 < F) by (unfold F; apply Z.pow_pos_nonneg; lia).
  fold (round_up_even (height f / F)).
  destruct (round_up_even_spec (height f / F)) as (R1 & R2 & R3).
  assert (Hq : 0 <= height f / F < 1080).
  { split; [apply Z.div_pos; lia|].
    apply Z.div_lt_upper_bound; lia. }
  split; [lia|]. split; [exact R1|]. split.
  - intros Hbig. destruct k as [|k].
    + unfold F in Hlt. simpl in Hlt. lia.
    + specialize (Hmin k ltac:(lia)). rewrite E1 in Hmin.
      assert (F = 2 * 2 ^ Z.of_nat k).
      { unfold F. rewrite Nat2Z.inj_succ, Z.pow_succ_r by lia. reflexivity. }
      assert (540 <= height f / F); [|lia].
      apply Z.div_le_lower_bound; lia.
  - intros Hsmall. destruct k as [|k].
    + unfold F. simpl. now rewrite Z.div_1_r.
    + specialize (Hmin 0%nat ltac:(lia)). rewrite E1 in Hmin. simpl in Hmin. lia.
Qed.

(** X7: when either video writer returns, the container it wrote is at the
    chunk path in format mp4, its stream has the writer's output fps as
    rate, and it holds one encoded picture per input image, in order: every
    input image is a video frame, it is given to the encoder with pts and
    time base reset to None, and the picture encoded is that frame's pixels
    reformatted to the width and height of the stream. *)
Theorem video_writers_encode_every_frame :
  forall (self : ChunkWriter) (images : list (Image * pystr * T))
         (chunk_path : pystr) (container : OutputContainer)
         (sizes : list (Z * Z)),
    Mpeg4ChunkWriter_save_as_chunk self images chunk_path
      = Ok (container, sizes) \/
    Mpeg4CompressedChunkWriter_save_as_chunk self images chunk_path
      = Ok (container, sizes) ->
    container_path container = chunk_path /\
    container_format container = str_of "mp4" /\
    Some (rate (video_stream container)) = _output_fps self /\
    Forall2 (fun item frame =>
               exists f, fst (fst item) = FrameImage f /\
                         to_ndarray frame =
                           reformat (to_ndarray f)
                             (stream_width (video_stream container))
                             (stream_height (video_stream container)) /\
                         pts frame = None /\
                         time_base frame = None)
            images (muxed container).
Proof.
  intros self images chunk_path container sizes Hs.
  assert (Hc : exists w h fps,
             _output_fps self = Some fps /\
             _encode_images images
               (_create_av_container chunk_path w h fps
                  (encoder_options self) (str_of "mp4")) = Ok container).
  { destruct Hs as [Hs|Hs]; revert Hs;
      [unfold Mpeg4ChunkWriter_save_as_chunk
      |unfold Mpeg4CompressedChunkWriter_save_as_chunk];
      (destruct images as [|[[first p] t] rest]; [discriminate|]);
      (destruct (frame_size first) as [[w h]|e]; [|discriminate]);
      cbn [bind];
      (destruct (_output_fps self) as [fps|]; [|discriminate]);
      cbn [attr bind];
      match goal with
      | |- context [_encode_images ?l ?c] =>
          destruct (_encode_images l c) as [c'|e] eqn:E
      end; try discriminate; cbn [bind]; intros [= <- _];
      eexists; eexists; exists fps; (split; [reflexivity|exact E]). }
  destruct Hc as (w & h & fps & Hfps & E).
  apply _encode_images_result in E.
  destruct E as (E1 & E2 & E3 & frames & E4 & E5).
  rewrite E1, E2, E3, E4, Hfps. cbn. repeat split.
  eapply Forall2_impl; [|exact E5].
  intros item frame (f & Hf & ->). now exists f.
Qed.

(** A member of the archive ZipChunkWriter wrote for the item [x] of the
    enumeration: named by the position and the extension of the path, and
    holding the bytes of the buffer, or of the file, as they are. *)
Definition stored_as_is (x : Z * (Image * pystr * T)) (member : pystr * bytes)
    : Prop :=
  fst member = format_06d (fst x) ++ snd (splitext (snd (fst (snd x)))) /\
  match fst (fst (snd x)) with
  | BytesIO b => snd member = b
  | PathImage q => read_file q = Ok (snd member)
  | FrameImage _ => False
  end.

(** X8: the archive ZipChunkWriter returns has one member per image, in
    order; each is named by the zero-padded position followed by the
    extension of the image's path and holds the image's bytes unchanged. No
    image is a video frame. *)
Theorem ZipChunkWriter_stores_as_is :
  forall (self : ChunkWriter) (images : list (Image * pystr * T))
         (chunk_path : pystr) (zip_chunk : archive) (sizes : list (Z * Z)),
    ZipChunkWriter_save_as_chunk self images chunk_path
      = Ok (zip_chunk, sizes) ->
    path_exists chunk_path = false /\
    Forall2 stored_as_is (enumerate 0 images) zip_chunk.
Proof.
  intros self images chunk_path zip_chunk sizes.
  unfold ZipChunkWriter_save_as_chunk, ZipFile_x.
  destruct (path_exists chunk_path); [discriminate|]. cbn [bind].
  match goal with
  | |- context [for_each ?f ?l] => destruct (for_each f l) as [written|e] eqn:E
  end; [|discriminate].
  cbn [bind]. intros [= <- _]. split; [reflexivity|].
  apply for_each_Forall2 in E. eapply Forall2_impl; [|exact E].
  intros [idx [[image p] t]] [name content] Hx. cbn beta iota in Hx.
  unfold stored_as_is. cbn [fst snd].
  destruct image as [f|b|q]; [discriminate| |].
  - now injection Hx as <- <-.
  - destruct (read_file q) as [b|e]; [|discriminate]. cbn [bind] in Hx.
    now injection Hx as <- <-.
Qed.

(** X9: in 3D mode the compressed archive writer passes the bytes of a
    point cloud through unchanged under the extension pcd, and the size it
    records is [int] of the WIDTH and HEIGHT values of the header. *)
Theorem ZipCompressedChunkWriter_passes_point_clouds :
  forall (self : ChunkWriter) (b image_buf : bytes) (w h : Z)
         (extension : pystr),
    _dimension self = Some DIM_3D ->
    compress_frame self (BytesIO b) = Ok (w, h, image_buf, extension) ->
    image_buf = b /\
    extension = str_of "pcd" /\
    exists kv sw sh,
      get_pcd_properties (map BytesLine (readlines b)) false
        = Ok (Properties kv) /\
      dict_get kv (str_of "WIDTH") = Some sw /\ py_int sw = Ok w /\
      dict_get kv (str_of "HEIGHT") = Some sh /\ py_int sh = Ok h.
Proof.
  intros self b image_buf w h extension Hd.
  unfold compress_frame. rewrite Hd. cbn [attr bind DimensionType_eqb].
  unfold pcd_passthrough. cbn [bind].
  destruct (get_pcd_properties (map BytesLine (readlines b)) false)
    as [[kv| |]|e]; try discriminate.
  cbn [bind]. unfold dict_item.
  destruct (dict_get kv (str_of "WIDTH")) as [sw|] eqn:Ew; [|discriminate].
  cbn [bind]. destruct (py_int sw) as [w'|e] eqn:Ewi; [|discriminate].
  cbn [bind].
  destruct (dict_get kv (str_of "HEIGHT")) as [sh|] eqn:Eh; [|discriminate].
  cbn [bind]. destruct (py_int sh) as [h'|e] eqn:Ehi; [|discriminate].
  cbn [bind]. intros [= <- <- <- <-]. repeat split.
  exists kv, sw, sh. repeat split; assumption.
Qed.

End WriterEdges.

(** ** Point-cloud headers: comments, the payload, and headers written out *)

Lemma read_header_skips_comment (pre rest : list pyline) (b : bytes)
    (t : pystr) (kv : dict pystr) :
  utf8_decode b = Some t ->
  startswith t (str_of "#") = true ->
  read_header (pre ++ BytesLine b :: rest) kv = read_header (pre ++ rest) kv.
Proof.
  intros Hb Hc. revert kv. induction pre as [|line pre IH]; intros kv.
  - simpl. rewrite Hb. cbn [bind]. now rewrite Hc.
  - simpl. destruct (line_decode line) as [s|e]; [|reflexivity]. cbn [bind].
    destruct (startswith s (str_of "#")); [apply IH|].
    destruct (split_once s 32) as [|k [|v [|x l]]]; try reflexivity.
    destruct (contains s (str_of "DATA")); [reflexivity|apply IH].
Qed.

(** X10: a comment line, anywhere in the stream, changes nothing in what
    [get_pcd_properties] returns or raises. *)
Theorem get_pcd_properties_ignores_comments :
  forall (pre rest : list pyline) (b : bytes) (t : pystr)
         (verify_version : bool),
    utf8_decode b = Some t ->
    startswith t (str_of "#") = true ->
    get_pcd_properties (pre ++ BytesLine b :: rest) verify_version
      = get_pcd_properties (pre ++ rest) verify_version.
Proof.
  intros pre rest b t verify_version Hb Hc. unfold get_pcd_properties.
  now rewrite (read_header_skips_comment pre rest b t [] Hb Hc).
Qed.

Lemma read_header_stops_at_data (pre rest rest' : list pyline) (b : bytes)
    (t k v : pystr) (kv : dict pystr) :
  utf8_decode b = Some t ->
  startswith t (str_of "#") = false ->
  split_once t 32 = [k; v] ->
  contains t (str_of "DATA") = true ->
  read_header (pre ++ BytesLine b :: rest) kv
    = read_header (pre ++ BytesLine b :: rest') kv.
Proof.
  intros Hb Hc Hsp Hd. revert kv. induction pre as [|line pre IH]; intros kv.
  - simpl. rewrite Hb. cbn [bind]. now rewrite Hc, Hsp, Hd.
  - simpl. destruct (line_decode line) as [s|e]; [|reflexivity]. cbn [bind].
    destruct (startswith s (str_of "#")); [apply IH|].
    destruct (split_once s 32) as [|k' [|v' [|x l]]]; try reflexivity.
    destruct (contains s (str_of "DATA")); [reflexivity|apply IH].
Qed.

(** X11: nothing after the first line with DATA is read: whatever follows
    it, also bytes that would not decode, [get_pcd_properties] gives the
    same result. *)
Theorem get_pcd_properties_stops_at_data :
  forall (pre rest rest' : list pyline) (b : bytes) (t k v : pystr)
         (verify_version : bool),
    utf8_decode b = Some t ->
    startswith t (str_of "#") = false ->
    split_once t 32 = [k; v] ->
    contains t (str_of "DATA") = true ->
    get_pcd_properties (pre ++ BytesLine b :: rest) verify_version
      = get_pcd_properties (pre ++ BytesLine b :: rest') verify_version.
Proof.
  intros pre rest rest' b t k v verify_version Hb Hc Hsp Hd.
  unfold get_pcd_properties.
  now rewrite (read_header_stops_at_data pre rest rest' b t k v [] Hb Hc Hsp Hd).
Qed.

(** *** Writing a header out and reading it back *)

(** The bytes of a [str] of ASCII characters. *)
Definition ascii_bytes (s : pystr) : bytes :=
  map (fun c => match Byte.of_N c with
                | Some b => b
                | None => "000"%byte
                end) s.

(** The header line [b"key value\n"]. *)
Definition header_line (k v : pystr) : pyline :=
  BytesLine (ascii_bytes (k ++ 32%N :: v ++ [10%N])).

Definition is_ascii (s : pystr) : Prop := Forall (fun c => (c < 128)%N) s.

(** A key a header line can start with: ASCII, without a space, and not
    opening a comment. *)
Definition plain_key (k : pystr) : Prop :=
  is_ascii k /\ ~ In 32%N k /\ hd_error k <> Some 35%N.

(** A value [strip] leaves as it is: ASCII, with no white space at either
    end. *)
Definition plain_value (v : pystr) : Prop :=
  is_ascii v /\ lstrip v = v /\ lstrip (rev v) = rev v.

Lemma utf8_decode_ascii (s : pystr) :
  is_ascii s -> utf8_decode (ascii_bytes s) = Some s.
Proof.
  induction 1 as [|c s Hc Hs IH]; [reflexivity|].
  cbn [ascii_bytes map utf8_decode]. fold (ascii_bytes s).
  destruct (Byte.of_N c) as [b|] eqn:E.
  - apply Byte.to_of_N in E. rewrite E.
    destruct (N.ltb_spec c 128); [|lia]. now rewrite IH.
  - apply Byte.of_N_None_iff in E. lia.
Qed.

Lemma split_once_at_first (k rest : pystr) (sep : N) :
  ~ In sep k -> split_once (k ++ sep :: rest) sep = [k; rest].
Proof.
  induction k as [|c k IH]; intros Hn; simpl.
  - now rewrite N.eqb_refl.
  - destruct (N.eqb_spec c sep) as [->|Hc]; [exfalso; apply Hn; now left|].
    rewrite IH; [reflexivity|]. intros Hin. apply Hn. now right.
Qed.

Lemma lstrip_fixed (v : pystr) :
  lstrip v = v -> match v with [] => True | c :: _ => isspace c = false end.
Proof.
  destruct v as [|c v]; [trivial|]. simpl.
  destruct (isspace c) eqn:E; [|reflexivity].
  intros Hl. exfalso.
  assert (Hlen : forall s, (List.length (lstrip s) <= List.length s)%nat).
  { induction s as [|x s IHs]; simpl; [lia|].
    destruct (isspace x); simpl; lia. }
  specialize (Hlen v). rewrite Hl in Hlen. simpl in Hlen. lia.
Qed.

Lemma strip_line (v : pystr) : plain_value v -> strip (v ++ [10%N]) = v.
Proof.
  intros (_ & Hl & Hr). unfold strip.
  assert (E1 : lstrip (v ++ [10%N]) = match v with [] => [] | _ => v ++ [10%N] end).
  { apply lstrip_fixed in Hl. destruct v as [|c v]; [reflexivity|].
    simpl. now rewrite Hl. }
  destruct v as [|c v]; [rewrite E1; reflexivity|].
  rewrite E1, rev_app_distr. cbn [rev app].
  change (lstrip (10%N :: (rev v ++ [c]))) with (lstrip (rev v ++ [c])).
  cbn [rev] in Hr. rewrite Hr. now rewrite rev_app_distr, rev_involutive.
Qed.

Lemma startswith_hash (k rest : pystr) :
  hd_error k <> Some 35%N ->
  startswith (k ++ 32%N :: rest) (str_of "#") = false.
Proof.
  destruct k as [|c k]; intros Hh; [reflexivity|].
  cbn. destruct (N.eqb_spec c 35) as [->|]; [now elim Hh|reflexivity].
Qed.

Lemma is_ascii_line (k v : pystr) :
  is_ascii k -> is_ascii v -> is_ascii (k ++ 32%N :: v ++ [10%N]).
Proof.
  intros Hk Hv. unfold is_ascii in *.
  apply Forall_app. split; [exact Hk|].
  constructor; [lia|]. apply Forall_app. split; [exact Hv|].
  constructor; [lia|constructor].
Qed.

(** What a sequence of assignments [d[k] = v] leaves in [d]. *)
Definition assign_all (kvs : list (pystr * pystr)) (d : dict pystr)
    : dict pystr :=
  fold_left (fun d kv => dict_set d (fst kv) (snd kv)) kvs d.

Lemma read_header_lines (kvs : list (pystr * pystr)) (rest : list pyline)
    (kv : dict pystr) :
  Forall (fun x => plain_key (fst x) /\ plain_value (snd x) /\
                   contains (fst x ++ 32%N :: snd x ++ [10%N]) (str_of "DATA")
                     = false) kvs ->
  read_header (map (fun x => header_line (fst x) (snd x)) kvs ++ rest) kv
    = read_header rest (assign_all kvs kv).
Proof.
  intros Hall. revert kv.
  induction Hall as [|[k v] kvs (Hk & Hv & Hd) _ IH]; intros kv;
    [reflexivity|].
  cbn [map app read_header header_line line_decode fst snd] in *.
  destruct Hk as (Ka & Ks & Kh). pose proof Hv as (Va & _).
  rewrite (utf8_decode_ascii _ (is_ascii_line k v Ka Va)). cbn [bind].
  rewrite (startswith_hash k _ Kh), (split_once_at_first k _ 32 Ks), Hd.
  rewrite (strip_line v Hv). apply IH.
Qed.

Lemma dict_get_set_eq {V} (d : dict V) (k : pystr) (v : V) :
  dict_get (dict_set d k v) k = Some v.
Proof.
  induction d as [|[k' v'] d IH]; simpl.
  - now rewrite str_eqb_refl.
  - destruct (str_eqb k' k) eqn:E; simpl; rewrite E; [reflexivity|exact IH].
Qed.

Lemma dict_get_set_neq {V} (d : dict V) (k k' : pystr) (v : V) :
  k' <> k -> dict_get (dict_set d k v) k' = dict_get d k'.
Proof.
  intros Hne. induction d as [|[k0 v0] d IH]; simpl.
  - apply str_eqb_neq in Hne.
    destruct (str_eqb k k') eqn:E; [|reflexivity].
    apply str_eqb_eq in E. apply str_eqb_neq in Hne. congruence.
  - destruct (str_eqb k0 k) eqn:E; simpl.
    + apply str_eqb_eq in E. subst k0.
      destruct (str_eqb k k') eqn:E'; [|reflexivity].
      apply str_eqb_eq in E'. congruence.
    + destruct (str_eqb k0 k'); [reflexivity|exact IH].
Qed.

Lemma assign_all_keeps (kvs : list (pystr * pystr)) (d : dict pystr)
    (k v : pystr) :
  dict_get d k = Some v -> ~ In k (map fst kvs) ->
  dict_get (assign_all kvs d) k = Some v.
Proof.
  revert d. induction kvs as [|[k1 v1] kvs IH]; intros d Hg Hn; [exact Hg|].
  cbn [assign_all fold_left fst snd]. apply IH.
  - rewrite dict_get_set_neq; [exact Hg|].
    intros ->. apply Hn. now left.
  - intros Hin. apply Hn. now right.
Qed.

Lemma assign_all_get (kvs : list (pystr * pystr)) (d : dict pystr)
    (k v : pystr) :
  NoDup (map fst kvs) -> In (k, v) kvs ->
  dict_get (assign_all kvs d) k = Some v.
Proof.
  revert d. induction kvs as [|[k0 v0] kvs IH]; intros d Hnd Hin; [easy|].
  cbn [map fst] in Hnd. inversion Hnd as [|? ? Hnotin Hnd']; subst.
  cbn [assign_all fold_left fst snd].
  destruct Hin as [[= -> ->]|Hin].
  - apply assign_all_keeps; [apply dict_get_set_eq|exact Hnotin].
  - now apply IH.
Qed.

(** X12: a header written out as lines [key value\n], the keys plain and
    distinct, the values without white space at their ends, no line with
    DATA in it, and closed by a line [DATA value\n], is read back as
    written: every key gives its value, DATA gives its own, and what comes
    after the DATA line does not matter. *)
Theorem get_pcd_properties_reads_back :
  forall (kvs : list (pystr * pystr)) (format : pystr) (payload : list pyline),
    Forall (fun x => plain_key (fst x) /\ plain_value (snd x) /\
                     contains (fst x ++ 32%N :: snd x ++ [10%N]) (str_of "DATA")
                       = false) kvs ->
    NoDup (map fst kvs) ->
    plain_value format ->
    exists properties,
      get_pcd_properties
        (map (fun x => header_line (fst x) (snd x)) kvs
         ++ header_line (str_of "DATA") format :: payload) false
        = Ok (Properties properties) /\
      dict_get properties (str_of "DATA") = Some format /\
      forall k v, In (k, v) kvs -> dict_get properties k = Some v.
Proof.
  intros kvs format payload Hall Hnd Hf.
  exists (dict_set (assign_all kvs []) (str_of "DATA") format).
  unfold get_pcd_properties. rewrite (read_header_lines kvs _ [] Hall).
  assert (Hkey : plain_key (str_of "DATA")).
  { repeat split.
    - repeat constructor.
    - cbn. intuition discriminate.
    - discriminate. }
  destruct Hkey as (Ka & Ks & Kh). pose proof Hf as (Fa & _).
  cbn [read_header header_line line_decode].
  rewrite (utf8_decode_ascii _ (is_ascii_line _ format Ka Fa)). cbn [bind].
  rewrite (startswith_hash _ _ Kh), (split_once_at_first _ _ 32 Ks).
  rewrite (strip_line format Hf).
  assert (Hd : contains (str_of "DATA" ++ 32%N :: format ++ [10%N]) (str_of "DATA")
               = true) by reflexivity.
  rewrite Hd. split; [reflexivity|]. split; [apply dict_get_set_eq|].
  intros k v Hin.
  assert (Hne : k <> str_of "DATA").
  { intros ->. rewrite Forall_forall in Hall.
    destruct (Hall _ Hin) as (_ & _ & Hc). cbn [fst snd] in Hc.
    discriminate Hc. }
  rewrite (dict_get_set_neq _ _ _ _ Hne). now apply assign_all_get.
Qed.

Lemma assign_all_absent (kvs : list (pystr * pystr)) (d : dict pystr)
    (k : pystr) :
  dict_get d k = None -> ~ In k (map fst kvs) ->
  dict_get (assign_all kvs d) k = None.
Proof.
  revert d. induction kvs as [|[k1 v1] kvs IH]; intros d Hg Hn; [exact Hg|].
  cbn [assign_all fold_left fst snd]. apply IH.
  - rewrite dict_get_set_neq; [exact Hg|].
    intros ->. apply Hn. now left.
  - intros Hin. apply Hn. now right.
Qed.

Lemma known_version (v : pystr) :
  existsb (str_eqb v) pcd_version = true <-> In v pcd_version.
Proof.
  rewrite existsb_exists. split.
  - intros (x & Hin & E). apply str_eqb_eq in E. now subst.
  - intros Hin. exists v. split; [exact Hin|apply str_eqb_refl].
Qed.

(** X24: with the version check, a header written out as for X12 is a
    point cloud (True) exactly when it has a VERSION line whose value is
    one of the fourteen known versions; with another value, or without a
    VERSION line, the answer is None. *)
Theorem get_pcd_properties_verifies_version :
  forall (kvs : list (pystr * pystr)) (format : pystr) (payload : list pyline),
    Forall (fun x => plain_key (fst x) /\ plain_value (snd x) /\
                     contains (fst x ++ 32%N :: snd x ++ [10%N]) (str_of "DATA")
                       = false) kvs ->
    NoDup (map fst kvs) ->
    plain_value format ->
    let fp := map (fun x => header_line (fst x) (snd x)) kvs
              ++ header_line (str_of "DATA") format :: payload in
    (forall v, In (str_of "VERSION", v) kvs ->
               In v pcd_version ->
               get_pcd_properties fp true = Ok PcdTrue) /\
    (forall v, In (str_of "VERSION", v) kvs ->
               ~ In v pcd_version ->
               get_pcd_properties fp true = Ok PcdNone) /\
    (~ In (str_of "VERSION") (map fst kvs) ->
     get_pcd_properties fp true = Ok PcdNone).
Proof.
  intros kvs format payload Hall Hnd Hf fp. subst fp.
  assert (Hread : read_header
            (map (fun x => header_line (fst x) (snd x)) kvs
             ++ header_line (str_of "DATA") format :: payload) []
            = Ok (dict_set (assign_all kvs []) (str_of "DATA") format)).
  { rewrite (read_header_lines kvs _ [] Hall).
    assert (Hkey : plain_key (str_of "DATA")).
    { repeat split.
      - repeat constructor.
      - cbn. intuition discriminate.
      - discriminate. }
    destruct Hkey as (Ka & Ks & Kh). pose proof Hf as (Fa & _).
    cbn [read_header header_line line_decode].
    rewrite (utf8_decode_ascii _ (is_ascii_line _ format Ka Fa)). cbn [bind].
    rewrite (startswith_hash _ _ Kh), (split_once_at_first _ _ 32 Ks).
    rewrite (strip_line format Hf).
    assert (Hd : contains (str_of "DATA" ++ 32%N :: format ++ [10%N])
                   (str_of "DATA") = true) by reflexivity.
    now rewrite Hd. }
  assert (Hne : str_of "VERSION" <> str_of "DATA") by discriminate.
  unfold get_pcd_properties. rewrite Hread.
  rewrite (dict_get_set_neq _ _ _ _ Hne).
  split; [|split].
  - intros v Hin Hv. rewrite (assign_all_get kvs [] _ v Hnd Hin).
    apply known_version in Hv. now rewrite Hv.
  - intros v Hin Hv. rewrite (assign_all_get kvs [] _ v Hnd Hin).
    destruct (existsb (str_eqb v) pcd_version) eqn:E; [|reflexivity].
    apply known_version in E. contradiction.
  - intros Hn. now rewrite (assign_all_absent kvs [] _ eq_refl Hn).
Qed.

(** ** ValidateDimension: conversion, fallback, and what a walk keeps *)

Lemma unpack_points_length (b : bytes) :
  match unpack_points b with
  | Ok list_pcd => List.length b = (16 * List.length list_pcd)%nat
  | Raise e => e = StructError /\ (List.length b mod 16 <> 0)%nat
  end.
Proof.
  remember (List.length b) as n eqn:Hn. revert b Hn.
  induction n as [n IH] using lt_wf_ind. intros b Hn.
  do 16 (destruct b as [|? b];
         [subst n; simpl;
          first [ reflexivity | split; [reflexivity|discriminate] ]|]).
  cbn [unpack_points].
  specialize (IH (List.length b) ltac:(subst n; simpl; lia) b eq_refl).
  destruct (unpack_points b) as [list_pcd|e]; cbn [bind].
  - subst n. simpl List.length. lia.
  - destruct IH as [-> Hm]. split; [reflexivity|].
    subst n. cbn [List.length].
    replace (S (S (S (S (S (S (S (S (S (S (S (S (S (S (S (S (List.length b)))))))))))))))))
      with (List.length b + 1 * 16)%nat by lia.
    now rewrite Nat.Div0.mod_add.
Qed.

Section ValidateEdges.
Context `{OS}.

(** X13: [convert_bin_to_pcd] takes the file sixteen bytes at a time. When
    its size is not a multiple of 16 it raises struct.error, whether or not
    it was asked to delete the source; otherwise it writes one point per
    sixteen bytes to the path with every ".bin" replaced by ".pcd", removes
    the source when asked to, and returns that path. *)
Theorem convert_bin_to_pcd_sixteen_bytes :
  forall (p : pystr) (w : World) (self : ValidateDimension) (content : bytes),
    open_rb w p = Ok content ->
    ((List.length content mod 16 <> 0)%nat ->
     forall delete_source,
       convert_bin_to_pcd p delete_source (w, self) = Raise StructError) /\
    ((List.length content mod 16 = 0)%nat ->
     exists list_pcd,
       List.length content = (16 * List.length list_pcd)%nat /\
       let pcd_filename := str_replace p (str_of ".bin") (str_of ".pcd") in
       let written := write_point_cloud w pcd_filename list_pcd in
       convert_bin_to_pcd p false (w, self)
         = Ok (pcd_filename, (written, self)) /\
       convert_bin_to_pcd p true (w, self)
         = match remove written p with
           | Ok w' => Ok (pcd_filename, (w', self))
           | Raise e => Raise e
           end).
Proof.
  intros p w self content Hopen.
  pose proof (unpack_points_length content) as Hu.
  unfold convert_bin_to_pcd, mbind, ask, lift, change, ret. cbn [fst snd].
  rewrite Hopen.
  destruct (unpack_points content) as [list_pcd|e].
  - split.
    + intros Hm. exfalso. apply Hm. rewrite Hu.
      rewrite Nat.mul_comm. apply Nat.Div0.mod_mul.
    + intros _. exists list_pcd. split; [exact Hu|]. cbn zeta.
      split; [reflexivity|].
      now destruct (remove _ p).
  - destruct Hu as [-> Hm]. split; [reflexivity|]. intros Hz. contradiction.
Qed.

(** [self.image_files[key] = value], on the object. *)
Definition with_image_file (self : ValidateDimension) (key value : pystr)
    : ValidateDimension :=
  {| dimension := dimension self;
     path := path self;
     related_files := related_files self;
     image_files := dict_set (image_files self) key value;
     converted_files := converted_files self |}.

(** X14: a .pcd file whose header does not verify (no known VERSION) is
    kept as an ordinary image: [process_files] records it in [image_files]
    under its stem, returns no point cloud for it, and leaves
    [related_files] and the file system alone, exactly as it does for a
    file with an extension other than bin and pcd. *)
Theorem process_file_unverified_pcd_is_an_image :
  forall (root actual_path file file_name : pystr) (pcd_files : dict pystr)
         (w : World) (self : ValidateDimension) (content : bytes),
    rsplit_once file 46 = [file_name; str_of "pcd"] ->
    open_rb w (abspath (join root file)) = Ok content ->
    get_pcd_properties (map BytesLine (readlines content)) true = Ok PcdNone ->
    process_file root actual_path pcd_files file (w, self)
      = Ok (pcd_files,
            (w, with_image_file self file_name (abspath (join root file)))) /\
    forall other other_name extension,
      rsplit_once other 46 = [other_name; extension] ->
      str_eqb extension (str_of "bin") = false ->
      str_eqb extension (str_of "pcd") = false ->
      process_file root actual_path pcd_files other (w, self)
        = Ok (pcd_files,
              (w, with_image_file self other_name (abspath (join root other)))).
Proof.
  intros root actual_path file file_name pcd_files w self content Hsp Ho Hv.
  split.
  - unfold process_file. rewrite Hsp.
    change (str_eqb (str_of "pcd") (str_of "bin")) with false.
    change (str_eqb (str_of "pcd") (str_of "pcd")) with true.
    cbv iota. unfold pcd_operation, mbind at 1 2 3, ask, lift. cbn [fst snd].
    rewrite Ho, Hv. unfold mbind, ret. rewrite str_eqb_refl. reflexivity.
  - intros other other_name extension Hso Hb Hp.
    unfold process_file. rewrite Hso, Hb, Hp. reflexivity.
Qed.

(** *** A walk over images only *)

(** A file name with an extension that is neither bin nor pcd. *)
Definition is_plain_file (file : pystr) : bool :=
  match rsplit_once file 46 with
  | [_; file_extension] =>
      negb (str_eqb file_extension (str_of "bin"))
      && negb (str_eqb file_extension (str_of "pcd"))
  | _ => false
  end.

(** Two objects that differ in [image_files] at most. *)
Definition same_but_images (self self' : ValidateDimension) : Prop :=
  dimension self' = dimension self /\
  path self' = path self /\
  related_files self' = related_files self /\
  converted_files self' = converted_files self.

(** On the file system [w], method [m] changes neither the file system nor
    anything but [image_files], and what it returns satisfies [Q]. *)
Definition quiet (w : World) {A} (m : M A) (Q : A -> Prop) : Prop :=
  forall self a w' self',
    m (w, self) = Ok (a, (w', self')) ->
    w' = w /\ same_but_images self self' /\ Q a.

Lemma same_but_images_refl self : same_but_images self self.
Proof. now repeat split. Qed.

Lemma same_but_images_trans a b c :
  same_but_images a b -> same_but_images b c -> same_but_images a c.
Proof.
  intros (A1 & A2 & A3 & A4) (B1 & B2 & B3 & B4).
  repeat split; congruence.
Qed.

Lemma quiet_ret w {A} (a : A) (Q : A -> Prop) : Q a -> quiet w (ret a) Q.
Proof.
  intros Hq self a' w' self' [= <- <- <-].
  split; [reflexivity|]. split; [apply same_but_images_refl|exact Hq].
Qed.

Lemma quiet_mbind w {A B} (m : M A) (k : A -> M B) (P : A -> Prop)
    (Q : B -> Prop) :
  quiet w m P -> (forall a, P a -> quiet w (k a) Q) -> quiet w (mbind m k) Q.
Proof.
  intros Hm Hk self b w' self'. unfold mbind.
  destruct (m (w, self)) as [[a [w1 self1]]|e] eqn:E; [|discriminate].
  destruct (Hm self a w1 self1 E) as (-> & S1 & Pa).
  intros Hb. destruct (Hk a Pa self1 b w' self' Hb) as (-> & S2 & Qb).
  split; [reflexivity|]. split; [|exact Qb].
  eapply same_but_images_trans; eassumption.
Qed.

Lemma quiet_weaken w {A} (m : M A) (P Q : A -> Prop) :
  quiet w m P -> (forall a, P a -> Q a) -> quiet w m Q.
Proof.
  intros Hm Hpq self a w' self' E.
  destruct (Hm self a w' self' E) as (? & ? & ?). auto.
Qed.

Lemma quiet_lift w {A} (r : result A) : quiet w (lift r) (fun a => r = Ok a).
Proof.
  intros self a w' self'. unfold lift. destruct r; [|discriminate].
  intros [= <- <- <-]. split; [reflexivity|].
  split; [apply same_but_images_refl|reflexivity].
Qed.

Lemma quiet_ask w {A} (f : World -> A) : quiet w (ask f) (fun a => a = f w).
Proof.
  intros self a w' self' [= <- <- <-]. split; [reflexivity|].
  split; [apply same_but_images_refl|reflexivity].
Qed.

Lemma quiet_self_get w {A} (f : ValidateDimension -> A) :
  quiet w (self_get f) (fun _ => True).
Proof.
  intros self a w' self' [= <- <- <-]. split; [reflexivity|].
  split; [apply same_but_images_refl|exact I].
Qed.

Lemma quiet_set_image_files w key value :
  quiet w (set_image_files key value) (fun _ => True).
Proof.
  intros self a w' self' [= <- <- <-]. split; [reflexivity|].
  now repeat split.
Qed.

Lemma quiet_for_ w {A} (l : list A) (body : A -> M unit) :
  (forall x, In x l -> quiet w (body x) (fun _ => True)) ->
  quiet w (for_ l body) (fun _ => True).
Proof.
  induction l as [|x t IH]; intros Hb; simpl.
  - now apply quiet_ret.
  - apply (quiet_mbind w _ _ (fun _ => True)).
    + apply Hb. now left.
    + intros _ _. apply IH. intros y Hy. apply Hb. now right.
Qed.

Lemma quiet_listdir_if w d keep :
  quiet w (listdir_if d keep) (fun _ => True).
Proof.
  unfold listdir_if.
  apply (quiet_mbind w _ _ (fun _ => True)).
  - apply (quiet_mbind w _ _ (fun _ => True)).
    + eapply quiet_weaken; [apply quiet_ask|trivial].
    + intros r _. eapply quiet_weaken; [apply quiet_lift|trivial].
  - intros names _. eapply quiet_weaken; [apply quiet_ask|trivial].
Qed.

Lemma quiet_process_file w root actual_path pcd_files file :
  is_plain_file file = true ->
  quiet w (process_file root actual_path pcd_files file)
        (fun r => r = pcd_files).
Proof.
  unfold is_plain_file, process_file.
  destruct (rsplit_once file 46) as [|file_name [|ext [|x l]]]; try discriminate.
  intros Hp. apply andb_prop in Hp. destruct Hp as [Hb Hc].
  apply negb_true_iff in Hb, Hc. rewrite Hb, Hc.
  apply (quiet_mbind w _ _ (fun _ => True)).
  - apply quiet_set_image_files.
  - intros _ _. now apply quiet_ret.
Qed.

Lemma quiet_process_files w root actual_path files :
  forallb is_plain_file files = true ->
  quiet w (process_files root actual_path files) (fun r => r = []).
Proof.
  unfold process_files. generalize (@nil (pystr * pystr)) as pcd_files.
  induction files as [|file rest IH]; intros pcd_files Hall; simpl.
  - now apply quiet_ret.
  - simpl in Hall. apply andb_prop in Hall. destruct Hall as [Hf Hrest].
    apply (quiet_mbind w _ _ (fun r => r = pcd_files)).
    + now apply quiet_process_file.
    + intros r ->. now apply IH.
Qed.

Lemma quiet_validate_velodyne_points w root actual_path files :
  forallb is_plain_file files = true ->
  quiet w (validate_velodyne_points root actual_path files) (fun _ => True).
Proof.
  intros Hall. unfold validate_velodyne_points.
  apply (quiet_mbind w _ _ (fun r => r = [])).
  - now apply quiet_process_files.
  - intros velodyne_files ->. cbv zeta.
    apply (quiet_mbind w _ _ (fun _ => True)); [apply quiet_listdir_if|].
    intros dirs _. apply quiet_for_. intros [group|] _.
    + apply (quiet_mbind w _ _ (fun _ => True)); [apply quiet_listdir_if|].
      intros names _. apply quiet_for_. intros file _. cbv zeta.
      now apply quiet_ret.
    + now apply quiet_ret.
Qed.

Lemma quiet_validate_pointcloud w root actual_path files :
  forallb is_plain_file files = true ->
  quiet w (validate_pointcloud root actual_path files) (fun _ => True).
Proof.
  intros Hall. unfold validate_pointcloud.
  apply (quiet_mbind w _ _ (fun r => r = [])).
  - now apply quiet_process_files.
  - intros pointcloud_files ->. cbv zeta.
    apply (quiet_mbind w _ _ (fun _ => True)).
    + eapply quiet_weaken; [apply quiet_ask|trivial].
    + intros [|] _; [|now apply quiet_ret].
      apply (quiet_mbind w _ _ (fun _ => True)); [apply quiet_listdir_if|].
      intros paths _. now apply quiet_ret.
Qed.

Lemma quiet_validate_default w root actual_path files :
  forallb is_plain_file files = true ->
  quiet w (validate_default root actual_path files) (fun _ => True).
Proof.
  intros Hall. unfold validate_default.
  apply (quiet_mbind w _ _ (fun r => r = [])).
  - now apply quiet_process_files.
  - intros pcd_files ->. now apply quiet_ret.
Qed.

Lemma quiet_validate_root w actual_path root :
  forallb is_plain_file (walk_files w root) = true ->
  quiet w (validate_root actual_path root) (fun _ => True).
Proof.
  intros Hall. unfold validate_root.
  apply (quiet_mbind w _ _ (fun files => files = walk_files w root)).
  - apply quiet_ask.
  - intros files ->.
    destruct (endswith root (str_of "data")).
    + destruct (str_eqb _ _).
      * now apply quiet_validate_velodyne_points.
      * now apply quiet_ret.
    + destruct (str_eqb _ _).
      * now apply quiet_validate_pointcloud.
      * now apply quiet_validate_default.
Qed.

(** X15: when no file of the walked tree has the extension bin or pcd, a
    [validate] that completes has changed nothing but [image_files]: the
    file system is as it was, nothing was converted, [related_files] is
    what it was, and an object that was 2D with nothing associated is
    still 2D. *)
Theorem validate_without_point_clouds :
  forall (w w' : World) (self self' : ValidateDimension) (actual_path : pystr),
    path self = Some actual_path ->
    (forall root, In root (walk_roots w actual_path) ->
                  forallb is_plain_file (walk_files w root) = true) ->
    validate (w, self) = Ok (tt, (w', self')) ->
    w' = w /\
    path self' = path self /\
    related_files self' = related_files self /\
    converted_files self' = converted_files self /\
    (related_files self = [] -> dimension self' = dimension self).
Proof.
  intros w w' self self' actual_path Hpath Hplain.
  unfold validate, mbind at 1, self_get at 1. cbn [fst snd]. rewrite Hpath.
  destruct actual_path as [|c actual_path].
  - intros [= <- <-]. now repeat split.
  - unfold mbind, ask. cbn [fst snd].
    destruct (for_ _ _ (w, self)) as [[[] [w1 self1]]|e] eqn:E; [|discriminate].
    apply (quiet_for_ w _ _ (fun root Hin =>
             quiet_validate_root w (c :: actual_path) root (Hplain root Hin)))
      in E.
    destruct E as (-> & (S1 & S2 & S3 & S4) & _).
    unfold self_get. cbn [fst snd].
    destruct (related_files self1) as [|[key value] related] eqn:R;
      cbn [dict_keys map].
    + intros [= <- <-]. repeat split; congruence.
    + unfold self_set. intros [= <- <-].
      cbn [dimension related_files converted_files path fst snd].
      repeat split; congruence.
Qed.

End ValidateEdges.

(** *** What every walk keeps *)

Lemma dict_keys_set {V} (d : dict V) (k : pystr) (v : V) :
  incl (dict_keys d) (dict_keys (dict_set d k v)).
Proof.
  induction d as [|[k' v'] d IH]; simpl.
  - intros x [].
  - destruct (str_eqb k' k); simpl.
    + apply incl_refl.
    + intros x [<-|Hx]; [now left|right; now apply IH].
Qed.

Section ValidateKeeps.
Context `{OS}.

(** From [self] to [self'] the path has stayed, [converted_files] has only
    been appended to, and no key of [related_files] or of [image_files]
    has gone. *)
Definition grown (self self' : ValidateDimension) : Prop :=
  path self' = path self /\
  (exists more, converted_files self' = converted_files self ++ more) /\
  incl (dict_keys (related_files self)) (dict_keys (related_files self')) /\
  incl (dict_keys (image_files self)) (dict_keys (image_files self')).

Definition grows {A} (m : M A) : Prop :=
  forall s a s', m s = Ok (a, s') -> grown (snd s) (snd s').

Lemma grown_refl self : grown self self.
Proof.
  repeat split; try apply incl_refl. exists []. now rewrite app_nil_r.
Qed.

Lemma grown_trans a b c : grown a b -> grown b c -> grown a c.
Proof.
  intros (A1 & (m1 & A2) & A3 & A4) (B1 & (m2 & B2) & B3 & B4).
  repeat split.
  - congruence.
  - exists (m1 ++ m2). rewrite B2, A2. now rewrite app_assoc.
  - eapply incl_tran; eassumption.
  - eapply incl_tran; eassumption.
Qed.

Lemma grows_ret {A} (a : A) : grows (ret a).
Proof. intros s a' s' [= _ <-]. apply grown_refl. Qed.

Lemma grows_mbind {A B} (m : M A) (k : A -> M B) :
  grows m -> (forall a, grows (k a)) -> grows (mbind m k).
Proof.
  intros Hm Hk s b s'. unfold mbind.
  destruct (m s) as [[a s1]|e] eqn:E; [|discriminate].
  intros Hb. eapply grown_trans; [exact (Hm s a s1 E)|exact (Hk a s1 b s' Hb)].
Qed.

Lemma grows_lift {A} (r : result A) : grows (lift r).
Proof.
  intros s a s'. unfold lift. destruct r; [|discriminate].
  intros [= _ <-]. apply grown_refl.
Qed.

Lemma grows_ask {A} (f : World -> A) : grows (ask f).
Proof. intros s a s' [= _ <-]. apply grown_refl. Qed.

Lemma grows_change (f : World -> result World) : grows (change f).
Proof.
  intros s a s'. unfold change. destruct (f (fst s)); [|discriminate].
  intros [= _ <-]. apply grown_refl.
Qed.

Lemma grows_self_get {A} (f : ValidateDimension -> A) : grows (self_get f).
Proof. intros s a s' [= _ <-]. apply grown_refl. Qed.

Lemma grows_for_ {A} (l : list A) (body : A -> M unit) :
  (forall x, grows (body x)) -> grows (for_ l body).
Proof.
  intros Hb. induction l as [|x t IH]; simpl.
  - apply grows_ret.
  - apply grows_mbind; [apply Hb|intros _; exact IH].
Qed.

Lemma grows_set_related_files key value :
  grows (set_related_files key value).
Proof.
  intros s a s' [= _ <-]. cbn. repeat split; try apply incl_refl.
  - exists []. now rewrite app_nil_r.
  - apply dict_keys_set.
Qed.

Lemma grows_set_image_files key value : grows (set_image_files key value).
Proof.
  intros s a s' [= _ <-]. cbn. repeat split; try apply incl_refl.
  - exists []. now rewrite app_nil_r.
  - apply dict_keys_set.
Qed.

Lemma grows_converted_files_append x : grows (converted_files_append x).
Proof.
  intros s a s' [= _ <-]. cbn. repeat split; try apply incl_refl.
  now exists [x].
Qed.

Create HintDb grows.

#[local] Hint Resolve grows_ret grows_lift grows_ask grows_change
  grows_self_get grows_set_related_files grows_set_image_files
  grows_converted_files_append : grows.

(** Takes a method apart along its binds, loops and case distinctions. *)
Ltac grows :=
  repeat first
    [ solve [auto with grows]
    | progress cbv beta zeta
    | apply grows_mbind; [|intros ?]
    | apply grows_for_; intros ?
    | match goal with
      | |- grows (match ?x with _ => _ end) => destruct x
      | |- grows (let '(_, _) := ?x in _) => destruct x
      end ].

Lemma grows_related_files_append key x : grows (related_files_append key x).
Proof. unfold related_files_append. grows. Qed.

Lemma grows_convert_bin_to_pcd p d : grows (convert_bin_to_pcd p d).
Proof. unfold convert_bin_to_pcd. grows. Qed.

#[local] Hint Resolve grows_related_files_append grows_convert_bin_to_pcd
  : grows.

Lemma grows_bin_operation file_path actual_path :
  grows (bin_operation file_path actual_path).
Proof. unfold bin_operation. grows. Qed.

Lemma grows_pcd_operation file_path actual_path :
  grows (pcd_operation file_path actual_path).
Proof. unfold pcd_operation. grows. Qed.

#[local] Hint Resolve grows_bin_operation grows_pcd_operation : grows.

Lemma grows_process_files root actual_path files :
  grows (process_files root actual_path files).
Proof.
  unfold process_files. generalize (@nil (pystr * pystr)).
  induction files as [|file rest IH]; intros pcd_files; simpl.
  - apply grows_ret.
  - apply grows_mbind; [|intros ?; apply IH].
    unfold process_file. grows.
Qed.

Lemma grows_listdir_if d keep : grows (listdir_if d keep).
Proof. unfold listdir_if. grows. Qed.

#[local] Hint Resolve grows_process_files grows_listdir_if : grows.

Lemma grows_validate_velodyne_points root actual_path files :
  grows (validate_velodyne_points root actual_path files).
Proof. unfold validate_velodyne_points. grows. Qed.

Lemma grows_validate_pointcloud root actual_path files :
  grows (validate_pointcloud root actual_path files).
Proof. unfold validate_pointcloud. grows. Qed.

Lemma grows_validate_default root actual_path files :
  grows (validate_default root actual_path files).
Proof. unfold validate_default. grows. Qed.

#[local] Hint Resolve grows_validate_velodyne_points
  grows_validate_pointcloud grows_validate_default : grows.

Lemma grows_validate_root actual_path root :
  grows (validate_root actual_path root).
Proof. unfold validate_root. grows. Qed.

(** X16: a [validate] that completes forgets nothing: the path is the
    same, [converted_files] starts with what it held, and every key of
    [related_files] and of [image_files] is still a key. *)
Theorem validate_forgets_nothing :
  forall (w w' : World) (self self' : ValidateDimension),
    validate (w, self) = Ok (tt, (w', self')) ->
    path self' = path self /\
    (exists more, converted_files self' = converted_files self ++ more) /\
    incl (dict_keys (related_files self)) (dict_keys (related_files self')) /\
    incl (dict_keys (image_files self)) (dict_keys (image_files self')).
Proof.
  intros w w' self self' Hv.
  assert (G : grows validate).
  { unfold validate. apply grows_mbind; [apply grows_self_get|].
    intros [[|c actual_path]|]; try apply grows_ret.
    apply grows_mbind; [apply grows_ask|]. intros roots.
    apply grows_mbind; [apply grows_for_; intros root; apply grows_validate_root|].
    intros _. apply grows_mbind; [apply grows_self_get|]. intros related.
    destruct (dict_keys related); [apply grows_ret|].
    intros s a s' [= _ <-]. cbn. repeat split; try apply incl_refl.
    exists []. now rewrite app_nil_r. }
  exact (G (w, self) tt (w', self') Hv).
Qed.

End ValidateKeeps.

(** ** Media types: [get_mime] and the readers built on it *)

(** [mimetypes.guess_type] of cvat.apps.engine.mime_types: the type and the
    encoding guessed from a name, each possibly None. *)
Class Mime : Type := {
  guess_type : pystr -> option pystr * option pystr
}.

(** [x in l] for an [x] that may be None. *)
Definition is_in (x : option pystr) (l : list pystr) : bool :=
  match x with
  | Some s => existsb (fun y => str_eqb y s) l
  | None => false
  end.

(** The classes named as extractors in MEDIA_TYPES. *)
Inductive extractor_class : Type :=
| ImageListReader_class
| VideoReader_class
| ArchiveReader_class
| DirectoryReader_class
| PdfReader_class
| ZipReader_class.

Section Classify.
Context `{OS} `{Mime}.

Definition _is_archive (path : pystr) : bool :=
  let mime := guess_type path in
  let mime_type := fst mime in
  let encoding := snd mime in
  let supportedArchives :=
    map str_of ["application/x-rar-compressed"; "application/x-tar";
                "application/x-7z-compressed"; "application/x-cpio";
                "gzip"; "bzip2"]%string in
  is_in mime_type supportedArchives || is_in encoding supportedArchives.

Definition _is_video (path : pystr) : bool :=
  let mime := guess_type path in
  match fst mime with
  | Some t => startswith t (str_of "video")
  | None => false
  end.

Definition _is_image (path : pystr) : bool :=
  let mime := guess_type path in
  match fst mime with
  | Some t =>
      startswith t (str_of "image") && negb (startswith t (str_of "image/svg"))
  | None => false
  end.

Definition _is_dir (w : World) (path : pystr) : bool := isdir w path.

Definition _is_pdf (path : pystr) : bool :=
  let mime := guess_type path in
  match fst mime with
  | Some t => str_eqb t (str_of "application/pdf")
  | None => false
  end.

Definition _is_zip (path : pystr) : bool :=
  let mime := guess_type path in
  let mime_type := fst mime in
  let encoding := snd mime in
  let supportedArchives := map str_of ["application/zip"]%string in
  is_in mime_type supportedArchives || is_in encoding supportedArchives.

(** An entry of MEDIA_TYPES. Only [_is_dir] looks at the file system. *)
Record media_type : Type := {
  has_mime_type : World -> pystr -> bool;
  extractor : extractor_class;
  mode : pystr;
  unique : bool
}.

Definition MEDIA_TYPES : dict media_type :=
  [ (str_of "image",
     {| has_mime_type := fun _ => _is_image;
        extractor := ImageListReader_class;
        mode := str_of "annotation";
        unique := false |});
    (str_of "video",
     {| has_mime_type := fun _ => _is_video;
        extractor := VideoReader_class;
        mode := str_of "interpolation";
        unique := true |});
    (str_of "archive",
     {| has_mime_type := fun _ => _is_archive;
        extractor := ArchiveReader_class;
        mode := str_of "annotation";
        unique := true |});
    (str_of "directory",
     {| has_mime_type := _is_dir;
        extractor := DirectoryReader_class;
        mode := str_of "annotation";
        unique := false |});
    (str_of "pdf",
     {| has_mime_type := fun _ => _is_pdf;
        extractor := PdfReader_class;
        mode := str_of "annotation";
        unique := true |});
    (str_of "zip",
     {| has_mime_type := fun _ => _is_zip;
        extractor := ZipReader_class;
        mode := str_of "annotation";
        unique := true |}) ].

(** The loop of [get_mime] over the items of a dictionary of types. *)
Fixpoint first_type (types : dict media_type) (w : World) (name : pystr)
    : option pystr :=
  match types with
  | [] => None
  | (type_name, type_def) :: rest =>
      if has_mime_type type_def w name then Some type_name
      else first_type rest w name
  end.

Definition get_mime (w : World) (name : pystr) : pystr :=
  match first_type MEDIA_TYPES w name with
  | Some type_name => type_name
  | None => str_of "unknown"
  end.

(** [DirectoryReader.__init__]: the image files under the sources, then
    [ImageListReader.__init__] on them. *)
Definition DirectoryReader_image_paths (w : World) (source_path : list pystr)
    : list pystr :=
  flat_map (fun source =>
    flat_map (fun root =>
                let paths := map (fun f => join root f) (walk_files w root) in
                filter (fun x => str_eqb (get_mime w x) (str_of "image")) paths)
             (walk_roots w source))
    source_path.

Definition DirectoryReader_init (w : World) (source_path : list pystr)
    (step start : Z) (stop : option Z) : result IMediaReader :=
  ImageListReader_init (DirectoryReader_image_paths w source_path)
    step start stop.

Lemma image_is_not_video (name : pystr) :
  _is_image name = true -> _is_video name = false.
Proof.
  unfold _is_image, _is_video. cbv zeta.
  destruct (fst (guess_type name)) as [[|c t]|]; try discriminate.
  cbn. destruct (N.eqb_spec c 105) as [->|]; [reflexivity|discriminate].
Qed.

Lemma startswith_eq (t prefix : pystr) :
  str_eqb t prefix = true -> forall q, startswith t q = startswith prefix q.
Proof. intros E q. apply str_eqb_eq in E. now subst. Qed.

Lemma pdf_is_no_picture (name : pystr) :
  _is_pdf name = true -> _is_image name = false /\ _is_video name = false.
Proof.
  unfold _is_pdf, _is_image, _is_video. cbv zeta.
  destruct (fst (guess_type name)) as [t|]; [|discriminate].
  intros E.
  rewrite (startswith_eq _ _ E (str_of "image")).
  rewrite (startswith_eq _ _ E (str_of "video")). now split.
Qed.

Lemma get_mime_table_image (w : World) (name : pystr) :
  get_mime w name = str_of "image" ->
  _is_image name = true /\ _is_video name = false.
Proof.
  intros Hm. assert (Hi : _is_image name = true).
  { revert Hm. unfold get_mime, MEDIA_TYPES. cbn [first_type has_mime_type].
    destruct (_is_image name); [reflexivity|].
    destruct (_is_video name); [discriminate|].
    destruct (_is_archive name); [discriminate|].
    destruct (_is_dir w name); [discriminate|].
    destruct (_is_pdf name); [discriminate|].
    destruct (_is_zip name); discriminate. }
  split; [exact Hi|now apply image_is_not_video].
Qed.

(** X17: [get_mime] answers with one of seven names, by the first test of
    MEDIA_TYPES that holds. It says image exactly when the guessed type
    starts with "image" but not with "image/svg", and video exactly when
    the type starts with "video"; archive comes before directory, so a
    directory named like an archive is an archive; pdf and zip are given
    only to what is neither an archive nor a directory. *)
Theorem get_mime_table :
  forall (w : World) (name : pystr),
    In (get_mime w name)
       (map str_of ["image"; "video"; "archive"; "directory"; "pdf"; "zip";
                    "unknown"]%string) /\
    (get_mime w name = str_of "image" <-> _is_image name = true) /\
    (get_mime w name = str_of "video" <-> _is_video name = true) /\
    (get_mime w name = str_of "archive" <->
       _is_archive name = true /\ _is_image name = false /\
       _is_video name = false) /\
    (get_mime w name = str_of "directory" <->
       _is_dir w name = true /\ _is_archive name = false /\
       _is_image name = false /\ _is_video name = false) /\
    (get_mime w name = str_of "pdf" <->
       _is_pdf name = true /\ _is_archive name = false /\
       _is_dir w name = false) /\
    (get_mime w name = str_of "zip" <->
       _is_zip name = true /\ _is_pdf name = false /\
       _is_archive name = false /\ _is_dir w name = false /\
       _is_image name = false /\ _is_video name = false) /\
    (get_mime w name = str_of "unknown" <->
       _is_image name = false /\ _is_video name = false /\
       _is_archive name = false /\ _is_dir w name = false /\
       _is_pdf name = false /\ _is_zip name = false).
Proof.
  intros w name.
  pose proof (image_is_not_video name) as Hiv.
  pose proof (pdf_is_no_picture name) as Hpdf.
  unfold get_mime, MEDIA_TYPES. cbn [first_type has_mime_type].
  destruct (_is_image name); [specialize (Hiv eq_refl)|clear Hiv];
    destruct (_is_video name); try discriminate;
    destruct (_is_archive name); destruct (_is_dir w name);
    destruct (_is_pdf name);
    try (destruct (Hpdf eq_refl); discriminate);
    destruct (_is_zip name);
    (split; [cbn; tauto|]);
    repeat split; intros; repeat match goal with H : _ /\ _ |- _ => destruct H end;
    first [reflexivity | discriminate].
Qed.

Lemma DirectoryReader_image_paths_in (w : World) (source_path : list pystr)
    (p : pystr) :
  In p (DirectoryReader_image_paths w source_path) <->
  exists source root f,
    In source source_path /\ In root (walk_roots w source) /\
    In f (walk_files w root) /\ p = join root f /\
    get_mime w p = str_of "image".
Proof.
  unfold DirectoryReader_image_paths. rewrite in_flat_map. split.
  - intros (source & Hs & Hin). apply in_flat_map in Hin.
    destruct Hin as (root & Hr & Hin). cbv zeta in Hin.
    apply filter_In in Hin. destruct Hin as [Hin Hm].
    apply in_map_iff in Hin. destruct Hin as (f & <- & Hf).
    apply str_eqb_eq in Hm. now exists source, root, f.
  - intros (source & root & f & Hs & Hr & Hf & -> & Hm).
    exists source. split; [exact Hs|]. apply in_flat_map.
    exists root. split; [exact Hr|]. cbv zeta. apply filter_In. split.
    + apply in_map_iff. now exists f.
    + now apply str_eqb_eq.
Qed.

(** X18: a DirectoryReader yields only files found by the walk of its
    sources that [get_mime] calls image, so never a vector image or a
    video; and it is refused with 'No image found' exactly when the walk
    finds no such file. *)
Theorem DirectoryReader_yields_images_only :
  forall (w : World) (source_path : list pystr) (step start : Z)
         (stop : option Z),
    (DirectoryReader_init w source_path step start stop
       = Raise (Exception "No image found") <->
     DirectoryReader_image_paths w source_path = []) /\
    forall r image p i,
      DirectoryReader_init w source_path step start stop = Ok r ->
      In (image, p, i) (fst (ImageListReader_iter r)) ->
      image = p /\
      _is_image p = true /\ _is_video p = false /\
      exists source root f,
        In source source_path /\ In root (walk_roots w source) /\
        In f (walk_files w root) /\ p = join root f.
Proof.
  intros w source_path step start stop. unfold DirectoryReader_init. split.
  - unfold ImageListReader_init.
    destruct (DirectoryReader_image_paths w source_path) as [|q qs].
    + now split.
    + split; [|discriminate].
      match goal with |- context [if ?c then _ else _] => destruct c end;
        discriminate.
  - intros r image p i Hinit Hin.
    apply ImageListReader_init_ok in Hinit. destruct Hinit as (_ & _ & ->).
    unfold ImageListReader_iter in Hin.
    destruct (frame_range _) as [idx|e]; [|destruct Hin].
    apply gen_for_yields in Hin. destruct Hin as (j & _ & Hj).
    unfold get_image, get_path in Hj. cbn [_source_path IMediaReader_init] in Hj.
    destruct (getitem _ j) as [q|e] eqn:G; [|discriminate].
    cbn [bind] in Hj. injection Hj as <- <- <-.
    apply getitem_In, sorted_in, DirectoryReader_image_paths_in in G.
    destruct G as (source & root & f & Hs & Hr & Hf & -> & Hm).
    destruct (get_mime_table_image w (join root f) Hm) as [Hi Hv].
    split; [reflexivity|]. split; [exact Hi|]. split; [exact Hv|].
    now exists source, root, f.
Qed.

End Classify.

(** ** ZipReader *)

Section Zip.
Context `{Env} `{OS} `{Mime}.

(** An open zipfile.ZipFile: its [filename], None when it was opened on a
    file object, and its members in the order of [namelist()], each with
    what reading it gives: its bytes, or the error of a member that is
    damaged or encrypted (BadZipFile, RuntimeError). *)
Record ZipFile : Type := {
  filename : option pystr;
  members : list (pystr * result bytes)
}.

Definition namelist (z : ZipFile) : list pystr := map fst (members z).

(** [z.read(name)]: the member written last under that name; a name that
    is not in the archive is a KeyError. *)
Definition ZipFile_read (z : ZipFile) (name : pystr) : result bytes :=
  match find (fun m => str_eqb (fst m) name) (rev (members z)) with
  | Some m => snd m
  | None => Raise KeyError
  end.

(** A ZipReader: the fields of IMediaReader with [_dimension],
    [_zip_source] and [extract_dir]. *)
Record ZipReader : Type := {
  zip_reader : IMediaReader;
  zip_dimension : DimensionType;
  zip_source : ZipFile;
  zip_extract_dir : option pystr
}.

(** [ZipReader.__init__], with [ZipFile_a] for
    [zipfile.ZipFile(path, mode='a')]. *)
Definition ZipReader_init (w : World) (ZipFile_a : pystr -> result ZipFile)
    (source_path : list pystr) (step start : Z) (stop : option Z)
    : result ZipReader :=
  archive_path <- getitem source_path 0 ;;
  _zip_source <- ZipFile_a archive_path ;;
  extract_dir <- (if 1 <? len source_path
                  then p <- getitem source_path 1 ;; Ok (Some p)
                  else Ok None) ;;
  let file_list :=
    filter (fun f => str_eqb (get_mime w f) (str_of "image"))
           (namelist _zip_source) in
  r <- ImageListReader_init file_list step start stop ;;
  Ok {| zip_reader := r;
        zip_dimension := DIM_2D;
        zip_source := _zip_source;
        zip_extract_dir := extract_dir |}.

(** [reconcile]: another list of files, window and dimension on the same
    archive. *)
Definition ZipReader_reconcile (self : ZipReader) (source_files : list pystr)
    (step start : Z) (stop : option Z) (dimension : DimensionType)
    : result ZipReader :=
  r <- ImageListReader_init source_files step start stop ;;
  Ok {| zip_reader := r;
        zip_dimension := dimension;
        zip_source := zip_source self;
        zip_extract_dir := zip_extract_dir self |}.

Definition ZipReader_get_image (self : ZipReader) (i : Z) : result Image :=
  name <- getitem (_source_path (zip_reader self)) i ;;
  b <- ZipFile_read (zip_source self) name ;;
  Ok (BytesIO b).

(** Truth value of a [str] that may be None. *)
Definition nonempty (s : option pystr) : bool :=
  match s with
  | Some (_ :: _) => true
  | _ => false
  end.

Definition ZipReader_get_path (self : ZipReader) (i : Z) : result pystr :=
  match filename (zip_source self) with
  | Some (c :: rest) =>
      match zip_extract_dir self with
      | Some (d :: extract_dir) =>
          name <- getitem (_source_path (zip_reader self)) i ;;
          Ok (join (d :: extract_dir) name)
      | _ =>
          name <- getitem (_source_path (zip_reader self)) i ;;
          Ok (join (fst (path_split (c :: rest))) name)
      end
  | _ => getitem (_source_path (zip_reader self)) i
  end.

(** [ImageListReader.__iter__] on a ZipReader. *)
Definition ZipReader_iter (self : ZipReader) : gen (Image * pystr * Z) :=
  match frame_range (zip_reader self) with
  | Raise e => ([], Some e)
  | Ok idx =>
      gen_for (fun i => image <- ZipReader_get_image self i ;;
                        p <- ZipReader_get_path self i ;;
                        Ok (image, p, i)) idx
  end.

Definition ZipReader_get_image_size (self : ZipReader) (i : Z)
    : result (Z * Z) :=
  match zip_dimension self with
  | DIM_3D =>
      name <- getitem (_source_path (zip_reader self)) i ;;
      file <- ZipFile_read (zip_source self) name ;;
      properties <- get_pcd_properties (map BytesLine (readlines file)) false ;;
      match properties with
      | Properties kv =>
          w <- (v <- dict_item kv (str_of "WIDTH") ;; py_int v) ;;
          h <- (v <- dict_item kv (str_of "HEIGHT") ;; py_int v) ;;
          Ok (w, h)
      | _ => Raise TypeError
      end
  | DIM_2D =>
      name <- getitem (_source_path (zip_reader self)) i ;;
      b <- ZipFile_read (zip_source self) name ;;
      img <- Image_open (inl b) ;;
      Ok (image_size img)
  end.

Lemma ZipFile_read_member (z : ZipFile) (name : pystr) :
  In name (namelist z) -> In (name, ZipFile_read z name) (members z).
Proof.
  intros Hin. unfold ZipFile_read.
  destruct (find _ (rev (members z))) as [[n r]|] eqn:E.
  - apply find_some in E. destruct E as [Hm He]. cbn [fst] in He.
    apply str_eqb_eq in He. subst n. cbn [snd]. now apply in_rev.
  - exfalso. unfold namelist in Hin. apply in_map_iff in Hin.
    destruct Hin as ([n r] & <- & Hm).
    apply in_rev in Hm. pose proof (find_none _ _ E (n, r) Hm) as F.
    cbn [fst] in F. rewrite str_eqb_refl in F. discriminate.
Qed.

Lemma gen_for_raises {A B} (f : A -> result B) (l : list A) (e : exn) :
  snd (gen_for f l) = Some e -> exists x, In x l /\ f x = Raise e.
Proof.
  induction l as [|x t IH]; simpl; [discriminate|].
  destruct (f x) as [y|e'] eqn:E.
  - cbn [gen_cons snd]. intros Hs. destruct (IH Hs) as (x' & Hx & Hf).
    exists x'. auto.
  - cbn [snd]. intros [= ->]. exists x. auto.
Qed.

Lemma pcd_passthrough_bytes (b : bytes) (w h : Z) (buf : bytes) :
  pcd_passthrough (BytesIO b) = Ok (w, h, buf) ->
  buf = b /\
  (properties <- get_pcd_properties (map BytesLine (readlines b)) false ;;
   match properties with
   | Properties kv =>
       w <- (v <- dict_item kv (str_of "WIDTH") ;; py_int v) ;;
       h <- (v <- dict_item kv (str_of "HEIGHT") ;; py_int v) ;;
       Ok (w, h)
   | _ => Raise TypeError
   end) = Ok (w, h).
Proof.
  unfold pcd_passthrough. cbn [bind].
  destruct (get_pcd_properties _ false) as [[kv| |]|e]; try discriminate.
  cbn [bind].
  destruct (dict_item kv (str_of "WIDTH")) as [sw|]; [|discriminate].
  cbn [bind]. destruct (py_int sw) as [w'|]; [|discriminate]. cbn [bind].
  destruct (dict_item kv (str_of "HEIGHT")) as [sh|]; [|discriminate].
  cbn [bind]. destruct (py_int sh) as [h'|]; [|discriminate]. cbn [bind].
  now intros [= <- <- <-].
Qed.

(** X19: point clouds read from a zip and written to a compressed chunk in
    3D mode: the sizes the writer returns are, frame by frame, the sizes
    [get_image_size] of the reader gives for the same indices, and the chunk
    holds the bytes of the members of the zip unchanged. *)
Theorem ZipReader_sizes_agree_with_chunk_writer :
  forall (reader : ZipReader) (self : ChunkWriter)
         (items : list (Image * pystr * Z)) (chunk_path : pystr)
         (zip_chunk : archive) (sizes : list (Z * Z)),
    zip_dimension reader = DIM_3D ->
    _dimension self = Some DIM_3D ->
    fst (ZipReader_iter reader) = items ->
    ZipCompressedChunkWriter_save_as_chunk self items chunk_path
      = Ok (zip_chunk, sizes) ->
    Forall2 (fun item size =>
               ZipReader_get_image_size reader (snd item) = Ok size)
            items sizes /\
    Forall2 (fun item member =>
               exists name,
                 getitem (_source_path (zip_reader reader)) (snd item) = Ok name /\
                 ZipFile_read (zip_source reader) name = Ok (snd member))
            items zip_chunk.
Proof.
  intros reader self items chunk_path zip_chunk sizes H3 Hd Hitems.
  unfold ZipCompressedChunkWriter_save_as_chunk.
  destruct (ZipFile_x chunk_path); [|discriminate]. cbn [bind].
  match goal with
  | |- context [for_each ?f ?l] => destruct (for_each f l) as [written|e] eqn:E
  end; [|discriminate].
  cbn [bind]. intros [= <- <-].
  apply for_each_Forall2 in E.
  assert (Hall : Forall (fun item =>
             exists name b,
               getitem (_source_path (zip_reader reader)) (snd item) = Ok name /\
               ZipFile_read (zip_source reader) name = Ok b /\
               fst (fst item) = BytesIO b) items).
  { apply Forall_forall. intros [[image p] i] Hin. subst items.
    unfold ZipReader_iter in Hin.
    destruct (frame_range _) as [idx|e]; [|destruct Hin].
    apply gen_for_yields in Hin. destruct Hin as (j & _ & Hj).
    unfold ZipReader_get_image in Hj.
    destruct (getitem _ j) as [name|] eqn:G; [|discriminate]. cbn [bind] in Hj.
    destruct (ZipFile_read _ name) as [b|] eqn:R; [|discriminate].
    cbn [bind] in Hj.
    destruct (ZipReader_get_path reader j) as [q|]; [|discriminate].
    cbn [bind] in Hj. injection Hj as <- <- <-. cbn [fst snd].
    now exists name, b. }
  assert (Hboth : Forall2 (fun item y =>
             ZipReader_get_image_size reader (snd item) = Ok (fst y) /\
             exists name,
               getitem (_source_path (zip_reader reader)) (snd item) = Ok name /\
               ZipFile_read (zip_source reader) name = Ok (snd (snd y)))
            items written).
  { clear Hitems. revert written E Hall. generalize 0.
    induction items as [|item items IH]; intros n written E Hall.
    - inversion E. constructor.
    - cbn [enumerate] in E. inversion E as [|x y l l' Hxy Hrest]; subst.
      inversion Hall as [|? ? Hitem Hall']; subst.
      constructor; [|now apply (IH (n + 1))].
      destruct item as [[image p] i]. cbn [fst snd] in *.
      destruct Hitem as (name & b & Hg & Hr & ->).
      unfold compress_frame in Hxy. rewrite Hd in Hxy.
      cbn [attr bind DimensionType_eqb] in Hxy.
      destruct (pcd_passthrough (BytesIO b)) as [[[w h] buf]|e] eqn:P;
        [|discriminate].
      cbn [bind] in Hxy. injection Hxy as <-. cbn [fst snd].
      apply pcd_passthrough_bytes in P. destruct P as [-> P].
      split.
      + unfold ZipReader_get_image_size. rewrite H3, Hg. cbn [bind].
        rewrite Hr. cbn [bind]. exact P.
      + now exists name. }
  split.
  - clear E Hall Hitems. induction Hboth as [|item y items written [Hs _] _ IH];
      cbn [map]; constructor; assumption.
  - clear E Hall Hitems. induction Hboth as [|item y items written [_ Hm] _ IH];
      cbn [map]; constructor; assumption.
Qed.

(** X20: a ZipReader as its constructor leaves it, with a start that is
    not negative, is in 2D mode. Every item it yields is the bytes the
    archive gives for a member whose name [get_mime] calls image. The
    iteration never fails for a name or an index that is missing: when it
    ends with an error, that is the error of reading a listed image member,
    so it ends without one when every image member can be read. *)
Theorem ZipReader_yields_image_members :
  forall (w : World) (ZipFile_a : pystr -> result ZipFile)
         (source_path : list pystr) (step start : Z) (stop : option Z)
         (reader : ZipReader),
    ZipReader_init w ZipFile_a source_path step start stop = Ok reader ->
    0 <= start ->
    zip_dimension reader = DIM_2D /\
    (forall image p i,
        In (image, p, i) (fst (ZipReader_iter reader)) ->
        exists name b,
          In (name, Ok b) (members (zip_source reader)) /\
          get_mime w name = str_of "image" /\
          ZipFile_read (zip_source reader) name = Ok b /\
          image = BytesIO b) /\
    (forall e,
        snd (ZipReader_iter reader) = Some e ->
        exists name,
          In (name, Raise e) (members (zip_source reader)) /\
          get_mime w name = str_of "image" /\
          ZipFile_read (zip_source reader) name = Raise e) /\
    ((forall name e,
         get_mime w name = str_of "image" ->
         ~ In (name, Raise e) (members (zip_source reader))) ->
     snd (ZipReader_iter reader) = None).
Proof.
  intros w ZipFile_a source_path step start stop reader Hinit Hstart.
  unfold ZipReader_init in Hinit.
  destruct (getitem source_path 0) as [archive_path|]; [|discriminate].
  cbn [bind] in Hinit.
  destruct (ZipFile_a archive_path) as [z|]; [|discriminate].
  cbn [bind] in Hinit.
  match type of Hinit with
  | context [bind ?m _] => destruct m as [extract_dir|]
  end; [|discriminate].
  cbn [bind] in Hinit.
  set (file_list := filter _ (namelist z)) in Hinit.
  destruct (ImageListReader_init file_list step start stop) as [r|] eqn:R;
    [|discriminate].
  cbn [bind] in Hinit. injection Hinit as <-.
  split; [reflexivity|].
  apply ImageListReader_init_ok in R. destruct R as (_ & Hlt & ->).
  set (e := effective_stop file_list stop) in *.
  assert (He : e <= len file_list).
  { unfold e, effective_stop. destruct stop; lia. }
  assert (Hs : 0 < Z.max step 1) by lia.
  unfold ZipReader_iter, frame_range, py_range.
  cbn [zip_reader zip_source IMediaReader_init _stop _start _step].
  destruct (Z.eqb_spec (Z.max step 1) 0); [lia|].
  fold (progression start (Z.max step 1)
          (Z.to_nat (range_len start e (Z.max step 1)))).
  assert (Hidx : forall j,
             In j (progression start (Z.max step 1)
                     (Z.to_nat (range_len start e (Z.max step 1)))) ->
             exists name,
               getitem (sorted file_list) j = Ok name /\
               In (name, ZipFile_read z name) (members z) /\
               get_mime w name = str_of "image").
  { intros j Hj. apply progression_in in Hj. destruct Hj as (k & Hk & ->).
    pose proof (range_len_ceil start e _ Hs Hlt) as Hlen.
    pose proof (ceil_div_spec (e - start) _ Hs) as Hc.
    rewrite Hlen in Hk.
    destruct (getitem_in_range (sorted file_list)
                (start + Z.of_nat k * Z.max step 1)) as [name Hn].
    { unfold len. rewrite sorted_length. fold (len file_list). nia. }
    pose proof (getitem_In _ _ _ Hn) as Hin.
    apply (proj1 (sorted_in _ _)) in Hin. unfold file_list in Hin.
    apply filter_In in Hin. destruct Hin as [Hnl Hm].
    apply str_eqb_eq in Hm.
    exists name. split; [exact Hn|]. split; [|exact Hm].
    now apply ZipFile_read_member. }
  assert (Hraise : forall e',
             snd (gen_for
                    (fun i =>
                       image <- ZipReader_get_image
                                  {| zip_reader :=
                                       IMediaReader_init file_list
                                         (Z.max step 1) start (Some e);
                                     zip_dimension := DIM_2D;
                                     zip_source := z;
                                     zip_extract_dir := extract_dir |} i ;;
                       p <- ZipReader_get_path
                              {| zip_reader :=
                                   IMediaReader_init file_list
                                     (Z.max step 1) start (Some e);
                                 zip_dimension := DIM_2D;
                                 zip_source := z;
                                 zip_extract_dir := extract_dir |} i ;;
                       Ok (image, p, i))
                    (progression start (Z.max step 1)
                       (Z.to_nat (range_len start e (Z.max step 1)))))
               = Some e' ->
             exists name,
               In (name, Raise e') (members z) /\
               get_mime w name = str_of "image" /\
               ZipFile_read z name = Raise e').
  { intros e' Hsnd. apply gen_for_raises in Hsnd.
    destruct Hsnd as (j & Hj & Hf).
    destruct (Hidx j Hj) as (name & Hg & Hmem & Hm).
    unfold ZipReader_get_image, ZipReader_get_path in Hf.
    cbn [zip_reader zip_source zip_extract_dir _source_path IMediaReader_init]
      in Hf.
    rewrite Hg in Hf. cbn [bind] in Hf.
    destruct (ZipFile_read z name) as [b|e''] eqn:Hr.
    - cbn [bind] in Hf. exfalso.
      destruct (filename z) as [[|c fn]|];
        try destruct extract_dir as [[|d ed]|];
        rewrite ?Hg in Hf; discriminate.
    - cbn [bind] in Hf. injection Hf as ->. now exists name. }
  split; [|split].
  - intros image p i Hin. apply gen_for_yields in Hin.
    destruct Hin as (j & Hj & Hy).
    destruct (Hidx j Hj) as (name & Hg & Hmem & Hm).
    unfold ZipReader_get_image in Hy.
    cbn [zip_reader zip_source _source_path IMediaReader_init] in Hy.
    rewrite Hg in Hy. cbn [bind] in Hy.
    destruct (ZipFile_read z name) as [b|] eqn:Hr; [|discriminate].
    cbn [bind] in Hy.
    destruct (ZipReader_get_path _ j); [|discriminate].
    cbn [bind] in Hy. injection Hy as <- _ _.
    exists name, b. auto.
  - exact Hraise.
  - intros Hall.
    match goal with
    | |- snd ?g = None =>
        pose proof (fun e' => Hraise e' : snd g = Some e' -> _) as Hr;
        destruct (snd g) as [e'|]; [|reflexivity]
    end.
    exfalso. destruct (Hr e' eq_refl) as (name & Hmem & Hm & _).
    exact (Hall name e' Hm Hmem).
Qed.

End Zip.
(** ** Names of the members of a chunk *)

Definition is_digit (c : N) : bool := ((48 <=? c) && (c <=? 57))%N.

(** A string that does not go on with a digit. *)
Definition starts_without_digit (s : pystr) : bool :=
  match s with
  | [] => true
  | c :: _ => negb (is_digit c)
  end.

(** The number a string of decimal digits denotes after [acc]. *)
Fixpoint decimal_value (s : pystr) (acc : N) : N :=
  match s with
  | [] => acc
  | c :: t => decimal_value t (10 * acc + (c - 48))%N
  end.

Ltac digit_value :=
  match goal with
  | |- context [N_of_ascii ?c] =>
      let v := eval vm_compute in (N_of_ascii c) in
      change (N_of_ascii c) with v; lia
  end.

Lemma uint_digits (d : Decimal.uint) :
  forallb is_digit (str_of (NilEmpty.string_of_uint d)) = true.
Proof. induction d; cbn; auto. Qed.

Lemma uint_value_acc (d : Decimal.uint) (acc : positive) :
  decimal_value (str_of (NilEmpty.string_of_uint d)) (N.pos acc)
  = N.pos (Pos.of_uint_acc d acc).
Proof.
  revert acc. induction d; intros acc; cbn [NilEmpty.string_of_uint str_of
    list_ascii_of_string map decimal_value Pos.of_uint_acc];
    [reflexivity|..];
    match goal with
    | |- decimal_value _ ?a = N.pos (Pos.of_uint_acc _ ?b) =>
        replace a with (N.pos b) by digit_value
    end; apply IHd.
Qed.

Lemma uint_value (d : Decimal.uint) :
  decimal_value (str_of (NilEmpty.string_of_uint d)) 0 = Pos.of_uint d.
Proof.
  induction d; cbn [NilEmpty.string_of_uint str_of list_ascii_of_string map
    decimal_value Pos.of_uint]; [reflexivity|exact IHd|..];
    match goal with
    | |- decimal_value _ ?a = N.pos (Pos.of_uint_acc _ ?b) =>
        replace a with (N.pos b) by digit_value
    end; apply uint_value_acc.
Qed.

Lemma str_of_int_value (n : Z) :
  0 <= n ->
  decimal_value (str_of_int n) 0 = Z.to_N n /\
  forallb is_digit (str_of_int n) = true.
Proof.
  intros Hn. unfold str_of_int. destruct n as [|p|p]; [now split| |lia].
  cbn [Z.to_int NilZero.string_of_int Z.to_N].
  assert (E : NilZero.string_of_uint (Pos.to_uint p)
              = NilEmpty.string_of_uint (Pos.to_uint p)).
  { pose proof (DecimalPos.Unsigned.to_uint_nonnil p) as Hnil.
    now destruct (Pos.to_uint p). }
  rewrite E. split; [|apply uint_digits].
  rewrite uint_value. apply DecimalPos.Unsigned.of_to.
Qed.

Lemma decimal_value_zeros (k : nat) (s : pystr) :
  decimal_value (repeat 48%N k ++ s) 0 = decimal_value s 0.
Proof. induction k; [reflexivity|exact IHk]. Qed.

Lemma format_06d_value (n : Z) :
  0 <= n ->
  decimal_value (format_06d n) 0 = Z.to_N n /\
  forallb is_digit (format_06d n) = true.
Proof.
  intros Hn. destruct (str_of_int_value n Hn) as [Hv Hd].
  unfold format_06d. cbv zeta. split.
  - now rewrite decimal_value_zeros.
  - rewrite forallb_app, Hd, andb_true_r.
    generalize (6 - List.length (str_of_int n))%nat as k.
    induction k; [reflexivity|exact IHk].
Qed.

Lemma format_06d_inj (i j : Z) :
  0 <= i -> 0 <= j -> format_06d i = format_06d j -> i = j.
Proof.
  intros Hi Hj E.
  destruct (format_06d_value i Hi) as [Vi _].
  destruct (format_06d_value j Hj) as [Vj _].
  rewrite E, Vj in Vi. lia.
Qed.

(** Digits followed by something else: the digits are determined. *)
Lemma digits_prefix (d1 d2 e1 e2 : pystr) :
  forallb is_digit d1 = true -> forallb is_digit d2 = true ->
  starts_without_digit e1 = true -> starts_without_digit e2 = true ->
  d1 ++ e1 = d2 ++ e2 -> d1 = d2.
Proof.
  revert d2. induction d1 as [|c d1 IH]; intros [|c' d2] H1 H2 N1 N2 E.
  - reflexivity.
  - cbn in E. subst e1. cbn in N1, H2.
    apply andb_prop in H2. destruct H2 as [H2 _]. rewrite H2 in N1.
    discriminate.
  - cbn in E. subst e2. cbn in N2, H1.
    apply andb_prop in H1. destruct H1 as [H1 _]. rewrite H1 in N2.
    discriminate.
  - cbn in E, H1, H2. injection E as <- E.
    apply andb_prop in H1. apply andb_prop in H2. f_equal.
    now apply (IH d2).
Qed.

(** A member named by the position of its item and something that does not
    go on with a digit. *)
Definition named_by_index {A} (x : Z * A) (member : pystr * bytes) : Prop :=
  exists e, fst member = format_06d (fst x) ++ e /\
            starts_without_digit e = true.

Lemma named_by_index_distinct {A} (l : list A) :
  forall (n : Z) (ms : archive),
    0 <= n ->
    Forall2 named_by_index (enumerate n l) ms ->
    NoDup (map fst ms) /\
    Forall (fun m => exists i e, n <= i /\ fst m = format_06d i ++ e /\
                                 starts_without_digit e = true) ms.
Proof.
  induction l as [|x l IH]; intros n ms Hn Hall; cbn [enumerate] in Hall.
  - inversion Hall. split; constructor.
  - inversion Hall as [|? m ? ms' Hm Hrest]; subst.
    destruct (IH (n + 1) ms' ltac:(lia) Hrest) as [Hnd Hfrom].
    destruct Hm as (e & He & Hne). cbn [fst] in He.
    split; cbn [map].
    + constructor; [|exact Hnd].
      intros Hin. apply in_map_iff in Hin. destruct Hin as (m' & Hm' & Hin).
      rewrite Forall_forall in Hfrom.
      destruct (Hfrom m' Hin) as (i & e' & Hi & Hname & Hne').
      rewrite He, Hname in Hm'.
      destruct (format_06d_value n Hn) as [_ Dn].
      destruct (format_06d_value i ltac:(lia)) as [_ Di].
      pose proof (digits_prefix _ _ _ _ Di Dn Hne' Hne Hm') as E.
      apply format_06d_inj in E; lia.
    + constructor.
      * exists n, e. split; [lia|]. now split.
      * eapply Forall_impl; [|exact Hfrom].
        intros m' (i & e' & Hi & Hname). exists i, e'. split; [lia|exact Hname].
Qed.

Section ChunkNames.
Context `{Env} {T : Type}.

(** X21: in the archive of a compressed chunk no two members have the same
    name: there is one member and one size per image, each member is named
    by the zero-padded position and the extension jpeg in 2D mode, pcd
    otherwise, and the names are pairwise different. *)
Theorem ZipCompressedChunkWriter_member_names_distinct :
  forall (self : ChunkWriter) (images : list (Image * pystr * T))
         (chunk_path : pystr) (zip_chunk : archive) (sizes : list (Z * Z)),
    ZipCompressedChunkWriter_save_as_chunk self images chunk_path
      = Ok (zip_chunk, sizes) ->
    List.length zip_chunk = List.length images /\
    List.length sizes = List.length images /\
    NoDup (map fst zip_chunk) /\
    exists extension,
      (_dimension self = Some DIM_2D /\ extension = str_of "jpeg" \/
       _dimension self = Some DIM_3D /\ extension = str_of "pcd" \/
       images = []) /\
      Forall2 (fun x member =>
                 fst member = format_06d (fst x) ++ str_of "." ++ extension)
              (enumerate 0 images) zip_chunk.
Proof.
  intros self images chunk_path zip_chunk sizes.
  unfold ZipCompressedChunkWriter_save_as_chunk.
  destruct (ZipFile_x chunk_path); [|discriminate]. cbn [bind].
  match goal with
  | |- context [for_each ?f ?l] => destruct (for_each f l) as [written|e] eqn:E
  end; [|discriminate].
  cbn [bind]. intros [= <- <-].
  apply for_each_Forall2 in E.
  set (extension := match _dimension self with
                    | Some DIM_3D => str_of "pcd"
                    | _ => str_of "jpeg"
                    end).
  assert (Hnames : Forall2 (fun x member =>
              fst member = format_06d (fst x) ++ str_of "." ++ extension)
            (enumerate 0 images) (map snd written)).
  { clear -E. revert E. generalize 0 at 1 2. revert written.
    induction images as [|[[image p] t] images IH]; intros written n E;
      cbn [enumerate] in *.
    - inversion E. constructor.
    - inversion E as [|? y ? ys Hy Hrest]; subst. cbn [map].
      constructor; [|now apply IH].
      cbn [fst]. unfold compress_frame in Hy.
      destruct (_dimension self) as [[|]|]; cbn [attr bind] in Hy;
        [| |discriminate]; cbn [DimensionType_eqb] in Hy.
      + destruct (_compress_image image _) as [[[w h] buf]|]; [|discriminate].
        cbn [bind] in Hy. now injection Hy as <-.
      + destruct (pcd_passthrough image) as [[[w h] buf]|]; [|discriminate].
        cbn [bind] in Hy. now injection Hy as <-. }
  assert (Hlen : List.length written = List.length images).
  { apply Forall2_length in E. rewrite <- E. clear.
    generalize 0. induction images as [|x l IH]; intros n; [reflexivity|].
    cbn [enumerate List.length]. now rewrite IH. }
  rewrite !length_map. split; [exact Hlen|]. split; [exact Hlen|].
  split.
  - apply (named_by_index_distinct images 0 (map snd written)); [lia|].
    eapply Forall2_impl; [|exact Hnames].
    intros x m Hm. exists (str_of "." ++ extension). split; [exact Hm|].
    reflexivity.
  - exists extension. split; [|exact Hnames].
    destruct images as [|[[image p] t] images]; [now right; right|].
    cbn [enumerate] in E. inversion E as [|? y ? ys Hy Hrest]; subst.
    unfold compress_frame in Hy. unfold extension.
    destruct (_dimension self) as [[|]|]; [now left|now right; left|].
    discriminate.
Qed.

(** X22: where [os.path.splitext] gives extensions that are empty or start
    with a dot, no two members of the archive ZipChunkWriter wrote have the
    same name, and there is one member per image. *)
Theorem ZipChunkWriter_member_names_distinct :
  forall (self : ChunkWriter) (images : list (Image * pystr * T))
         (chunk_path : pystr) (zip_chunk : archive) (sizes : list (Z * Z)),
    (forall p, match snd (splitext p) with
               | [] => True
               | c :: _ => c = 46%N
               end) ->
    ZipChunkWriter_save_as_chunk self images chunk_path
      = Ok (zip_chunk, sizes) ->
    List.length zip_chunk = List.length images /\
    NoDup (map fst zip_chunk).
Proof.
  intros self images chunk_path zip_chunk sizes Hext.
  unfold ZipChunkWriter_save_as_chunk.
  destruct (ZipFile_x chunk_path); [|discriminate]. cbn [bind].
  match goal with
  | |- context [for_each ?f ?l] => destruct (for_each f l) as [written|e] eqn:E
  end; [|discriminate].
  cbn [bind]. intros [= <- _].
  apply for_each_Forall2 in E. split.
  - apply Forall2_length in E. rewrite <- E. clear.
    generalize 0. induction images as [|x l IH]; intros n; [reflexivity|].
    cbn [enumerate List.length]. now rewrite IH.
  - apply (named_by_index_distinct images 0 written); [lia|].
    eapply Forall2_impl; [|exact E].
    intros [idx [[image p] t]] [name content] Hx. cbn beta iota in Hx.
    exists (snd (splitext p)). cbn [fst]. split.
    + destruct image as [f|b|q]; [discriminate| |].
      * now injection Hx as <- _.
      * destruct (read_file q); [|discriminate]. cbn [bind] in Hx.
        now injection Hx as <- _.
    + specialize (Hext p). destruct (snd (splitext p)) as [|c e];
        [reflexivity|]. now subst c.
Qed.

End ChunkNames.
(* ===================================================================== *)
(** * Part III: the definitions run on concrete inputs *)
(* ===================================================================== *)

(** ** A small environment

    An array is known by its shape and by how far it has been turned;
    turning by an odd number of quarter turns swaps its sides, and
    reformatting gives it the sides asked for. Nothing exists yet on the
    file system. *)

Record shape : Type := {
  columns : Z;
  rows : Z;
  turned : Z
}.

Definition turn (a : shape) (degrees : Z) : shape :=
  if (degrees / 90) mod 2 =? 0
  then {| columns := columns a; rows := rows a;
          turned := (turned a + degrees) mod 360 |}
  else {| columns := rows a; rows := columns a;
          turned := (turned a + degrees) mod 360 |}.

Fixpoint digits_value (s : pystr) (acc : Z) : result Z :=
  match s with
  | [] => Ok acc
  | c :: t =>
      if ((48 <=? c) && (c <=? 57))%N
      then digits_value t (10 * acc + (Z.of_N c - 48))
      else Raise ValueError
  end.

Definition int_of_digits (s : pystr) : result Z :=
  match s with
  | [] => Raise ValueError
  | _ :: _ => digits_value s 0
  end.

Definition shapes : Env :=
  {| ndarray := shape;
     nd_width := columns;
     nd_height := rows;
     rotate_image := turn;
     reformat := fun a w h =>
                   {| columns := w; rows := h; turned := turned a |};
     py_int := int_of_digits;
     pil_image := shape;
     to_image := fun a => a;
     Image_open := fun _ => Raise FileNotFoundError;
     image_mode := fun _ => str_of "RGB";
     autoscale := fun a => Ok a;
     convert_rgb := fun a => a;
     image_size := fun a => (columns a, rows a);
     save_jpeg := fun a quality => Ok (bytes_of "jpeg");
     path_exists := fun _ => false;
     read_file := fun _ => Raise FileNotFoundError;
     splitext := fun p => (p, []) |}.

#[local] Existing Instance shapes.

Definition frame (w h : Z) (t : Z) : VideoFrame :=
  {| to_ndarray := {| columns := w; rows := h; turned := 0 |};
     pts := Some t;
     time_base := Some (1, 25) |}.

Definition video_stream_of (rotate : option string) : Stream :=
  {| stream_type := str_of "video";
     metadata := match rotate with
                 | Some s => [(str_of "rotate", str_of s)]
                 | None => []
                 end |}.

Definition audio_stream : Stream :=
  {| stream_type := str_of "audio"; metadata := [] |}.

(** Five frames in two video packets, with an audio packet in between. *)
Definition clip (rotate : option string) : Container :=
  {| streams_video := [video_stream_of rotate];
     demux := [ {| stream := video_stream_of rotate;
                   decode := [frame 4 2 0; frame 4 2 10; frame 4 2 20] |};
                {| stream := audio_stream; decode := [] |};
                {| stream := video_stream_of rotate;
                   decode := [frame 4 2 30; frame 4 2 40] |} ] |}.


(** X23 on the clip declared as rotated by 90: every frame comes out
    turned by 270, its sides swapped, with its own pts. *)
Lemma VideoReader_rotation_correction_witness :
  VideoReader_iter (VideoReader_init [str_of "v.mp4"] 2 0 None)
                   (clip (Some "90"%string)) =
  ([({| to_ndarray := {| columns := 2; rows := 4; turned := 270 |};
        pts := Some 0; time_base := None |}, str_of "v.mp4", Some 0);
    ({| to_ndarray := {| columns := 2; rows := 4; turned := 270 |};
        pts := Some 20; time_base := None |}, str_of "v.mp4", Some 20);
    ({| to_ndarray := {| columns := 2; rows := 4; turned := 270 |};
        pts := Some 40; time_base := None |}, str_of "v.mp4", Some 40)], None).
Proof.
  etransitivity.
  - apply (VideoReader_rotation_correction
             (VideoReader_init [str_of "v.mp4"] 2 0 None)
             (clip (Some "90"%string))
             (video_stream_of (Some "90"%string)) (str_of "90") 90
             (str_of "v.mp4")).
    + simpl. lia.
    + reflexivity.
    + reflexivity.
    + reflexivity.
    + discriminate.
    + reflexivity.
    + intros pkt [<-|[<-|[<-|[]]]] Hv; try reflexivity; discriminate.
  - reflexivity.
Defined.

(** Two video streams in one container, each with one packet of one
    frame. *)
Definition two_streams (first second : option string) : Container :=
  {| streams_video := [video_stream_of first; video_stream_of second];
     demux := [ {| stream := video_stream_of first;
                   decode := [frame 4 2 0] |};
                {| stream := video_stream_of second;
                   decode := [frame 4 2 10] |} ] |}.

(** C3 does not hold for a frame of a second video stream: the reader
    tests the frame's own stream for a rotation but turns by what the first
    video stream declares. Where the first stream declares 90 and the
    second 180, the frame of the second comes out turned by 270, not by
    180; where the first declares nothing, the reader ends with TypeError
    at the frame of the second, which it does not yield. *)
Theorem VideoReader_rotation_of_second_stream :
  _decode (VideoReader_init [str_of "v.mp4"] 1 0 None)
          (two_streams (Some "90"%string) (Some "180"%string))
    = ([(rotated (frame 4 2 0) (360 - 90), str_of "v.mp4", Some 0);
        (rotated (frame 4 2 10) (360 - 90), str_of "v.mp4", Some 10)],
       None) /\
  rotated (frame 4 2 10) (360 - 90) <> rotated (frame 4 2 10) (360 - 180) /\
  _decode (VideoReader_init [str_of "v.mp4"] 1 0 None)
          (two_streams None (Some "180"%string))
    = ([(frame 4 2 0, str_of "v.mp4", Some 0)], Some TypeError).
Proof.
  split; [reflexivity|]. split; [|reflexivity].
  intros E. vm_compute in E. discriminate E.
Qed.

Definition items (frames : list VideoFrame) : list (Image * pystr * option Z) :=
  map (fun f => (FrameImage f, str_of "v.mp4", pts f)) frames.

(** A compressed video writer as its constructor leaves it for the public
    quality 50. *)
Definition half_quality : ChunkWriter :=
  {| _image_quality := 26; _dimension := None; _output_fps := Some 25 |}.

Example half_quality_init :
  Mpeg4CompressedChunkWriter_init 50 = Ok half_quality.
Proof. reflexivity. Qed.

(** C5 on a 3840 x 2160 frame: the factor is 4 and the stream 960 x 540. *)
Lemma Mpeg4CompressedChunkWriter_downscale_witness :
  exists container,
    Mpeg4CompressedChunkWriter_save_as_chunk half_quality
        (items [frame 3840 2160 0; frame 3840 2160 1]) (str_of "0.mp4")
      = Ok (container, [(3840, 2160)]) /\
    downscale_factor 2160 1 = 4%positive /\
    stream_width (video_stream container) = 960 /\
    stream_height (video_stream container) = 540.
Proof.
  destruct (Mpeg4CompressedChunkWriter_downscale half_quality
              (frame 3840 2160 0) (str_of "v.mp4") (Some 0)
              (items [frame 3840 2160 1]) (str_of "0.mp4") 25)
    as (k & container & Hk & _ & _ & _ & Hsave & Hw & Hh).
  - reflexivity.
  - reflexivity.
  - exists container. rewrite <- Hk in Hw, Hh.
    repeat split; assumption.
Defined.

(** The test of the loop, [input_h / downscale_factor >= 1080], on
    binary64. *)
Definition loop_test (input_h downscale_factor : Z) : result bool :=
  x <- truediv input_h downscale_factor ;;
  Ok (SFleb (float_of_int 1080) x).

(** At the heights around the thresholds the binary64 test is the exact
    one that [downscale_factor] uses. *)
Example loop_test_thresholds :
  map (fun '(h, f) => loop_test h f)
      [(1079, 1); (1080, 1); (2159, 2); (2160, 2); (4319, 4); (4320, 4)]
  = map (fun '(h, f) => Ok (1080 * f <=? h))
        [(1079, 1); (1080, 1); (2159, 2); (2160, 2); (4319, 4); (4320, 4)].
Proof. reflexivity. Qed.

(** C5 as stated fails: for a 1922 x 1082 frame the factor is 2, and the
    stream is 962 x 542, not 1922 // 2 by 1082 // 2: each side was rounded
    up to an even number on its own. *)
Lemma Mpeg4CompressedChunkWriter_even_sides_counterexample :
  exists container sizes,
    Mpeg4CompressedChunkWriter_save_as_chunk half_quality
        (items [frame 1922 1082 0]) (str_of "0.mp4")
      = Ok (container, sizes) /\
    downscale_factor 1082 1 = 2%positive /\
    stream_width (video_stream container) = 962 /\
    stream_width (video_stream container) <> 1922 / 2 /\
    stream_height (video_stream container) = 542 /\
    stream_height (video_stream container) <> 1082 / 2.
Proof.
  eexists. eexists. split; [reflexivity|].
  repeat split; discriminate.
Qed.

(** The archive writer of compressed chunks on two frames: a size for
    each, in order. *)
Example ZipCompressedChunkWriter_two_frames :
  ZipCompressedChunkWriter_save_as_chunk (IChunkWriter_init 80 DIM_2D)
      (items [frame 4 2 0; frame 6 8 1]) (str_of "0.zip")
    = Ok ([(str_of "000000.jpeg", bytes_of "jpeg");
           (str_of "000001.jpeg", bytes_of "jpeg")],
          [(4, 2); (6, 8)]).
Proof. reflexivity. Qed.


(** C8 in the small environment, where no destination exists yet. *)
Lemma save_as_chunk_no_frames_witness :
  Mpeg4ChunkWriter_save_as_chunk (Mpeg4ChunkWriter_init 70)
      (@nil (Image * pystr * Z)) (str_of "0.mp4")
    = Raise (Exception "no images to save") /\
  ZipChunkWriter_save_as_chunk (IChunkWriter_init 100 DIM_2D)
      (@nil (Image * pystr * Z)) (str_of "0.zip")
    = Ok ([], []).
Proof.
  split.
  - apply (save_as_chunk_no_frames (T := Z) (Mpeg4ChunkWriter_init 70)
             (str_of "0.mp4")).
    reflexivity.
  - apply (save_as_chunk_no_frames (T := Z) (IChunkWriter_init 100 DIM_2D)
             (str_of "0.zip")).
    reflexivity.
Defined.

(** ** A small file system

    The files, by path, with their contents; one directory is walked, no
    path is a directory, and paths are absolute already. *)

Definition files : Type := list (pystr * bytes).

Definition names_in (w : files) (d : pystr) : list pystr :=
  flat_map (fun x =>
              let prefix := d ++ str_of "/" in
              let name := skipn (List.length prefix) (fst x) in
              if startswith (fst x) prefix && negb (existsb (N.eqb 47) name)
              then [name] else [])
           w.

Definition contents (w : files) (p : pystr) : result bytes :=
  match find (fun x => str_eqb (fst x) p) w with
  | Some x => Ok (snd x)
  | None => Raise FileNotFoundError
  end.

Definition flat : OS :=
  {| World := files;
     abspath := fun p => p;
     join := fun a b => a ++ str_of "/" ++ b;
     path_split := fun p => match rsplit_once p 47 with
                            | [a; b] => (a, b)
                            | _ => ([], p)
                            end;
     isdir := fun w p => false;
     isfile := fun w p => existsb (fun x => str_eqb (fst x) p) w;
     listdir := fun w d => Ok (names_in w d);
     walk_roots := fun w top => [top];
     walk_files := names_in;
     open_rb := contents;
     remove := fun w p => Ok (filter (fun x => negb (str_eqb (fst x) p)) w);
     write_point_cloud := fun w p points => w ++ [(p, [])];
     search_image := fun _ => None |}.

#[local] Existing Instance flat.

Definition newline : bytes := ["010"%byte].

(** A point cloud and an image of the same stem in one directory. *)
Definition cloud_and_image : files :=
  [ (str_of "/d/a.pcd",
     bytes_of "VERSION 0.7" ++ newline ++ bytes_of "DATA ascii" ++ newline);
    (str_of "/d/a.jpg", []) ].

(** C9 on that directory: the image is associated with the cloud and the
    dimension is 3D. *)
Lemma validate_dimension_3D_iff_related_files_witness :
  exists w' self',
    validate (H := flat)
        (cloud_and_image, ValidateDimension_init (Some (str_of "/d")))
      = Ok (tt, (w', self')) /\
    related_files self' = [(str_of "a.pcd", [str_of "/d/a.jpg"])] /\
    dimension self' = DIM_3D.
Proof.
  eexists. eexists. split; [vm_compute; reflexivity|].
  split; [reflexivity|].
  apply (validate_dimension_3D_iff_related_files (H := flat)
           cloud_and_image cloud_and_image
           (ValidateDimension_init (Some (str_of "/d")))).
  - simpl. split; [discriminate|intros E; now elim E].
  - vm_compute. reflexivity.
  - discriminate.
Defined.

(** The header of a point cloud with an empty line in it. *)
Definition empty_line_cloud : bytes :=
  bytes_of "VERSION 0.7" ++ newline
  ++ newline
  ++ bytes_of "WIDTH 3" ++ newline
  ++ bytes_of "DATA ascii" ++ newline.

(** C7 does not hold on the code: the handler of [get_pcd_properties]
    catches AttributeError alone, which only a [str] line gives. A header
    with an empty line raises ValueError and bytes that are not UTF-8 raise
    UnicodeDecodeError, with or without the version check, and [validate]
    on a directory with such a .pcd file raises as well instead of taking
    the file for an image. *)
Theorem get_pcd_properties_malformed_header_raises :
  get_pcd_properties (map BytesLine (readlines empty_line_cloud)) false
    = Raise ValueError /\
  get_pcd_properties (map BytesLine (readlines empty_line_cloud)) true
    = Raise ValueError /\
  get_pcd_properties [BytesLine (bytes_of "VERSION")] false
    = Raise ValueError /\
  get_pcd_properties [BytesLine ([xff; xfe] ++ newline)] false
    = Raise UnicodeDecodeError /\
  get_pcd_properties [BytesLine ([xff; xfe] ++ newline)] true
    = Raise UnicodeDecodeError /\
  get_pcd_properties [StrLine (str_of "VERSION 0.7")] true = Ok PcdNone /\
  validate (H := flat)
      ([(str_of "/d/a.pcd", empty_line_cloud)],
       ValidateDimension_init (Some (str_of "/d")))
    = Raise ValueError /\
  validate (H := flat)
      ([(str_of "/d/a.pcd", [xff; xfe] ++ newline)],
       ValidateDimension_init (Some (str_of "/d")))
    = Raise UnicodeDecodeError.
Proof. repeat split; vm_compute; reflexivity. Qed.

(** A directory of images only stays 2D, with nothing associated. *)
Example validate_images_only :
  exists w' self',
    validate (H := flat)
             ([(str_of "/d/a.jpg", []); (str_of "/d/b.png", [])],
              ValidateDimension_init (Some (str_of "/d")))
      = Ok (tt, (w', self')) /\
    related_files self' = [] /\
    dimension self' = DIM_2D.
Proof. eexists. eexists. split; [vm_compute; reflexivity|]. now split. Qed.

(** A velodyne .bin file is converted, and the dataset is 3D. *)
Example validate_bin_file :
  exists w' self',
    validate (H := flat)
             ([(str_of "/d/a.bin", bytes_of "xxxxyyyyzzzziiii")],
              ValidateDimension_init (Some (str_of "/d")))
      = Ok (tt, (w', self')) /\
    w' = [(str_of "/d/a.pcd", [])] /\
    related_files self' = [(str_of "a.pcd", [])] /\
    converted_files self' = [str_of "/d/a.pcd"] /\
    dimension self' = DIM_3D.
Proof. eexists. eexists. split; [vm_compute; reflexivity|]. now repeat split. Qed.

(** ** More runs: readers *)

(** X1 on three paths given out of order. *)
Lemma ImageListReader_yields_sorted_paths_witness :
  exists r,
    ImageListReader_init (map str_of ["b/2.png"; "a/1.png"; "b/1.png"]%string)
        1 0 None = Ok r /\
    yielded_paths (ImageListReader_iter r)
      = map str_of ["a/1.png"; "b/1.png"; "b/2.png"]%string /\
    StronglySorted str_le (yielded_paths (ImageListReader_iter r)).
Proof.
  eexists. split; [reflexivity|]. split; [reflexivity|].
  apply (ImageListReader_yields_sorted_paths
           (map str_of ["b/2.png"; "a/1.png"; "b/1.png"]%string) 1 0 None).
  - reflexivity.
  - lia.
Defined.


(** X3 on the clip: with start 0 the first frame divides by zero; with
    start 7, past the end, nothing is tested. *)
Lemma VideoReader_zero_step_raises_witness :
  _decode (VideoReader_init [str_of "v.mp4"] 0 0 None) (clip None)
    = ([], Some ZeroDivisionError) /\
  _decode (VideoReader_init [str_of "v.mp4"] 0 7 None) (clip None)
    = ([], None).
Proof.
  split.
  - apply (VideoReader_zero_step_raises [str_of "v.mp4"] 0 None (clip None)).
    reflexivity.
  - apply (VideoReader_zero_step_raises [str_of "v.mp4"] 7 None (clip None)).
    vm_compute. discriminate.
Defined.

(** X4 on the clip without rotation, from position 3 on. *)
Lemma VideoReader_plain_frames_unchanged_witness :
  _decode (VideoReader_init [str_of "v.mp4"] 1 3 None) (clip None) =
  ([(frame 4 2 30, str_of "v.mp4", Some 30);
    (frame 4 2 40, str_of "v.mp4", Some 40)], None).
Proof.
  etransitivity.
  - apply (VideoReader_plain_frames_unchanged
             (VideoReader_init [str_of "v.mp4"] 1 3 None) (clip None)
             (str_of "v.mp4")).
    + simpl. lia.
    + reflexivity.
    + intros pkt [<-|[<-|[<-|[]]]] Hv; reflexivity.
  - reflexivity.
Defined.

(** ** More runs: writers *)

(** X6 on a 3840 x 2160 frame: the stream is 540 high. *)
Lemma Mpeg4CompressedChunkWriter_stream_height_witness :
  exists container sizes,
    Mpeg4CompressedChunkWriter_save_as_chunk half_quality
        (items [frame 3840 2160 0]) (str_of "0.mp4")
      = Ok (container, sizes) /\
    stream_height (video_stream container) = 540 /\
    (stream_height (video_stream container) <= 1080 /\
     stream_height (video_stream container) mod 2 = 0 /\
     (1080 <= height (frame 3840 2160 0) ->
      540 <= stream_height (video_stream container)) /\
     (height (frame 3840 2160 0) < 1080 ->
      stream_height (video_stream container)
        = round_up_even (height (frame 3840 2160 0)))).
Proof.
  eexists. eexists. split; [reflexivity|]. split; [reflexivity|].
  eapply (Mpeg4CompressedChunkWriter_stream_height half_quality
           (frame 3840 2160 0) (str_of "v.mp4") (Some 0) []
           (str_of "0.mp4")).
  - vm_compute. discriminate.
  - reflexivity.
Defined.

(** X7 on two frames of 1922 x 1082 given to the writer of compressed
    chunks: the pictures in the container are 962 x 542, as the stream. *)
Lemma video_writers_encode_every_frame_witness :
  exists container sizes,
    Mpeg4CompressedChunkWriter_save_as_chunk half_quality
        (items [frame 1922 1082 0; frame 1922 1082 10]) (str_of "0.mp4")
      = Ok (container, sizes) /\
    sizes = [(1922, 1082)] /\
    muxed container
      = [ {| to_ndarray := {| columns := 962; rows := 542; turned := 0 |};
             pts := None; time_base := None |};
          {| to_ndarray := {| columns := 962; rows := 542; turned := 0 |};
             pts := None; time_base := None |} ] /\
    Some (rate (video_stream container)) = Some 25.
Proof.
  eexists. eexists. split; [reflexivity|]. split; [reflexivity|].
  split; [reflexivity|].
  eapply (video_writers_encode_every_frame half_quality
            (items [frame 1922 1082 0; frame 1922 1082 10]) (str_of "0.mp4")).
  right. reflexivity.
Defined.

(** An environment with files: a chunk that exists already and a raw file
    to store; the extension is what follows the last dot. *)
Definition on_disk : Env :=
  {| ndarray := shape;
     nd_width := columns;
     nd_height := rows;
     rotate_image := turn;
     reformat := fun a w h =>
                   {| columns := w; rows := h; turned := turned a |};
     py_int := int_of_digits;
     pil_image := shape;
     to_image := fun a => a;
     Image_open := fun _ => Raise FileNotFoundError;
     image_mode := fun _ => str_of "RGB";
     autoscale := fun a => Ok a;
     convert_rgb := fun a => a;
     image_size := fun a => (columns a, rows a);
     save_jpeg := fun a quality => Ok (bytes_of "jpeg");
     path_exists := fun p => str_eqb p (str_of "0.zip");
     read_file := fun p => if str_eqb p (str_of "b.jpeg")
                           then Ok (bytes_of "raw")
                           else Raise FileNotFoundError;
     splitext := fun p => match rsplit_once p 46 with
                          | [a; b] => (a, 46%N :: b)
                          | _ => (p, [])
                          end |}.

Definition two_images : list (@Image on_disk * pystr * Z) :=
  [ (@BytesIO on_disk (bytes_of "png"), str_of "x/a.png", 0);
    (@PathImage on_disk (str_of "b.jpeg"), str_of "b.jpeg", 1) ].

(** X8 on a buffer and a file: both stored as they are. *)
Lemma ZipChunkWriter_stores_as_is_witness :
  exists zip_chunk,
    ZipChunkWriter_save_as_chunk (IChunkWriter_init 100 DIM_2D) two_images
        (str_of "1.zip")
      = Ok (zip_chunk, []) /\
    zip_chunk = [(str_of "000000.png", bytes_of "png");
                 (str_of "000001.jpeg", bytes_of "raw")] /\
    Forall2 stored_as_is (enumerate 0 two_images) zip_chunk.
Proof.
  eexists. split; [reflexivity|]. split; [reflexivity|].
  apply (ZipChunkWriter_stores_as_is (H := on_disk)
           (IChunkWriter_init 100 DIM_2D) two_images (str_of "1.zip") _ []).
  reflexivity.
Defined.

(** A point cloud of width 3 and height 1, with a payload that is not
    text. *)
Definition small_cloud : bytes :=
  bytes_of "# .PCD v0.7" ++ newline
  ++ bytes_of "VERSION 0.7" ++ newline
  ++ bytes_of "WIDTH 3" ++ newline
  ++ bytes_of "HEIGHT 1" ++ newline
  ++ bytes_of "DATA binary" ++ newline
  ++ [xff; xfe; x00; x0a; xc0].

(** X9 on that point cloud. *)
Lemma ZipCompressedChunkWriter_passes_point_clouds_witness :
  compress_frame (IChunkWriter_init 0 DIM_3D) (BytesIO small_cloud)
    = Ok (3, 1, small_cloud, str_of "pcd") /\
  exists kv sw sh,
    get_pcd_properties (map BytesLine (readlines small_cloud)) false
      = Ok (Properties kv) /\
    dict_get kv (str_of "WIDTH") = Some sw /\ py_int sw = Ok 3 /\
    dict_get kv (str_of "HEIGHT") = Some sh /\ py_int sh = Ok 1.
Proof.
  split; [reflexivity|].
  apply (ZipCompressedChunkWriter_passes_point_clouds
           (IChunkWriter_init 0 DIM_3D) small_cloud small_cloud 3 1
           (str_of "pcd")).
  - reflexivity.
  - reflexivity.
Defined.

(** ** More runs: point-cloud headers *)

(** X10: with or without its comment the header verifies. *)
Lemma get_pcd_properties_ignores_comments_witness :
  get_pcd_properties
    [BytesLine (bytes_of "VERSION 0.7"); BytesLine (bytes_of "# a comment");
     BytesLine (bytes_of "DATA ascii")] true
  = get_pcd_properties
      [BytesLine (bytes_of "VERSION 0.7"); BytesLine (bytes_of "DATA ascii")]
      true.
Proof.
  apply (get_pcd_properties_ignores_comments
           [BytesLine (bytes_of "VERSION 0.7")]
           [BytesLine (bytes_of "DATA ascii")]
           (bytes_of "# a comment") (str_of "# a comment") true).
  - reflexivity.
  - reflexivity.
Defined.

(** X11: bytes after the DATA line that are not UTF-8 do no harm. *)
Lemma get_pcd_properties_stops_at_data_witness :
  get_pcd_properties
    [BytesLine (bytes_of "VERSION 0.7"); BytesLine (bytes_of "DATA binary");
     BytesLine [xff; xfe]] true
  = get_pcd_properties
      [BytesLine (bytes_of "VERSION 0.7"); BytesLine (bytes_of "DATA binary")]
      true.
Proof.
  apply (get_pcd_properties_stops_at_data
           [BytesLine (bytes_of "VERSION 0.7")]
           [BytesLine [xff; xfe]] []
           (bytes_of "DATA binary") (str_of "DATA binary")
           (str_of "DATA") (str_of "binary") true); reflexivity.
Defined.

(** X12 on a header of two keys. *)
Lemma get_pcd_properties_reads_back_witness :
  exists properties,
    get_pcd_properties
      [header_line (str_of "VERSION") (str_of "0.7");
       header_line (str_of "WIDTH") (str_of "3");
       header_line (str_of "DATA") (str_of "ascii");
       BytesLine [xff; xfe]] false
      = Ok (Properties properties) /\
    dict_get properties (str_of "WIDTH") = Some (str_of "3").
Proof.
  destruct (get_pcd_properties_reads_back
              [(str_of "VERSION", str_of "0.7"); (str_of "WIDTH", str_of "3")]
              (str_of "ascii") [BytesLine [xff; xfe]])
    as (properties & Hg & _ & Hk).
  - repeat constructor; cbn; try (intuition discriminate).
  - repeat constructor; cbn; intuition discriminate.
  - repeat constructor.
  - exists properties. split; [exact Hg|].
    apply Hk. right. left. reflexivity.
Defined.

(** ** More runs: ValidateDimension *)

(** X13 on a file of one point. *)
Lemma convert_bin_to_pcd_sixteen_bytes_witness :
  convert_bin_to_pcd (H := flat) (str_of "/d/a.bin") true
      ([(str_of "/d/a.bin", bytes_of "xxxxyyyyzzzziiii")],
       ValidateDimension_init None)
    = Ok (str_of "/d/a.pcd",
          ([(str_of "/d/a.pcd", [])], ValidateDimension_init None)).
Proof.
  destruct (convert_bin_to_pcd_sixteen_bytes (H := flat) (str_of "/d/a.bin")
              [(str_of "/d/a.bin", bytes_of "xxxxyyyyzzzziiii")]
              (ValidateDimension_init None) (bytes_of "xxxxyyyyzzzziiii")
              eq_refl) as [_ Hok].
  destruct (Hok eq_refl) as (list_pcd & _ & Ht).
  cbn zeta in Ht. destruct Ht as [_ Ht].
  etransitivity; [exact Ht|]. reflexivity.
Defined.

(** A file of seventeen bytes is refused. *)
Example convert_bin_to_pcd_odd_size :
  convert_bin_to_pcd (H := flat) (str_of "/d/a.bin") true
      ([(str_of "/d/a.bin", bytes_of "xxxxyyyyzzzziiii!")],
       ValidateDimension_init None)
    = Raise StructError.
Proof. reflexivity. Qed.

(** A .pcd file without a VERSION line. *)
Definition unversioned : files :=
  [ (str_of "/d/a.pcd",
     bytes_of "WIDTH 3" ++ newline ++ bytes_of "DATA ascii" ++ newline) ].

(** X14 on that file. *)
Lemma process_file_unverified_pcd_is_an_image_witness :
  process_file (H := flat) (str_of "/d") (str_of "/d") [] (str_of "a.pcd")
      (unversioned, ValidateDimension_init (Some (str_of "/d")))
    = Ok ([],
          (unversioned,
           with_image_file (ValidateDimension_init (Some (str_of "/d")))
             (str_of "a") (str_of "/d/a.pcd"))).
Proof.
  apply (process_file_unverified_pcd_is_an_image (H := flat)
           (str_of "/d") (str_of "/d") (str_of "a.pcd") (str_of "a") []
           unversioned (ValidateDimension_init (Some (str_of "/d")))
           (bytes_of "WIDTH 3" ++ newline ++ bytes_of "DATA ascii" ++ newline)).
  - reflexivity.
  - reflexivity.
  - reflexivity.
Defined.

Definition two_pictures : files :=
  [(str_of "/d/a.jpg", []); (str_of "/d/b.png", [])].

(** X15 on a directory of two pictures. *)
Lemma validate_without_point_clouds_witness :
  exists self',
    validate (H := flat)
        (two_pictures, ValidateDimension_init (Some (str_of "/d")))
      = Ok (tt, (two_pictures, self')) /\
    related_files self' = [] /\
    converted_files self' = [] /\
    dimension self' = DIM_2D.
Proof.
  eexists. split; [vm_compute; reflexivity|].
  match goal with
  | |- related_files ?s = _ /\ _ =>
      destruct (validate_without_point_clouds (H := flat)
                  two_pictures two_pictures
                  (ValidateDimension_init (Some (str_of "/d"))) s
                  (str_of "/d"))
        as (_ & _ & Hr & Hc & Hd)
  end.
  - reflexivity.
  - intros root [<-|[]]. reflexivity.
  - vm_compute. reflexivity.
  - split; [exact Hr|]. split; [exact Hc|]. now apply Hd.
Defined.

(** An object that has been through a walk before. *)
Definition seasoned : ValidateDimension :=
  {| dimension := DIM_3D;
     path := Some (str_of "/d");
     related_files := [(str_of "old.pcd", [str_of "/old/old.png"])];
     image_files := [(str_of "old", str_of "/old/old.png")];
     converted_files := [str_of "/old/old.pcd"] |}.

(** X16 on that object and the directory of a cloud and an image. *)
Lemma validate_forgets_nothing_witness :
  exists w' self',
    validate (H := flat) (cloud_and_image, seasoned) = Ok (tt, (w', self')) /\
    In (str_of "old.pcd") (dict_keys (related_files self')) /\
    In (str_of "a.pcd") (dict_keys (related_files self')).
Proof.
  eexists. eexists. split; [vm_compute; reflexivity|].
  split; [|vm_compute; tauto].
  match goal with
  | |- In _ (dict_keys (related_files ?s)) =>
      destruct (validate_forgets_nothing (H := flat)
                  cloud_and_image cloud_and_image seasoned s)
        as (_ & _ & Hk & _)
  end.
  - vm_compute. reflexivity.
  - apply Hk. left. reflexivity.
Defined.

(** X24 on three headers: a known version, an unknown one, and none. *)
Lemma get_pcd_properties_verifies_version_witness :
  get_pcd_properties
    [header_line (str_of "VERSION") (str_of ".7");
     header_line (str_of "WIDTH") (str_of "3");
     header_line (str_of "DATA") (str_of "ascii")] true = Ok PcdTrue /\
  get_pcd_properties
    [header_line (str_of "VERSION") (str_of "0.8");
     header_line (str_of "DATA") (str_of "ascii")] true = Ok PcdNone /\
  get_pcd_properties
    [header_line (str_of "WIDTH") (str_of "3");
     header_line (str_of "DATA") (str_of "ascii")] true = Ok PcdNone.
Proof.
  assert (Hformat : plain_value (str_of "ascii")) by (repeat constructor).
  split; [|split].
  - apply (get_pcd_properties_verifies_version
             [(str_of "VERSION", str_of ".7"); (str_of "WIDTH", str_of "3")]
             (str_of "ascii") []) with (v := str_of ".7").
    + repeat constructor; cbn; try (intuition discriminate).
    + repeat constructor; cbn; intuition discriminate.
    + exact Hformat.
    + left. reflexivity.
    + cbn. tauto.
  - apply (get_pcd_properties_verifies_version
             [(str_of "VERSION", str_of "0.8")] (str_of "ascii") [])
      with (v := str_of "0.8").
    + repeat constructor; cbn; try (intuition discriminate).
    + repeat constructor; cbn; intuition discriminate.
    + exact Hformat.
    + left. reflexivity.
    + cbn. intuition discriminate.
  - apply (get_pcd_properties_verifies_version
             [(str_of "WIDTH", str_of "3")] (str_of "ascii") []).
    + repeat constructor; cbn; try (intuition discriminate).
    + repeat constructor; cbn; intuition discriminate.
    + exact Hformat.
    + cbn. intuition discriminate.
Defined.

(** ** More runs: media types *)

(** Types guessed from the extension alone, as far as the runs need. *)
Definition by_extension : Mime :=
  {| guess_type := fun name =>
       match rsplit_once name 46 with
       | [_; ext] =>
           if str_eqb ext (str_of "png") then (Some (str_of "image/png"), None)
           else if str_eqb ext (str_of "jpg")
           then (Some (str_of "image/jpeg"), None)
           else if str_eqb ext (str_of "svg")
           then (Some (str_of "image/svg+xml"), None)
           else if str_eqb ext (str_of "mp4")
           then (Some (str_of "video/mp4"), None)
           else if str_eqb ext (str_of "pdf")
           then (Some (str_of "application/pdf"), None)
           else if str_eqb ext (str_of "zip")
           then (Some (str_of "application/zip"), None)
           else if str_eqb ext (str_of "tar")
           then (Some (str_of "application/x-tar"), None)
           else if str_eqb ext (str_of "gz")
           then (None, Some (str_of "gzip"))
           else (None, None)
       | _ => (None, None)
       end |}.

#[local] Existing Instance by_extension.

Example get_mime_by_extension :
  map (get_mime [])
      (map str_of ["a.png"; "a.svg"; "a.mp4"; "a.tar"; "a.txt.gz"; "a.pdf";
                   "a.zip"; "a.pcd"; "a"]%string)
  = map str_of ["image"; "unknown"; "video"; "archive"; "archive"; "pdf";
                "zip"; "unknown"; "unknown"]%string.
Proof. reflexivity. Qed.

Definition mixed_directory : files :=
  [ (str_of "/d/b.png", []); (str_of "/d/c.svg", []);
    (str_of "/d/a.mp4", []); (str_of "/d/a.jpg", []);
    (str_of "/d/notes", []) ].

(** X18 on a directory of two pictures, a drawing, a video and a file
    without extension. *)
Lemma DirectoryReader_yields_images_only_witness :
  exists r,
    DirectoryReader_init mixed_directory [str_of "/d"] 1 0 None = Ok r /\
    fst (ImageListReader_iter r)
      = [(str_of "/d/a.jpg", str_of "/d/a.jpg", 0);
         (str_of "/d/b.png", str_of "/d/b.png", 1)] /\
    forall image p i,
      In (image, p, i) (fst (ImageListReader_iter r)) ->
      image = p /\ _is_image p = true /\ _is_video p = false /\
      exists source root f,
        In source [str_of "/d"] /\
        In root (walk_roots mixed_directory source) /\
        In f (walk_files mixed_directory root) /\ p = join root f.
Proof.
  eexists. split; [reflexivity|]. split; [reflexivity|].
  intros image p i.
  apply (proj2 (DirectoryReader_yields_images_only (H := flat) mixed_directory
                  [str_of "/d"] 1 0 None)).
  reflexivity.
Defined.

(** A directory without pictures is refused. *)
Example DirectoryReader_no_image :
  DirectoryReader_init [(str_of "/d/c.svg", []); (str_of "/d/a.mp4", [])]
      [str_of "/d"] 1 0 None
    = Raise (Exception "No image found").
Proof. reflexivity. Qed.

(** ** More runs: ZipReader *)

Definition wide_cloud : bytes :=
  bytes_of "VERSION 0.7" ++ newline
  ++ bytes_of "WIDTH 5" ++ newline
  ++ bytes_of "HEIGHT 2" ++ newline
  ++ bytes_of "DATA ascii" ++ newline
  ++ bytes_of "0 0 0" ++ newline.

Definition x_zip : ZipFile :=
  {| filename := Some (str_of "/t/x.zip");
     members := [ (str_of "q.svg", Ok (bytes_of "svg"));
                  (str_of "p.png", Ok (bytes_of "old"));
                  (str_of "b.pcd", Ok wide_cloud);
                  (str_of "a.pcd", Ok small_cloud);
                  (str_of "m.jpg", Ok (bytes_of "jpg"));
                  (str_of "p.png", Ok (bytes_of "png")) ] |}.

Definition open_x_zip (p : pystr) : result ZipFile :=
  if str_eqb p (str_of "/t/x.zip") then Ok x_zip else Raise FileNotFoundError.

(** X20 on that archive: the two pictures, the one written last where a
    name occurs twice, and no error, since every picture can be read. *)
Lemma ZipReader_yields_image_members_witness :
  exists reader,
    ZipReader_init [] open_x_zip [str_of "/t/x.zip"] 1 0 None = Ok reader /\
    fst (ZipReader_iter reader)
      = [(BytesIO (bytes_of "jpg"), str_of "/t/m.jpg", 0);
         (BytesIO (bytes_of "png"), str_of "/t/p.png", 1);
         (BytesIO (bytes_of "png"), str_of "/t/p.png", 2)] /\
    zip_dimension reader = DIM_2D /\
    snd (ZipReader_iter reader) = None.
Proof.
  eexists. split; [reflexivity|]. split; [reflexivity|].
  match goal with
  | |- zip_dimension ?r = _ /\ _ =>
      destruct (ZipReader_yields_image_members (H0 := flat) [] open_x_zip
                  [str_of "/t/x.zip"] 1 0 None r) as (Hd & _ & _ & Hn)
  end.
  - reflexivity.
  - lia.
  - split; [exact Hd|]. apply Hn.
    intros name e _ Hin. cbn in Hin.
    repeat (destruct Hin as [Hin|Hin]; [discriminate|]). exact Hin.
Defined.

(** The same archive with the picture m.jpg damaged: the iteration ends at
    it with BadZipFile, nothing yielded before, m.jpg being first. *)
Definition damaged_zip : ZipFile :=
  {| filename := Some (str_of "/t/x.zip");
     members := [ (str_of "p.png", Ok (bytes_of "png"));
                  (str_of "m.jpg", Raise BadZipFile) ] |}.

Example ZipReader_damaged_member :
  exists reader,
    ZipReader_init [] (fun _ => Ok damaged_zip) [str_of "/t/x.zip"] 1 0 None
      = Ok reader /\
    ZipReader_iter reader = ([], Some BadZipFile).
Proof. eexists. split; reflexivity. Qed.

(** X19 on the two point clouds of that archive, after [reconcile]. *)
Lemma ZipReader_sizes_agree_with_chunk_writer_witness :
  exists reader0 reader items zip_chunk,
    ZipReader_init [] open_x_zip [str_of "/t/x.zip"] 1 0 None = Ok reader0 /\
    ZipReader_reconcile reader0 [str_of "b.pcd"; str_of "a.pcd"] 1 0 None
        DIM_3D = Ok reader /\
    fst (ZipReader_iter reader) = items /\
    ZipCompressedChunkWriter_save_as_chunk (IChunkWriter_init 0 DIM_3D)
        items (str_of "0.zip")
      = Ok (zip_chunk, [(3, 1); (5, 2)]) /\
    Forall2 (fun item size =>
               ZipReader_get_image_size reader (snd item) = Ok size)
            items [(3, 1); (5, 2)].
Proof.
  eexists. eexists. eexists. eexists.
  split; [reflexivity|]. split; [reflexivity|]. split; [reflexivity|].
  split; [reflexivity|].
  match goal with
  | |- Forall2 (fun item size =>
                  ZipReader_get_image_size ?r (snd item) = Ok size) ?l _ =>
      apply (proj1 (ZipReader_sizes_agree_with_chunk_writer r
                      (IChunkWriter_init 0 DIM_3D) l (str_of "0.zip")
                      [(str_of "000000.pcd", small_cloud);
                       (str_of "000001.pcd", wide_cloud)]
                      [(3, 1); (5, 2)]
                      eq_refl eq_refl eq_refl eq_refl))
  end.
Defined.

(** ** More runs: names in a chunk *)

(** X21 on the two point clouds. *)
Lemma ZipCompressedChunkWriter_member_names_distinct_witness :
  exists zip_chunk sizes,
    ZipCompressedChunkWriter_save_as_chunk (IChunkWriter_init 0 DIM_3D)
        [(BytesIO small_cloud, str_of "a.pcd", 0);
         (BytesIO wide_cloud, str_of "b.pcd", 1)] (str_of "0.zip")
      = Ok (zip_chunk, sizes) /\
    map fst zip_chunk = [str_of "000000.pcd"; str_of "000001.pcd"] /\
    NoDup (map fst zip_chunk).
Proof.
  eexists. eexists. split; [reflexivity|]. split; [reflexivity|].
  eapply (ZipCompressedChunkWriter_member_names_distinct
            (IChunkWriter_init 0 DIM_3D)
            [(BytesIO small_cloud, str_of "a.pcd", 0);
             (BytesIO wide_cloud, str_of "b.pcd", 1)] (str_of "0.zip")).
  reflexivity.
Defined.

(** X22 on the buffer and the file. *)
Lemma ZipChunkWriter_member_names_distinct_witness :
  exists zip_chunk,
    ZipChunkWriter_save_as_chunk (IChunkWriter_init 100 DIM_2D) two_images
        (str_of "1.zip")
      = Ok (zip_chunk, []) /\
    List.length zip_chunk = 2%nat /\
    NoDup (map fst zip_chunk).
Proof.
  eexists. split; [reflexivity|].
  eapply (ZipChunkWriter_member_names_distinct (H := on_disk)
            (IChunkWriter_init 100 DIM_2D) two_images (str_of "1.zip")).
  - intros p. cbn [splitext on_disk].
    destruct (rsplit_once p 46) as [|a [|b [|c l]]]; cbn; trivial.
  - reflexivity.
Defined.
